(** * vb.py: a shallow embedding of the settings-file parser, the source
    scanner, the settings merge and the Windows distribution steps.

    Text is a list of 8-bit characters.  The character classes and case
    mappings below are Python's on ASCII text; characters above 127 are
    carried through as uncased, non-space, non-word characters.  A file is
    its decoded text (text mode, universal newlines), so the only line end
    is the line feed; that [open] or the decoding fails is not part of the
    embedding.  The alternation of package names is compiled for names of
    letters, digits and underscores ([plain_names]), which the pattern
    language reads as they stand. *)

From Stdlib Require Import List Ascii String Arith Bool Lia.
From stdpp Require Import base list sorting.
Import ListNotations.

Open Scope list_scope.

(** ** Characters and strings *)

Abbreviation str := (list ascii).

Definition txt (s : string) : str := list_ascii_of_string s.

#[global] Instance ascii_eq_dec : EqDecision ascii := ascii_dec.

Definition code (c : ascii) : nat := nat_of_ascii c.

Definition LF : ascii := ascii_of_nat 10.
Definition DQUOTE : ascii := ascii_of_nat 34.

(** [str.isspace] on one character: 9-13, 28-31 and the blank. *)
Definition isspace (c : ascii) : bool :=
  let n := code c in
  ((9 <=? n) && (n <=? 13)) || ((28 <=? n) && (n <=? 31)) || (n =? 32).

Definition is_upper (c : ascii) : bool := (65 <=? code c) && (code c <=? 90).
Definition is_lower (c : ascii) : bool := (97 <=? code c) && (code c <=? 122).
Definition is_digit (c : ascii) : bool := (48 <=? code c) && (code c <=? 57).

(** The class [\w] of the [re] module. *)
Definition is_word (c : ascii) : bool :=
  is_upper c || is_lower c || is_digit c || (code c =? 95).

Definition upper_char (c : ascii) : ascii :=
  if is_lower c then ascii_of_nat (code c - 32) else c.
Definition lower_char (c : ascii) : ascii :=
  if is_upper c then ascii_of_nat (code c + 32) else c.

Definition upper (s : str) : str := map upper_char s.
Definition casefold (s : str) : str := map lower_char s.

(** [str.title]: a cased character is upper-cased after an uncased one (or
    at the start) and lower-cased after a cased one. *)
Fixpoint title_from (prev_cased : bool) (s : str) : str :=
  match s with
  | [] => []
  | c :: s' =>
      (if prev_cased then lower_char c else upper_char c)
        :: title_from (is_upper c || is_lower c) s'
  end.
Definition title (s : str) : str := title_from false s.

Fixpoint startswith (p s : str) : bool :=
  match p, s with
  | [], _ => true
  | _ :: _, [] => false
  | a :: p', b :: s' => if decide (a = b) then startswith p' s' else false
  end.


Fixpoint lstrip_by (p : ascii -> bool) (s : str) : str :=
  match s with
  | [] => []
  | c :: s' => if p c then lstrip_by p s' else s
  end.

Definition rstrip_by (p : ascii -> bool) (s : str) : str :=
  rev (lstrip_by p (rev s)).

(** [s.strip()] *)
Definition strip (s : str) : str := rstrip_by isspace (lstrip_by isspace s).

(** [s.lstrip(chars)] *)
Definition lstrip_chars (chars : str) (s : str) : str :=
  lstrip_by (fun c => bool_decide (c ∈ chars)) s.

(** [s.find(c)] for a one-character needle: [None] stands for [-1]. *)
Fixpoint find_char (c : ascii) (s : str) : option nat :=
  match s with
  | [] => None
  | x :: s' => if decide (x = c) then Some 0
               else option_map S (find_char c s')
  end.

(** [s[i:j]] for [0 <= i], [0 <= j]. *)
Definition slice (i j : nat) (s : str) : str := drop i (take j s).

(** The text before the first [sep] and, when there is one, the text after. *)
Fixpoint break_at (sep : ascii) (s : str) : str * option str :=
  match s with
  | [] => ([], None)
  | c :: s' =>
      if decide (c = sep) then ([], Some s')
      else let '(a, r) := break_at sep s' in (c :: a, r)
  end.

(** [s.split(sep, maxsplit)] for a one-character separator. *)
Fixpoint split (sep : ascii) (maxsplit : nat) (s : str) : list str :=
  match maxsplit with
  | 0 => [s]
  | S n =>
      match break_at sep s with
      | (a, None) => [a]
      | (a, Some rest) => a :: split sep n rest
      end
  end.

(** [sep.join(parts)] *)
Fixpoint join (sep : str) (parts : list str) : str :=
  match parts with
  | [] => []
  | [p] => p
  | p :: ps => p ++ sep ++ join sep ps
  end.

(** [file.readlines()], also the lines of [for line in file]: every line
    keeps its line feed; the last one may lack it. *)
Fixpoint readlines (s : str) : list str :=
  match s with
  | [] => []
  | c :: s' =>
      if decide (c = LF) then [c] :: readlines s'
      else match readlines s' with
           | [] => [[c]]
           | l :: ls => (c :: l) :: ls
           end
  end.

(** Code-point order on strings, as [sorted] compares them. *)
Fixpoint str_leb (a b : str) : bool :=
  match a, b with
  | [], _ => true
  | _ :: _, [] => false
  | x :: a', y :: b' =>
      if code x <? code y then true
      else if code y <? code x then false
      else str_leb a' b'
  end.

Definition str_le (a b : str) : Prop := str_leb a b = true.

#[global] Instance str_le_dec : RelDecision str_le.
Proof. intros a b. unfold str_le. apply _. Defined.

(** ** Dictionaries

    A Python [dict] keeps its keys in insertion order, and the scanner's
    alternation is built from [Packages.keys()] in that order, so a
    dictionary is an association list without repeated keys. *)

Abbreviation dict := (list (str * str)).

Fixpoint dict_get (k : str) (d : dict) : option str :=
  match d with
  | [] => None
  | (k', v) :: d' => if decide (k = k') then Some v else dict_get k d'
  end.

(** [k in d] *)
Definition dict_in (k : str) (d : dict) : bool :=
  match dict_get k d with Some _ => true | None => false end.

(** [d[k] = v]: an existing key keeps its place. *)
Fixpoint dict_set (k v : str) (d : dict) : dict :=
  match d with
  | [] => [(k, v)]
  | (k', v') :: d' =>
      if decide (k = k') then (k, v) :: d' else (k', v') :: dict_set k v d'
  end.

(** [del d[k]] on a dictionary that has the key. *)
Definition dict_del (k : str) (d : dict) : dict :=
  filter (fun kv => kv.1 <> k) d.

Definition keys (d : dict) : list str := map fst d.

(** ** Exceptions *)

Inductive exn : Type :=
| KeyError (key : str)
| Error (msg : str).

Inductive result (A : Type) : Type :=
| Ok (a : A)
| Raise (e : exn).
Arguments Ok {A} a.
Arguments Raise {A} e.

#[global] Instance result_ret : MRet result := fun A a => Ok a.

#[global] Instance result_bind : MBind result := fun A B f r =>
  match r with
  | Ok a => f a
  | Raise e => Raise e
  end.

(** [main] catches [Error] only; any other exception ends the program
    with a traceback. *)
Definition handled_by_main (e : exn) : bool :=
  match e with
  | Error _ => true
  | KeyError _ => false
  end.

(** ** The model object and the module's global registry *)

Inductive Category : Type :=
| GENERAL | PACKAGES | EXTRA_FILES | APP_TEMPLATE | GUI_TEMPLATE | LIB_TEMPLATE.

#[global] Instance Category_eq_dec : EqDecision Category.
Proof. solve_decision. Defined.

(** The fields of [Model] that the modelled methods read or write, and the
    module-level dictionary [Packages], which they update in place. *)
Record state : Type := mk_state {
  Packages : dict;
  appname : option str;
  packages : dict;
  version : option str;
  extra_files : list str;
  winrcedit : str;
  winmsys2 : str;
  app_template : str;
  gui_template : str;
  lib_template : str;
  archive : bool
}.

Definition set_Packages (d : dict) (st : state) : state :=
  mk_state d (appname st) (packages st) (version st) (extra_files st)
    (winrcedit st) (winmsys2 st) (app_template st) (gui_template st)
    (lib_template st) (archive st).
Definition set_appname (v : option str) (st : state) : state :=
  mk_state (Packages st) v (packages st) (version st) (extra_files st)
    (winrcedit st) (winmsys2 st) (app_template st) (gui_template st)
    (lib_template st) (archive st).
Definition set_packages (d : dict) (st : state) : state :=
  mk_state (Packages st) (appname st) d (version st) (extra_files st)
    (winrcedit st) (winmsys2 st) (app_template st) (gui_template st)
    (lib_template st) (archive st).
Definition set_version (v : option str) (st : state) : state :=
  mk_state (Packages st) (appname st) (packages st) v (extra_files st)
    (winrcedit st) (winmsys2 st) (app_template st) (gui_template st)
    (lib_template st) (archive st).
Definition set_extra_files (l : list str) (st : state) : state :=
  mk_state (Packages st) (appname st) (packages st) (version st) l
    (winrcedit st) (winmsys2 st) (app_template st) (gui_template st)
    (lib_template st) (archive st).
Definition set_winrcedit (v : str) (st : state) : state :=
  mk_state (Packages st) (appname st) (packages st) (version st)
    (extra_files st) v (winmsys2 st) (app_template st) (gui_template st)
    (lib_template st) (archive st).
Definition set_winmsys2 (v : str) (st : state) : state :=
  mk_state (Packages st) (appname st) (packages st) (version st)
    (extra_files st) (winrcedit st) v (app_template st) (gui_template st)
    (lib_template st) (archive st).
Definition set_app_template (v : str) (st : state) : state :=
  mk_state (Packages st) (appname st) (packages st) (version st)
    (extra_files st) (winrcedit st) (winmsys2 st) v (gui_template st)
    (lib_template st) (archive st).
Definition set_gui_template (v : str) (st : state) : state :=
  mk_state (Packages st) (appname st) (packages st) (version st)
    (extra_files st) (winrcedit st) (winmsys2 st) (app_template st) v
    (lib_template st) (archive st).
Definition set_lib_template (v : str) (st : state) : state :=
  mk_state (Packages st) (appname st) (packages st) (version st)
    (extra_files st) (winrcedit st) (winmsys2 st) (app_template st)
    (gui_template st) v (archive st).

(** The module's initial [Packages] table. *)
Definition default_Packages : dict :=
  [ (txt "Gee", txt "gee-0.8");
    (txt "Gio", txt "gio-2.0");
    (txt "Gtk", txt "gtk+-3.0") ].

(** [Model.__init__] next to the initial registry; the three template texts
    are the module's constants [APP_TEMPLATE], [GUI_TEMPLATE] and
    [LIB_TEMPLATE]. *)
Definition Model_init (app gui lib : str) (archive : bool) : state :=
  mk_state default_Packages None [] None [txt "README"; txt "LICENSE"]
    (txt "C:/bin/rcedit.exe") (txt "C:/bin/msys64") app gui lib archive.

(** ** Reading a settings file *)

Definition is_template (category : Category) : bool :=
  match category with
  | APP_TEMPLATE | GUI_TEMPLATE | LIB_TEMPLATE => true
  | _ => false
  end.

Definition add_template_line (category : Category) (line : str)
    (st : state) : state :=
  match category with
  | APP_TEMPLATE => set_app_template (app_template st ++ line) st
  | GUI_TEMPLATE => set_gui_template (gui_template st ++ line) st
  | LIB_TEMPLATE => set_lib_template (lib_template st ++ line) st
  | _ => st
  end.

Definition set_general_item (key value : str) (st : state) : state :=
  if decide (key = txt "appname") then set_appname (Some value) st
  else if decide (key = txt "version") then set_version (Some value) st
  else if decide (key = txt "winrcedit") then set_winrcedit value st
  else if decide (key = txt "winmsys2") then set_winmsys2 value st
  else st.

Definition read_ini_category (category : Category) (line : str)
    (st : state) : Category * state :=
  match find_char "]" line with
  | Some i =>
      let name := casefold (slice 1 i line) in
      if decide (name = txt "packages") then (PACKAGES, st)
      else if decide (name = txt "extrafiles") then
        (EXTRA_FILES, set_extra_files [] st)
      else if decide (name = txt "apptemplate") then
        (APP_TEMPLATE, set_app_template [] st)
      else if decide (name = txt "guitemplate") then
        (GUI_TEMPLATE, set_gui_template [] st)
      else if decide (name = txt "libtemplate") then
        (LIB_TEMPLATE, set_lib_template [] st)
      else (GENERAL, st)
  | None => (category, st)
  end.

Section Ini.

(** [glob.glob]: the paths that a pattern expands to on the disk. *)
Variable glob : str -> list str.

Definition read_ini_item (category : Category) (line : str) (master : bool)
    (st : state) : result state :=
  if is_template category then Ok (add_template_line category line st)
  else if decide (category = EXTRA_FILES) then
    Ok (set_extra_files (extra_files st ++ glob line) st)
  else
    match split "=" 2 line with
    | [p0; p1] =>
        let key := casefold (strip p0) in
        let value := strip p1 in
        if decide (category = PACKAGES) then
          let key := title key in
          if master then
            Ok (set_Packages (dict_set key value (Packages st)) st)
          else
            let st := set_packages (dict_set key value (packages st)) st in
            if dict_in key (Packages st) then
              Ok (set_Packages (dict_del key (Packages st)) st)
            else Raise (KeyError key)
        else Ok (set_general_item key value st)
    | _ => Ok st
    end.

(** The body of the loop of [read_ini] on one line of the file. *)
Definition read_ini_line (master : bool) (cs : Category * state)
    (line : str) : result (Category * state) :=
  let '(category, st) := cs in
  if negb (startswith (txt "[") line) && is_template category then
    Ok (category, add_template_line category line st)
  else
    let line := strip line in
    if bool_decide (line = []) || startswith (txt "#") line then
      Ok (category, st)
    else if startswith (txt "[") line then
      Ok (read_ini_category category line st)
    else
      st' ← read_ini_item category line master st;
      Ok (category, st').

Fixpoint read_ini_lines (master : bool) (lines : list str)
    (cs : Category * state) : result (Category * state) :=
  match lines with
  | [] => Ok cs
  | line :: rest =>
      cs' ← read_ini_line master cs line;
      read_ini_lines master rest cs'
  end.

(** [read_ini] on the text of the file. *)
Definition read_ini (content : str) (master : bool) (st : state)
    : result state :=
  cs ← read_ini_lines master (readlines content) (GENERAL, st);
  Ok cs.2.

End Ini.

(** ** Regular expressions

    The patterns of the module use literals, one-character classes, greedy
    repetition of a class, [\b], [^], alternation, grouping and at most one
    named group.  [matches] is the backtracking matcher of [re]: it tries
    the alternatives from left to right and the longest repetition first,
    and hands what follows the sub-pattern to the continuation. *)

Inductive regex : Type :=
| Lit (s : str)
| Cls (p : ascii -> bool)
| Star (p : ascii -> bool)
| Bnd
| Bol
| Cat (r1 r2 : regex)
| Alt (r1 r2 : regex)
| Grp (r : regex).

Definition Plus (p : ascii -> bool) : regex := Cat (Cls p) (Star p).

(** A position in the subject: the character before it, if any, and the
    text from it on. *)
Definition is_word_opt (c : option ascii) : bool :=
  match c with Some c => is_word c | None => false end.

Definition at_boundary (prev : option ascii) (s : str) : bool :=
  xorb (is_word_opt prev) (is_word_opt (head s)).

(** The continuation receives the position after the sub-pattern and the
    text of the named group. *)
Definition cont (A : Type) : Type := option ascii -> str -> option str -> option A.

Fixpoint star_matches {A} (p : ascii -> bool) (prev : option ascii) (s : str)
    (cap : option str) (k : cont A) : option A :=
  match s with
  | c :: s' =>
      if p c then
        match star_matches p (Some c) s' cap k with
        | Some r => Some r
        | None => k prev s cap
        end
      else k prev s cap
  | [] => k prev s cap
  end.

Fixpoint matches {A} (r : regex) (prev : option ascii) (s : str)
    (cap : option str) (k : cont A) : option A :=
  match r with
  | Lit l =>
      if startswith l s then
        k (match last l with Some c => Some c | None => prev end)
          (drop (length l) s) cap
      else None
  | Cls p =>
      match s with
      | c :: s' => if p c then k (Some c) s' cap else None
      | [] => None
      end
  | Star p => star_matches p prev s cap k
  | Bnd => if at_boundary prev s then k prev s cap else None
  | Bol => match prev with None => k prev s cap | Some _ => None end
  | Cat r1 r2 =>
      matches r1 prev s cap (fun prev' s' cap' => matches r2 prev' s' cap' k)
  | Alt r1 r2 =>
      match matches r1 prev s cap k with
      | Some x => Some x
      | None => matches r2 prev s cap k
      end
  | Grp r1 =>
      matches r1 prev s cap
        (fun prev' s' _ => k prev' s' (Some (take (length s - length s') s)))
  end.

(** A match object, as far as the module looks at it: the text of the named
    group, when the pattern has one. *)
Definition Match : Type := option str.

Definition group (m : Match) : str := default [] m.

Definition match_here (r : regex) (prev : option ascii) (s : str)
    : option Match :=
  matches r prev s None (fun _ _ cap => Some cap).


Fixpoint search_from (r : regex) (prev : option ascii) (s : str)
    : option Match :=
  match match_here r prev s with
  | Some m => Some m
  | None =>
      match s with
      | [] => None
      | c :: s' => search_from r (Some c) s'
      end
  end.

(** [rx.search(line)] *)
Definition re_search (r : regex) (line : str) : option Match :=
  search_from r None line.

Definition one_of (chars : str) (c : ascii) : bool := bool_decide (c ∈ chars).
Definition none_of (chars : str) (c : ascii) : bool := negb (one_of chars c).

Fixpoint alternation (names : list str) : regex :=
  match names with
  | [] => Lit []
  | [n] => Lit n
  | n :: rest => Alt (Lit n) (alternation rest)
  end.

(** A name that the pattern language reads as it stands: letters, digits
    and underscores only. *)
Definition plain_name (n : str) : bool := forallb is_word n.

Definition plain_names (d : dict) : bool := forallb plain_name (keys d).

(** Text on which the character classes of this file are those of [re] and
    [str]: every character is below 128. *)
Definition ascii_text (s : str) : bool := forallb (fun c => code c <? 128) s.

(** [re.compile(START + '|'.join(names) + END)] for plain names.  The
    source joins the names as they are, without [re.escape]: a name with a
    character that the pattern language reads specially ([Foo.Bar], [A+B])
    is compiled as a pattern, not as the literal that stands here.  The
    theorems on which name this pattern finds in a line therefore take a
    registry of plain names ([plain_names]) and lines of ASCII text
    ([ascii_text]) as hypotheses. *)
Definition pkg_pattern (names : list str) : regex :=
  Cat Bnd (Cat (Grp (alternation names)) Bnd).

Definition GIO : str := txt "Gio".

Definition GIO_RX : regex :=
  Cat Bnd (Alt (Lit (txt "File."))
          (Alt (Lit (txt "ZlibCompressor")) (Lit (txt "Converter")))).

Definition VERSION_RX : regex :=
  Cat (Lit (txt "const")) (Cat (Plus isspace)
  (Cat (Lit (txt "string")) (Cat (Plus isspace)
  (Cat (Alt (Cat (Cls (one_of (txt "Vv"))) (Lit (txt "ersion")))
            (Lit (txt "VERSION")))
  (Cat (Star isspace) (Cat (Lit (txt "="))
  (Cat (Star isspace) (Cat (Lit [DQUOTE])
  (Cat (Grp (Plus (none_of [DQUOTE])))
  (Cat (Lit [DQUOTE]) (Cat (Star isspace) (Lit (txt ";"))))))))))))).


(** ** The source scanner of [discover] *)

(** What the scanner does to the disk and to the source text: it opens a
    file, and it puts a line to the patterns. *)
Inductive event : Type :=
| Opened (path : str)
| Examined (line : str).

(** The state of the scanning loop: the compiled alternation [pkg_rx], the
    model with the registry, and the events so far, latest first. *)
Record scanner : Type := mk_scanner {
  pkg_rx : regex;
  st_of : state;
  events : list event
}.

Definition log (e : event) (sc : scanner) : scanner :=
  mk_scanner (pkg_rx sc) (st_of sc) (e :: events sc).

Section Scan.

(** [sys.platform.startswith('win')] *)
Variable WIN : bool.

(** [more_to_do], as the truth value the loop tests. *)
Definition more_to_do (st : state) : bool :=
  negb (bool_decide (Packages st = []))
  || (WIN && archive st && bool_decide (version st = None)).

Definition update_packages (rx : regex) (pkg : str) (st : state)
    : result (regex * state) :=
  match dict_get pkg (Packages st) with
  | None => Raise (KeyError pkg)
  | Some v =>
      let st := set_packages (dict_set pkg v (packages st)) st in
      let st := set_Packages (dict_del pkg (Packages st)) st in
      if negb (bool_decide (Packages st = [])) then
        Ok (pkg_pattern (keys (Packages st)), st)
      else Ok (rx, st)
  end.

Definition discovered (sc : scanner) (pkg : str) : result scanner :=
  rs ← update_packages (pkg_rx sc) pkg (st_of sc);
  Ok (mk_scanner rs.1 rs.2 (events sc)).

Definition scan_version (line : str) (sc : scanner) : scanner :=
  if bool_decide (version (st_of sc) = None) then
    match re_search VERSION_RX line with
    | Some m =>
        mk_scanner (pkg_rx sc) (set_version (Some (group m)) (st_of sc))
          (events sc)
    | None => sc
    end
  else sc.

(** The body of the inner loop after its [more_to_do] test. *)
Definition scan_line (line : str) (sc : scanner) : result scanner :=
  let sc := log (Examined line) sc in
  match re_search (pkg_rx sc) line with
  | Some m => discovered sc (group m)
  | None =>
      if dict_in GIO (Packages (st_of sc)) then
        match re_search GIO_RX line with
        | Some _ => discovered sc GIO
        | None => Ok (scan_version line sc)
        end
      else Ok (scan_version line sc)
  end.

(** [for line in file], left by [break] when nothing is left to do. *)
Fixpoint scan_lines (lines : list str) (sc : scanner) : result scanner :=
  match lines with
  | [] => Ok sc
  | line :: rest =>
      if negb (more_to_do (st_of sc)) then Ok sc
      else sc' ← scan_line line sc; scan_lines rest sc'
  end.

(** [for vala in self.valas]: a source file is its path and its text. *)
Fixpoint scan_files (valas : list (str * str)) (sc : scanner)
    : result scanner :=
  match valas with
  | [] => Ok sc
  | (path, text) :: rest =>
      sc' ← scan_lines (readlines text) (log (Opened path) sc);
      if negb (more_to_do (st_of sc')) then Ok sc'
      else scan_files rest sc'
  end.

(** The scanning part of [discover]: the model afterwards and the events
    in the order they happened. *)
Definition scan (valas : list (str * str)) (st : state)
    : result (state * list event) :=
  if more_to_do st then
    sc ← scan_files valas
           (mk_scanner (pkg_pattern (keys (Packages st))) st []);
    Ok (st_of sc, rev (events sc))
  else Ok (st, []).

End Scan.

(** ** Writing and merging the project's settings file *)

(** [f'{name} = {value}'] and [f'# {name} = {value}'] *)
Definition active_line (kv : str * str) : str := kv.1 ++ txt " = " ++ kv.2.
Definition inactive_line (kv : str * str) : str :=
  txt "# " ++ kv.1 ++ txt " = " ++ kv.2.

(** [sorted(set(lines))] *)
Definition sorted_set (lines : list str) : list str :=
  merge_sort str_le (remove_dups lines).

Definition section_lines (packages : dict) (st : state) : list str :=
  sorted_set (map active_line packages ++ map inactive_line (Packages st)).

Definition make_packages_section (packages : dict) (st : state) : str :=
  txt "[Packages]" ++ [LF] ++ join [LF] (section_lines packages st) ++ [LF].

(** The text that [make_ini] writes. *)
Definition make_ini (st : state) : str :=
  txt "[General]" ++ [LF] ++ [LF] ++ txt "[ExtraFiles]" ++ [LF] ++ [LF]
    ++ make_packages_section (packages st) st.

(** The local variables of the loop of [maybe_update_ini]. *)
Record merger : Type := mk_merger {
  new_lines : list str;
  in_packages : bool;
  merged : dict
}.

(** The body of the loop of [maybe_update_ini] on one line of the file. *)
Definition merge_line (m : merger) (line : str) : merger :=
  if in_packages m then
    match split "=" 2 line with
    | [p0; p1] =>
        let key := strip p0 in
        let value := strip p1 in
        if startswith (txt "#") key then
          let keyx := key in
          let key := lstrip_chars (txt "# ") key in
          if negb (dict_in key (merged m)) then
            mk_merger (new_lines m) true (dict_set keyx value (merged m))
          else mk_merger (new_lines m) true (dict_set key value (merged m))
        else mk_merger (new_lines m) true (dict_set key value (merged m))
    | _ => m
    end
  else if negb (startswith (txt "[PACKAGES]") (upper line)) then
    mk_merger (new_lines m ++ [line]) false (merged m)
  else mk_merger (new_lines m) true (merged m).

(** The text that [maybe_update_ini] reconstructs from the file's text. *)
Definition merged_ini (old : str) (st : state) : str :=
  let m := fold_left merge_line (readlines old)
             (mk_merger [] false (packages st)) in
  concat (new_lines m) ++ make_packages_section (merged m) st.

(** [maybe_update_ini]: the text it writes to the file, or [None] when it
    leaves the file alone. *)
Definition maybe_update_ini (old : str) (st : state) : option str :=
  let new := merged_ini old st in
  if bool_decide (new <> concat (readlines old)) then Some new else None.

(** The file's text after [maybe_update_ini]. *)
Definition ini_after (old : str) (st : state) : str :=
  default old (maybe_update_ini old st).

(** ** The Windows distribution *)






Section Zip.

(** [pathlib.Path] and the operations of it that [win_zip] calls. *)
Variable path : Type.
Variable div : path -> str -> path.
Variable path_name : path -> str.
Variable with_name : path -> str -> path.
Variable with_suffix : path -> str -> path.
(** [str(filename.relative_to(dist))] *)
Variable relative_to : path -> path -> str.
(** [target.samefile(filename)]: both name one file of the disk. *)
Variable samefile : path -> path -> bool.
(** [dist.glob('**/*')], run once [zipfile.ZipFile(target, 'w')] has
    created the archive file. *)
Variable glob_all : path -> path -> list path.

(** [win_zip]: the archive's path and its entries, each the file written
    and the name it gets inside the archive.  [appname] is the path that
    [make_win_dist] left in [self.appname]. *)
Definition win_zip (root appname : path) (st : state)
    : path * list (path * str) :=
  let dist := div root (txt "dist") in
  let target := with_suffix appname [] in
  let name := path_name target in
  let '(name, target) :=
    match version st with
    | Some (c :: v) =>
        let name := path_name target ++ txt "-" ++ (c :: v) in
        (name, with_name target name)
    | _ => (name, target)
    end in
  let target := with_suffix target (txt ".zip") in
  (target,
   flat_map
     (fun filename =>
        if negb (samefile target filename) then
          [(filename, name ++ txt "/" ++ relative_to filename dist)]
        else [])
     (glob_all target dist)).

End Zip.

(** ** Vocabulary of the statements *)

(** The section name that a bracket line of a settings file carries, as
    [read_ini_category] reads it: the case-folded text between the opening
    bracket and the first closing one. *)
Definition bracket_name (line : str) : option str :=
  match find_char "]" line with
  | Some i => Some (casefold (slice 1 i line))
  | None => None
  end.

(** The key and the value of a [key = value] line of the Packages section,
    as [read_ini_item] reads them. *)
Definition package_entry (line : str) : option (str * str) :=
  match split "=" 2 line with
  | [p0; p1] => Some (title (casefold (strip p0)), strip p1)
  | _ => None
  end.

(** No name is both in the global registry and in the project's own
    packages. *)
Definition exclusive (st : state) : Prop :=
  forall name, dict_in name (Packages st) = true ->
               dict_in name (packages st) = true -> False.

(** The two operations that move a name out of the registry: reading one
    item of a project's settings file, and finding a package in a source
    line. *)
Inductive operation : Type :=
| ReadItem (category : Category) (line : str)
| Discover (rx : regex) (pkg : str).

Definition run_operation (glob : str -> list str) (op : operation)
    (st : state) : result state :=
  match op with
  | ReadItem category line => read_ini_item glob category line false st
  | Discover rx pkg => rs ← update_packages rx pkg st; Ok rs.2
  end.

Fixpoint run_operations (glob : str -> list str) (ops : list operation)
    (st : state) : result state :=
  match ops with
  | [] => Ok st
  | op :: rest => st' ← run_operation glob op st; run_operations glob rest st'
  end.

(** The longest prefix whose characters are all in a class; [lstrip_by]
    gives what follows it. *)
Fixpoint take_by (p : ascii -> bool) (s : str) : str :=
  match s with
  | [] => []
  | c :: s' => if p c then c :: take_by p s' else []
  end.

(** The character before the position reached after reading [read] from a
    position that had [prev] before it. *)
Definition prev_after (prev : option ascii) (read : str) : option ascii :=
  match last read with Some c => Some c | None => prev end.





(** The three spellings that [VERSION_RX] accepts for the constant's name. *)
Definition version_idents : list str :=
  [txt "version"; txt "Version"; txt "VERSION"].

(** A declaration [const string <ident> = "<v>";] with its blanks. *)
Definition version_decl (w1 w2 ident w3 w4 v w5 : str) : str :=
  txt "const" ++ w1 ++ txt "string" ++ w2 ++ ident ++ w3 ++ txt "="
    ++ w4 ++ [DQUOTE] ++ v ++ [DQUOTE] ++ w5 ++ txt ";".

Definition blanks (w : str) : Prop := forallb isspace w = true.

Definition is_version_ident (s : str) : bool :=
  match s with
  | c :: s' => one_of (txt "Vv") c && startswith (txt "ersion") s'
  | [] => false
  end
  || startswith (txt "VERSION") s.

(** [VERSION_RX] read off the text from left to right, from the place where
    a match is tried: first the part after the constant's name. *)
Definition version_value_parse (s : str) : option str :=
  let s3 := lstrip_by isspace s in
  if startswith (txt "=") s3 then
    match lstrip_by isspace (drop 1 s3) with
    | q :: c :: s4 =>
        if bool_decide (q = DQUOTE) && none_of [DQUOTE] c then
          match lstrip_by (none_of [DQUOTE]) s4 with
          | q' :: s5 =>
              if startswith (txt ";") (lstrip_by isspace s5)
              then Some (c :: take_by (none_of [DQUOTE]) s4)
              else None
          | [] => None
          end
        else None
    | _ => None
    end
  else None.

Definition version_parse (s : str) : option str :=
  if startswith (txt "const") s then
    match drop 5 s with
    | c1 :: s1 =>
        if isspace c1 && startswith (txt "string") (lstrip_by isspace s1) then
          match drop 6 (lstrip_by isspace s1) with
          | c2 :: s2 =>
              if isspace c2 && is_version_ident (lstrip_by isspace s2) then
                version_value_parse (drop 7 (lstrip_by isspace s2))
              else None
          | [] => None
          end
        else None
    | [] => None
    end
  else None.

(** [name] stands at this place of the text between two word boundaries. *)
Definition word_here (prev : option ascii) (s : str) (name : str) : bool :=
  at_boundary prev s && startswith name s
  && at_boundary (prev_after prev name) (drop (length name) s).

(** What the alternation of [names] finds in the text: at the leftmost
    place where one of the names stands as a word, the first such name in
    the order of the list. *)
Fixpoint first_word (names : list str) (prev : option ascii) (s : str)
    : option str :=
  match List.find (word_here prev s) names with
  | Some n => Some n
  | None =>
      match s with
      | [] => None
      | c :: s' => first_word names (Some c) s'
      end
  end.

(** [name] occurs in [line] as a whole word, after the text [pre]. *)
Definition occurs_as_word (name line pre : str) : Prop :=
  exists post, line = pre ++ post
               /\ word_here (prev_after None pre) post name = true.

(** As long as names are pending, the scanner's alternation is the one
    compiled from exactly the pending names. *)
Definition rx_current (sc : scanner) : Prop :=
  Packages (st_of sc) <> [] ->
  pkg_rx sc = pkg_pattern (keys (Packages (st_of sc))).

(** ** Vocabulary of the merge *)

(** The test of [maybe_update_ini] for the header of the Packages section. *)
Definition is_header (line : str) : bool :=
  startswith (txt "[PACKAGES]") (upper line).

(** The lines in front of the first header line, which the merge copies,
    and the lines after it, which it reads as the Packages section. *)
Fixpoint front (lines : list str) : list str :=
  match lines with
  | [] => []
  | l :: ls => if is_header l then [] else l :: front ls
  end.

Fixpoint section_of (lines : list str) : list str :=
  match lines with
  | [] => []
  | l :: ls => if is_header l then ls else section_of ls
  end.

(** The key and the value that the merge reads from a line of the section. *)
Definition section_entry (line : str) : option (str * str) :=
  match split "=" 2 line with
  | [p0; p1] => Some (strip p0, strip p1)
  | _ => None
  end.

(** The key under which the merge stores an entry: a commented key whose
    name is a key already goes to that name. *)
Definition target (d : dict) (key : str) : str :=
  if startswith (txt "#") key then
    if dict_in (lstrip_chars (txt "# ") key) d
    then lstrip_chars (txt "# ") key else key
  else key.

Definition merge_entry (d : dict) (line : str) : dict :=
  match section_entry line with
  | Some (key, value) => dict_set (target d key) value d
  | None => d
  end.

Definition merge_section (d : dict) (lines : list str) : dict :=
  fold_left merge_entry lines d.

(** The dictionary [packages] of [maybe_update_ini] after its loop. *)
Definition merged_packages (old : str) (st : state) : dict :=
  merge_section (packages st) (section_of (readlines old)).

(** A package name that sorts after the comment mark: it is not empty and
    its first character comes after [#], as a letter does. *)
Definition name_ok (k : str) : bool :=
  match k with
  | c :: _ => code "#" <? code c
  | [] => false
  end.

(** A key or a value as [read_ini_item] stores it: stripped, and without an
    equals sign or a line feed. *)
Definition clean (s : str) : bool :=
  negb (bool_decide ("="%char ∈ s)) && negb (bool_decide (LF ∈ s))
  && bool_decide (strip s = s).

(** A dictionary of packages as the program builds it: no key twice, keys
    that are names, clean keys and values. *)
Definition tidy (d : dict) : bool :=
  bool_decide (NoDup (keys d))
  && forallb (fun kv => name_ok kv.1 && clean kv.1 && clean kv.2) d.

(** A line as [readlines] gives it: a line feed can only be its last
    character. *)
Definition line_ok (l : str) : Prop :=
  exists body, (LF ∉ body) /\ (l = body ++ [LF] \/ l = body).

(** A dictionary whose lines the merge reads back as it wrote them. *)
Definition good (d : dict) : Prop :=
  NoDup (keys d)
  /\ forall k v, dict_get k d = Some v ->
       clean k = true /\ clean v = true
       /\ (startswith (txt "#") k = false -> name_ok k = true).

(** ** The command line and the creation of a project *)

Inductive Action : Type :=
| CLEAN | BUILD | USAGE | INI_USAGE | VERSION | NEW.

#[global] Instance Action_eq_dec : EqDecision Action.
Proof. solve_decision. Defined.

Inductive New : Type :=
| APP | GUI | LIB.

#[global] Instance New_eq_dec : EqDecision New.
Proof. solve_decision. Defined.

(** [New.__members__], in the order of the definition. *)
Definition New_members : list (str * New) :=
  [(txt "APP", APP); (txt "GUI", GUI); (txt "LIB", LIB)].

Definition New_names : list str := map fst New_members.

(** [New.from_name]: Python's [None] when no member has the name. *)
Definition New_from_name (name : str) : option New :=
  let name := upper name in
  option_map snd (List.find (fun kn => bool_decide (kn.1 = name)) New_members).

(** The model object as [main] uses it: the state of the previous sections
    with the fields that only the command line sets. *)
Record Model : Type := mk_Model {
  model : state;
  verbose : bool;
  run : bool;
  console : bool;
  args : list str
}.

Definition set_model (st : state) (m : Model) : Model :=
  mk_Model st (verbose m) (run m) (console m) (args m).
Definition set_verbose (b : bool) (m : Model) : Model :=
  mk_Model (model m) b (run m) (console m) (args m).
Definition set_run (b : bool) (m : Model) : Model :=
  mk_Model (model m) (verbose m) b (console m) (args m).
Definition set_console (b : bool) (m : Model) : Model :=
  mk_Model (model m) (verbose m) (run m) b (args m).
Definition set_args (l : list str) (m : Model) : Model :=
  mk_Model (model m) (verbose m) (run m) (console m) l.

Definition set_archive (b : bool) (st : state) : state :=
  mk_state (Packages st) (appname st) (packages st) (version st)
    (extra_files st) (winrcedit st) (winmsys2 st) (app_template st)
    (gui_template st) (lib_template st) b.

(** [Model()] as [main] calls it. *)
Definition Model_default (app gui lib : str) : Model :=
  mk_Model (Model_init app gui lib false) true true false [].

(** [arg in {...}] *)
Definition among (words : list str) (arg : str) : bool :=
  bool_decide (arg ∈ words).

Definition version_words : list str :=
  [txt "-v"; txt "--version"; txt "version"].
Definition clean_words : list str := [txt "-c"; txt "--clean"; txt "clean"].
Definition help_words : list str := [txt "-h"; txt "--help"; txt "help"].
Definition new_words : list str :=
  [txt "-n"; txt "--new"; txt "new"; txt "init"].
Definition quiet_words : list str := [txt "-q"; txt "--quiet"; txt "quiet"].
Definition build_words : list str := [txt "-b"; txt "--build"; txt "build"].
Definition console_words : list str :=
  [txt "-C"; txt "--console"; txt "console"].
Definition zip_words : list str := [txt "-z"; txt "--zip"; txt "zip"].

(** The loop of [read_args] over the arguments that are left; a [break]
    ends the recursion. *)
Fixpoint read_args_from (argv : list str) (action : Action) (m : Model)
    : Action * Model :=
  match argv with
  | [] => (action, m)
  | arg :: rest =>
      if among version_words arg then (VERSION, m)
      else if among clean_words arg then (CLEAN, m)
      else if among help_words arg then read_args_from rest USAGE m
      else if among new_words arg then read_args_from rest NEW m
      else if among quiet_words arg then
        read_args_from rest action (set_verbose false m)
      else if among build_words arg then
        read_args_from rest action (set_run false m)
      else if among console_words arg then
        read_args_from rest action (set_console true m)
      else if among zip_words arg then
        read_args_from rest action (set_model (set_archive true (model m)) m)
      else if decide (action = USAGE) then
        ((if decide (upper arg = txt "INI") then INI_USAGE else action), m)
      else read_args_from rest action (set_args (args m ++ [arg]) m)
  end.

(** [read_args]; [argv] is [sys.argv], the program's name first. *)
Definition read_args (argv : list str) (m : Model) : Action * Model :=
  read_args_from (drop 1 argv) BUILD m.

(** ['|'.join(kinds).lower()] *)
Definition kinds_text : str := casefold (join (txt "|") New_names).

(** [prepare_new]: the kind and the model with the name taken from the
    arguments.  The two [pop(0)] are the patterns on the list, which the
    test of the length has made one or two long. *)
Definition prepare_new (m : Model) : result (option New * Model) :=
  let kinds := New_names in
  match args m with
  | [name] =>
      if bool_decide (upper name ∈ kinds) then
        Raise (Error (txt "new's kind must be followed by a NAME"))
      else
        Ok (Some APP,
            set_model (set_appname (Some name) (model m)) (set_args [] m))
  | [kind; name] =>
      let kind := upper kind in
      if negb (bool_decide (kind ∈ kinds)) then
        Raise (Error (txt "new's kind must be one of [" ++ kinds_text
                        ++ txt "]"))
      else
        let kind := New_from_name kind in
        if bool_decide (upper name ∈ kinds) then
          Raise (Error (txt "new's kind must be followed by a NAME"))
        else
          Ok (kind,
              set_model (set_appname (Some name) (model m)) (set_args [] m))
  | _ =>
      Raise (Error (txt "new needs one or two arguments: [" ++ kinds_text
                      ++ txt "] <NAME>"))
  end.

(** [new] up to its first change of the disk: [path_exists] is
    [pathlib.Path.exists]. *)
Definition new_checks (path_exists : str -> bool) (m : Model)
    : result (option New * Model) :=
  km ← prepare_new m;
  let name := default [] (appname (model km.2)) in
  if path_exists name then
    Raise (Error (txt "a file/directory called " ++ name
                    ++ txt " already exists"))
  else if decide (km.1 = Some LIB) then
    Raise (Error (txt "creating libraries isn't supported yet"))
  else Ok km.

(** The line that [make_new_ini] writes for an entry of the registry. *)
Definition new_ini_line (kind : option New) (kv : str * str) : str :=
  let prefix :=
    if bool_decide (kind = Some GUI) && bool_decide (kv.1 = txt "Gtk")
    then [] else txt "# " in
  prefix ++ kv.1 ++ txt " = " ++ kv.2 ++ [LF].

(** The text that [make_new_ini] writes. *)
Definition make_new_ini (kind : option New) (st : state) : str :=
  txt "[General]" ++ [LF] ++ [LF] ++ txt "[ExtraFiles]" ++ [LF]
    ++ [LF] ++ txt "[Packages]" ++ [LF]
    ++ flat_map (new_ini_line kind) (Packages st).

(** ** Vocabulary of the further properties *)

(** The template text that the model holds for a template category. *)
Definition template_text (category : Category) (st : state) : str :=
  match category with
  | APP_TEMPLATE => app_template st
  | GUI_TEMPLATE => gui_template st
  | LIB_TEMPLATE => lib_template st
  | _ => []
  end.

(** The template category that a section name stands for. *)
Definition template_named (name : str) : option Category :=
  if decide (name = txt "apptemplate") then Some APP_TEMPLATE
  else if decide (name = txt "guitemplate") then Some GUI_TEMPLATE
  else if decide (name = txt "libtemplate") then Some LIB_TEMPLATE
  else None.

(** A stripped line that [read_ini] takes for an item: not empty, no
    comment, no bracket line. *)
Definition is_item (line : str) : bool :=
  negb (bool_decide (line = [])) && negb (startswith (txt "#") line)
  && negb (startswith (txt "[") line).

(** A stripped line that [read_ini] skips or takes for an item, that is,
    anything but a bracket line. *)
Definition no_bracket (line : str) : bool :=
  negb (startswith (txt "[") (strip line)).


(** The words that [read_args] takes for itself. *)
Definition option_words : list str :=
  version_words ++ clean_words ++ help_words ++ new_words ++ quiet_words
    ++ build_words ++ console_words ++ zip_words.

Definition reserved (arg : str) : bool := among option_words arg.

(** A package name that [read_ini] reads back as it stands: it is in
    the letter case that [read_ini_item] gives to keys, and it does not
    begin with a bracket. *)
Definition reads_back (k : str) : bool :=
  bool_decide (title (casefold k) = k) && negb (startswith (txt "[") k).

(** What scanning may do to a package name, from the model before to the
    model after: it leaves the name's entries as they are, or it moves the
    registry's entry to the project's packages. *)
Definition kept_or_moved (st st' : state) (k : str) : Prop :=
  (dict_get k (Packages st') = dict_get k (Packages st)
   /\ dict_get k (packages st') = dict_get k (packages st))
  \/ (dict_get k (Packages st) <> None
      /\ dict_get k (Packages st') = None
      /\ dict_get k (packages st') = dict_get k (Packages st)).

(** The words of [GIO_RX], and the places of a line at which the pattern
    finds one: the word begins there, and no word character stands before
    it. *)
Definition gio_words : list str :=
  [txt "File."; txt "ZlibCompressor"; txt "Converter"].

Definition gio_hint (line : str) : Prop :=
  exists pre w post,
    line = pre ++ w ++ post /\ w ∈ gio_words
    /\ is_word_opt (prev_after None pre) = false.
(** * Properties *)

#[local] Arguments split : simpl never.
#[local] Arguments strip : simpl never.
#[local] Arguments readlines : simpl never.

(** ** Dictionaries *)

Lemma dict_get_set (k k' v : str) (d : dict) :
  dict_get k' (dict_set k v d) = if decide (k' = k) then Some v else dict_get k' d.
Proof.
  induction d as [|[k0 v0] d IH]; simpl.
  - destruct (decide (k' = k)); reflexivity.
  - destruct (decide (k = k0)) as [->|Hne]; simpl.
    + destruct (decide (k' = k0)); reflexivity.
    + destruct (decide (k' = k0)) as [->|Hne'].
      * destruct (decide (k0 = k)); congruence.
      * exact IH.
Qed.

Lemma dict_get_del (k k' : str) (d : dict) :
  dict_get k' (dict_del k d) = if decide (k' = k) then None else dict_get k' d.
Proof.
  unfold dict_del.
  induction d as [|[k0 v0] d IH].
  - simpl. destruct (decide (k' = k)); reflexivity.
  - rewrite filter_cons. cbn [fst dict_get].
    destruct (decide (k0 <> k)) as [Hne|Heq]; cbn [dict_get].
    + destruct (decide (k' = k0)) as [->|Hne'].
      * destruct (decide (k0 = k)); congruence.
      * exact IH.
    + apply dec_stable in Heq. subst k0. rewrite IH.
      destruct (decide (k' = k)); reflexivity.
Qed.

Lemma dict_in_set (k k' v : str) (d : dict) :
  dict_in k' (dict_set k v d) = bool_decide (k' = k) || dict_in k' d.
Proof.
  unfold dict_in. rewrite dict_get_set.
  destruct (decide (k' = k)) as [->|Hne].
  - rewrite bool_decide_eq_true_2 by reflexivity. reflexivity.
  - rewrite bool_decide_eq_false_2 by assumption. reflexivity.
Qed.

Lemma dict_in_del (k k' : str) (d : dict) :
  dict_in k' (dict_del k d) = negb (bool_decide (k' = k)) && dict_in k' d.
Proof.
  unfold dict_in. rewrite dict_get_del.
  destruct (decide (k' = k)) as [->|Hne].
  - rewrite bool_decide_eq_true_2 by reflexivity. reflexivity.
  - rewrite bool_decide_eq_false_2 by assumption. reflexivity.
Qed.

Lemma dict_in_get (k : str) (d : dict) :
  dict_in k d = true <-> exists v, dict_get k d = Some v.
Proof.
  unfold dict_in. destruct (dict_get k d); split; eauto; try discriminate.
  intros [v Hv]. discriminate.
Qed.

(** ** Reading a settings file *)

Lemma read_ini_category_bracket (category : Category) (line : str) (st : state) :
  read_ini_category category line st =
    match bracket_name line with
    | Some name =>
        if decide (name = txt "packages") then (PACKAGES, st)
        else if decide (name = txt "extrafiles") then
          (EXTRA_FILES, set_extra_files [] st)
        else if decide (name = txt "apptemplate") then
          (APP_TEMPLATE, set_app_template [] st)
        else if decide (name = txt "guitemplate") then
          (GUI_TEMPLATE, set_gui_template [] st)
        else if decide (name = txt "libtemplate") then
          (LIB_TEMPLATE, set_lib_template [] st)
        else (GENERAL, st)
    | None => (category, st)
    end.
Proof.
  unfold read_ini_category, bracket_name.
  destruct (find_char "]" line); reflexivity.
Qed.




Lemma read_ini_lines_app (glob : str -> list str) (master : bool)
    (l1 l2 : list str) (cs : Category * state) :
  read_ini_lines glob master (l1 ++ l2) cs =
    (cs' ← read_ini_lines glob master l1 cs; read_ini_lines glob master l2 cs').
Proof.
  revert cs. induction l1 as [|l l1 IH]; intros cs; simpl.
  - reflexivity.
  - destruct (read_ini_line glob master cs l) as [cs'|e]; simpl.
    + apply IH.
    + reflexivity.
Qed.

Lemma read_ini_item_package (glob : str -> list str) (line key value : str)
    (st : state) :
  package_entry line = Some (key, value) ->
  read_ini_item glob PACKAGES line false st =
    if dict_in key (Packages st) then
      Ok (set_Packages (dict_del key (Packages st))
            (set_packages (dict_set key value (packages st)) st))
    else Raise (KeyError key).
Proof.
  unfold package_entry, read_ini_item. simpl.
  destruct (split "=" 2 line) as [|p0 [|p1 [|p2 ps]]]; try discriminate.
  intros H. injection H as <- <-. reflexivity.
Qed.

(** C10: when a project's settings file reaches, in its Packages section, an
    entry whose title-cased key the global registry does not hold at that
    moment, reading the file raises [KeyError] for that key; [main] does not
    catch it, and no state with the local value comes out of the read. *)
Theorem local_entry_outside_registry_raises (glob : str -> list str)
    (pre post : list str) (line key value : str) (st0 st : state) :
  read_ini_lines glob false pre (GENERAL, st0) = Ok (PACKAGES, st) ->
  strip line <> [] ->
  startswith (txt "#") (strip line) = false ->
  startswith (txt "[") (strip line) = false ->
  package_entry (strip line) = Some (key, value) ->
  dict_in key (Packages st) = false ->
  read_ini_lines glob false (pre ++ line :: post) (GENERAL, st0)
    = Raise (KeyError key)
  /\ handled_by_main (KeyError key) = false.
Proof.
  intros Hpre Hne Hhash Hbr Hentry Hout. split; [|reflexivity].
  rewrite read_ini_lines_app, Hpre.
  cbn [mbind result_bind read_ini_lines]. unfold read_ini_line.
  change (is_template PACKAGES) with false. rewrite andb_false_r.
  rewrite bool_decide_eq_false_2 by assumption.
  rewrite Hhash, Hbr. cbn [orb].
  rewrite (read_ini_item_package glob _ key value) by assumption.
  rewrite Hout. reflexivity.
Qed.

Lemma local_entry_outside_registry_raises_witness :
  read_ini_lines (fun _ => []) false
    ([txt "[Packages]" ++ [LF]] ++ (txt "Foo = foo-1.0" ++ [LF]) :: [])
    (GENERAL, Model_init [] [] [] false)
    = Raise (KeyError (txt "Foo"))
  /\ handled_by_main (KeyError (txt "Foo")) = false.
Proof.
  apply (local_entry_outside_registry_raises (fun _ => [])
           [txt "[Packages]" ++ [LF]] [] (txt "Foo = foo-1.0" ++ [LF])
           (txt "Foo") (txt "foo-1.0")
           (Model_init [] [] [] false) (Model_init [] [] [] false));
    vm_compute; (reflexivity || discriminate).
Defined.

(** ** The registry and the project's packages *)

Lemma set_general_item_registry (key value : str) (st : state) :
  Packages (set_general_item key value st) = Packages st
  /\ packages (set_general_item key value st) = packages st.
Proof.
  unfold set_general_item.
  repeat (destruct (decide _); [split; reflexivity|]). split; reflexivity.
Qed.

Lemma add_template_line_registry (category : Category) (line : str)
    (st : state) :
  Packages (add_template_line category line st) = Packages st
  /\ packages (add_template_line category line st) = packages st.
Proof. destruct category; split; reflexivity. Qed.

(** What one item of a project's settings file does to the two tables:
    either nothing, or the line is an entry of the Packages section whose
    key moves from the registry to the project's packages. *)
Lemma read_ini_item_local (glob : str -> list str) (category : Category)
    (line : str) (st st' : state) :
  read_ini_item glob category line false st = Ok st' ->
  (Packages st' = Packages st /\ packages st' = packages st
   /\ (category = PACKAGES -> package_entry line = None))
  \/ (exists key value,
        category = PACKAGES
        /\ package_entry line = Some (key, value)
        /\ dict_in key (Packages st) = true
        /\ Packages st' = dict_del key (Packages st)
        /\ packages st' = dict_set key value (packages st)).
Proof.
  destruct (decide (category = PACKAGES)) as [->|Hcat].
  - destruct (package_entry line) as [[key value]|] eqn:Hentry.
    + rewrite (read_ini_item_package glob line key value st Hentry).
      destruct (dict_in key (Packages st)) eqn:Hin; [|discriminate].
      intros [= <-]. right. exists key, value. repeat split; assumption.
    + unfold read_ini_item. cbn [is_template].
      destruct (decide (PACKAGES = EXTRA_FILES)); [discriminate|].
      unfold package_entry in Hentry.
      destruct (split "=" 2 line) as [|p0 [|p1 [|p2 ps]]];
        try discriminate; intros [= <-]; left; repeat split; reflexivity.
  - unfold read_ini_item. intros H. left.
    assert (Hreg : Packages st' = Packages st /\ packages st' = packages st).
    { destruct (is_template category).
      - injection H as <-. apply add_template_line_registry.
      - destruct (decide (category = EXTRA_FILES)).
        + injection H as <-. split; reflexivity.
        + destruct (split "=" 2 line) as [|p0 [|p1 [|p2 ps]]];
            try (injection H as <-; split; reflexivity).
          destruct (decide (category = PACKAGES)); [contradiction|].
          injection H as <-. apply set_general_item_registry. }
    destruct Hreg as [H1 H2]. repeat split; try assumption. contradiction.
Qed.

Lemma update_packages_moves (rx rx' : regex) (pkg : str) (st st' : state) :
  update_packages rx pkg st = Ok (rx', st') ->
  exists value,
    dict_get pkg (Packages st) = Some value
    /\ Packages st' = dict_del pkg (Packages st)
    /\ packages st' = dict_set pkg value (packages st).
Proof.
  unfold update_packages.
  destruct (dict_get pkg (Packages st)) as [value|]; [|discriminate].
  intros H. exists value.
  destruct (negb _) in H; injection H as _ <-; repeat split; reflexivity.
Qed.

(** One operation keeps the two tables apart and never puts a name back
    into the registry. *)
Lemma run_operation_exclusive (glob : str -> list str) (op : operation)
    (st st' : state) :
  exclusive st ->
  run_operation glob op st = Ok st' ->
  exclusive st'
  /\ (forall name, dict_in name (Packages st) = false ->
                   dict_in name (Packages st') = false).
Proof.
  intros Hex Hrun.
  assert (Hmove : (Packages st' = Packages st /\ packages st' = packages st)
                  \/ exists key value,
                       Packages st' = dict_del key (Packages st)
                       /\ packages st' = dict_set key value (packages st)).
  { destruct op as [category line|rx pkg]; simpl in Hrun.
    - destruct (read_ini_item_local glob category line st st' Hrun)
        as [(H1 & H2 & _)|(key & value & _ & _ & _ & H1 & H2)].
      + left. split; assumption.
      + right. exists key, value. split; assumption.
    - destruct (update_packages rx pkg st) as [[rx' st1]|e] eqn:Hup;
        [|discriminate].
      simpl in Hrun. injection Hrun as ->.
      destruct (update_packages_moves _ _ _ _ _ Hup) as (value & _ & H1 & H2).
      right. exists pkg, value. split; assumption. }
  destruct Hmove as [[H1 H2]|(key & value & H1 & H2)].
  - unfold exclusive. rewrite H1, H2. split; [exact Hex|tauto].
  - unfold exclusive. rewrite H1, H2. split.
    + intros name. rewrite dict_in_del, dict_in_set.
      destruct (bool_decide (name = key)); simpl; [discriminate|].
      apply Hex.
    + intros name Hout. rewrite dict_in_del, Hout. apply andb_false_r.
Qed.

Lemma run_operations_app (glob : str -> list str) (ops1 ops2 : list operation)
    (st : state) :
  run_operations glob (ops1 ++ ops2) st =
    (st' ← run_operations glob ops1 st; run_operations glob ops2 st').
Proof.
  revert st. induction ops1 as [|op ops1 IH]; intros st; simpl.
  - reflexivity.
  - destruct (run_operation glob op st) as [st1|e]; simpl; [apply IH|reflexivity].
Qed.

Lemma run_operations_exclusive (glob : str -> list str) (ops : list operation)
    (st st' : state) :
  exclusive st ->
  run_operations glob ops st = Ok st' ->
  exclusive st'
  /\ (forall name, dict_in name (Packages st) = false ->
                   dict_in name (Packages st') = false).
Proof.
  revert st. induction ops as [|op ops IH]; intros st Hex Hrun; simpl in Hrun.
  - injection Hrun as <-. split; [assumption|tauto].
  - destruct (run_operation glob op st) as [st1|e] eqn:Hop; [|discriminate].
    simpl in Hrun.
    destruct (run_operation_exclusive glob op st st1 Hex Hop) as [Hex1 Hmono1].
    destruct (IH st1 Hex1 Hrun) as [Hex' Hmono']. split; [assumption|].
    intros name Hout. apply Hmono', Hmono1, Hout.
Qed.

(** C4: reading items of a project's settings file and discovering packages
    in source lines, in any order and number, keep every name in at most
    one of the global registry and the project's packages; a name that is
    not in the registry is not put back; and after an entry of the Packages
    section has given a name its local value, the registry is without that
    name whatever operations follow. *)
Theorem local_override_exclusive (glob : str -> list str)
    (ops : list operation) (st st' : state) :
  exclusive st ->
  run_operations glob ops st = Ok st' ->
  exclusive st'
  /\ (forall name, dict_in name (Packages st) = false ->
                   dict_in name (Packages st') = false)
  /\ (forall ops1 ops2 line key value,
        ops = ops1 ++ ReadItem PACKAGES line :: ops2 ->
        package_entry line = Some (key, value) ->
        dict_in key (Packages st') = false).
Proof.
  intros Hex Hrun.
  destruct (run_operations_exclusive glob ops st st' Hex Hrun) as [Hex' Hmono].
  split; [assumption|]. split; [assumption|].
  intros ops1 ops2 line key value -> Hentry.
  rewrite run_operations_app in Hrun.
  destruct (run_operations glob ops1 st) as [st1|e] eqn:H1; [|discriminate].
  cbn [mbind result_bind run_operations] in Hrun.
  destruct (run_operation glob (ReadItem PACKAGES line) st1) as [st2|e] eqn:H2;
    [|discriminate].
  cbn [mbind result_bind] in Hrun.
  destruct (run_operations_exclusive glob ops1 st st1 Hex H1) as [Hex1 _].
  destruct (run_operation_exclusive glob _ st1 st2 Hex1 H2) as [Hex2 _].
  destruct (run_operations_exclusive glob ops2 st2 st' Hex2 Hrun) as [_ Hmono2].
  apply Hmono2.
  simpl in H2.
  destruct (read_ini_item_local glob PACKAGES line st1 st2 H2)
    as [(_ & _ & Hnone)|(key' & value' & _ & Hentry' & _ & HG & _)].
  - rewrite Hnone in Hentry by reflexivity. discriminate.
  - rewrite Hentry in Hentry'. injection Hentry' as <- <-.
    rewrite HG, dict_in_del, bool_decide_eq_true_2 by reflexivity. reflexivity.
Qed.

Lemma local_override_exclusive_witness :
  exists st',
    run_operations (fun _ => [])
      [ReadItem PACKAGES (txt "gtk = gtk4");
       Discover (Lit []) (txt "Gee")]
      (Model_init [] [] [] false) = Ok st'
    /\ exclusive st'
    /\ keys (Packages st') = [txt "Gio"]
    /\ keys (packages st') = [txt "Gtk"; txt "Gee"].
Proof.
  eexists. split; [vm_compute; reflexivity|]. split; [|split; reflexivity].
  refine (proj1 (local_override_exclusive (fun _ => [])
            [ReadItem PACKAGES (txt "gtk = gtk4"); Discover (Lit []) (txt "Gee")]
            (Model_init [] [] [] false) _ _ _)).
  - intros name _ H. vm_compute in H. discriminate.
  - vm_compute. reflexivity.
Defined.

(** ** Strings *)

Lemma take_by_lstrip_by (p : ascii -> bool) (s : str) :
  take_by p s ++ lstrip_by p s = s.
Proof.
  induction s as [|c s IH]; simpl; [reflexivity|].
  destruct (p c); simpl; [rewrite IH|]; reflexivity.
Qed.

Lemma take_by_all (p : ascii -> bool) (s : str) :
  forallb p (take_by p s) = true.
Proof.
  induction s as [|c s IH]; simpl; [reflexivity|].
  destruct (p c) eqn:Hc; simpl; [rewrite Hc; exact IH|reflexivity].
Qed.

Lemma lstrip_by_head (p : ascii -> bool) (s : str) :
  match lstrip_by p s with [] => True | c :: _ => p c = false end.
Proof.
  induction s as [|c s IH]; simpl; [exact I|].
  destruct (p c) eqn:Hc; [exact IH|exact Hc].
Qed.

(** A run of the class followed by text that does not go on with it. *)
Lemma span_app (p : ascii -> bool) (run rest : str) :
  forallb p run = true ->
  match rest with [] => True | c :: _ => p c = false end ->
  take_by p (run ++ rest) = run /\ lstrip_by p (run ++ rest) = rest.
Proof.
  intros Hrun Hrest. induction run as [|c run IH]; simpl in *.
  - destruct rest as [|c rest]; simpl; [split; reflexivity|].
    rewrite Hrest. split; reflexivity.
  - apply andb_true_iff in Hrun as [Hc Hrun]. rewrite Hc.
    destruct (IH Hrun) as [-> ->]. split; reflexivity.
Qed.

Lemma startswith_app (p s : str) : startswith p (p ++ s) = true.
Proof.
  induction p as [|c p IH]; simpl; [reflexivity|].
  destruct (decide (c = c)); [exact IH|congruence].
Qed.

Lemma startswith_prefix (p s : str) :
  startswith p s = true -> s = p ++ drop (length p) s.
Proof.
  revert s. induction p as [|c p IH]; intros [|x s]; simpl; try discriminate;
    try reflexivity.
  destruct (decide (c = x)) as [->|]; [|discriminate].
  intros H. f_equal. apply IH, H.
Qed.

(** ** The matcher *)

Lemma prev_after_cons (prev : option ascii) (c : ascii) (read : str) :
  prev_after prev (c :: read) = prev_after (Some c) read.
Proof.
  unfold prev_after. destruct read as [|x read]; [reflexivity|].
  change (last (c :: x :: read)) with (last (x :: read)).
  destruct (last (x :: read)) eqn:Hl; [reflexivity|].
  apply last_None in Hl. discriminate.
Qed.

(** When what follows a repetition cannot start with a character of the
    class, the repetition takes the whole run. *)
Lemma star_matches_only {A} (p : ascii -> bool) (prev : option ascii)
    (s : str) (cap : option str) (k : cont A) :
  (forall pv c s' cp, p c = true -> k pv (c :: s') cp = None) ->
  star_matches p prev s cap k =
    k (prev_after prev (take_by p s)) (lstrip_by p s) cap.
Proof.
  intros Hk. revert prev. induction s as [|c s IH]; intros prev; simpl.
  - reflexivity.
  - destruct (p c) eqn:Hc; [|reflexivity].
    rewrite IH, prev_after_cons, (Hk prev c s cap Hc).
    destruct (k _ _ _); reflexivity.
Qed.


Lemma take_length_diff (run rest : str) :
  take (length (run ++ rest) - length rest) (run ++ rest) = run.
Proof.
  rewrite length_app, Nat.add_sub. apply take_app_length.
Qed.

Lemma group_of_run (p : ascii -> bool) (c : ascii) (s : str) :
  take (length (c :: s) - length (lstrip_by p s)) (c :: s) = c :: take_by p s.
Proof.
  rewrite <- (take_by_lstrip_by p s) at 1 3.
  apply (take_length_diff (c :: take_by p s) (lstrip_by p s)).
Qed.

(** ** The dependency lister's lines *)









(** ** The archive *)

Section ZipProperties.

Variable path : Type.
Variable div : path -> str -> path.
Variable path_name : path -> str.
Variable with_name : path -> str -> path.
Variable with_suffix : path -> str -> path.
Variable relative_to : path -> path -> str.
Variable samefile : path -> path -> bool.
Variable glob_all : path -> path -> list path.

Let zip := win_zip path div path_name with_name with_suffix relative_to
             samefile glob_all.

(** C7: when the archive file lies in the directory that is archived (it
    is among the files that the glob finds) the archive gets an entry for
    every file found there that is not the archive file, and none whose
    source is the archive file. *)
Theorem archive_excludes_itself (root appname : path) (st : state) :
  (forall p, samefile p p = true) ->
  (zip root appname st).1
    ∈ glob_all (zip root appname st).1 (div root (txt "dist")) ->
  (forall f, f ∈ glob_all (zip root appname st).1 (div root (txt "dist")) ->
             samefile (zip root appname st).1 f = false ->
             exists arc, (f, arc) ∈ (zip root appname st).2)
  /\ (forall f arc, (f, arc) ∈ (zip root appname st).2 ->
                    f ∈ glob_all (zip root appname st).1
                          (div root (txt "dist"))
                    /\ samefile (zip root appname st).1 f = false)
  /\ (forall arc,
        ((zip root appname st).1, arc) ∉ (zip root appname st).2).
Proof.
  intros Hrefl Hinside.
  assert (Hentries :
    forall f arc, (f, arc) ∈ (zip root appname st).2 ->
      f ∈ glob_all (zip root appname st).1 (div root (txt "dist"))
      /\ samefile (zip root appname st).1 f = false).
  { subst zip. unfold win_zip.
    destruct (version st) as [[|c v]|]; cbn [fst snd]; intros f arc Hin;
      apply list_elem_of_In, in_flat_map in Hin as (g & Hg & Hin);
      apply list_elem_of_In in Hg;
      (destruct (samefile _ g) eqn:Hsame; simpl in Hin;
       [contradiction|destruct Hin as [[= <- _]|[]]; split; assumption]). }
  split; [|split].
  - subst zip. unfold win_zip.
    destruct (version st) as [[|c v]|]; cbn [fst snd]; intros f Hf Hsame;
      eexists; apply list_elem_of_In, in_flat_map; exists f;
      (split; [apply list_elem_of_In, Hf|rewrite Hsame; left; reflexivity]).
  - exact Hentries.
  - intros arc Hin. apply Hentries in Hin as [_ Hsame].
    rewrite Hrefl in Hsame. discriminate.
Qed.

End ZipProperties.

Lemma archive_excludes_itself_witness :
  let div := fun (p : str) (s : str) => p ++ txt "/" ++ s in
  let with_suffix := fun (p : str) (suffix : str) =>
    match suffix with [] => take (length p - 4) p | _ => p ++ suffix end in
  let zip := win_zip str div (fun p => drop 7 p) (fun p n => take 7 p ++ n)
               with_suffix (fun f d => drop (S (length d)) f)
               (fun a b => bool_decide (a = b))
               (fun target d => [txt "./dist/app.exe"; target; txt "./dist/x.dll"])
               (txt ".") (txt "./dist/app.exe")
               (set_version (Some (txt "1.2")) (Model_init [] [] [] true)) in
  zip.1 = txt "./dist/app-1.2.zip"
  /\ zip.2 = [(txt "./dist/app.exe", txt "app-1.2/app.exe");
              (txt "./dist/x.dll", txt "app-1.2/x.dll")]
  /\ forall arc, (zip.1, arc) ∉ zip.2.
Proof.
  split; [reflexivity|]. split; [reflexivity|].
  refine (proj2 (proj2 (archive_excludes_itself str _ _ _ _ _ _ _ _ _ _ _ _))).
  - intros p. apply bool_decide_eq_true_2. reflexivity.
  - vm_compute. apply list_elem_of_In. simpl. tauto.
Defined.

(** ** The scanner's early exit *)

Section ScanProperties.

Variable WIN : bool.

Lemma scan_lines_done (lines : list str) (sc : scanner) :
  more_to_do WIN (st_of sc) = false -> scan_lines WIN lines sc = Ok sc.
Proof. intros H. destruct lines; simpl; [|rewrite H]; reflexivity. Qed.

Lemma scan_lines_app (l1 l2 : list str) (sc : scanner) :
  scan_lines WIN (l1 ++ l2) sc =
    (sc' ← scan_lines WIN l1 sc; scan_lines WIN l2 sc').
Proof.
  revert sc. induction l1 as [|line l1 IH]; intros sc; simpl; [reflexivity|].
  destruct (more_to_do WIN (st_of sc)) eqn:Hmore; simpl.
  - destruct (scan_line line sc) as [sc'|e]; simpl; [apply IH|reflexivity].
  - symmetry. apply scan_lines_done, Hmore.
Qed.

Lemma scan_files_stop (pre post : list (str * str)) (sc sc1 : scanner) :
  more_to_do WIN (st_of sc) = true ->
  scan_files WIN pre sc = Ok sc1 ->
  more_to_do WIN (st_of sc1) = false ->
  scan_files WIN (pre ++ post) sc = Ok sc1.
Proof.
  revert sc. induction pre as [|[path text] pre IH]; intros sc Hmore Hscan Hstop.
  - simpl in Hscan. injection Hscan as <-. congruence.
  - simpl in *.
    destruct (scan_lines WIN (readlines text) (log (Opened path) sc))
      as [sc'|e]; [|discriminate].
    simpl in *. destruct (more_to_do WIN (st_of sc')) eqn:Hmore'; simpl in *.
    + apply IH; assumption.
    + exact Hscan.
Qed.

(** C5: once the stopping condition holds (no package is pending, and no
    version is wanted or one has been found) the scan is over.  If it holds
    after the files [pre], the scan of [pre ++ post] ends in the same model
    with the same events as the scan of [pre]: no file of [post] is opened
    and no line of it is examined.  Inside a file, if it holds after the
    lines [l1], the lines [l2] that follow are not examined. *)
Theorem scan_early_exit :
  (forall (pre post : list (str * str)) (st st1 : state) (evs : list event),
     scan WIN pre st = Ok (st1, evs) ->
     more_to_do WIN st1 = false ->
     scan WIN (pre ++ post) st = Ok (st1, evs))
  /\ (forall (l1 l2 : list str) (sc sc1 : scanner),
        scan_lines WIN l1 sc = Ok sc1 ->
        more_to_do WIN (st_of sc1) = false ->
        scan_lines WIN (l1 ++ l2) sc = Ok sc1).
Proof.
  split.
  - intros pre post st st1 evs Hscan Hstop. unfold scan in *.
    destruct (more_to_do WIN st) eqn:Hmore; [|exact Hscan].
    destruct (scan_files WIN pre _) as [sc1|e] eqn:Hpre; [|discriminate].
    simpl in Hscan. injection Hscan as <- <-.
    rewrite (scan_files_stop pre post (mk_scanner _ st []) sc1 Hmore Hpre Hstop).
    reflexivity.
  - intros l1 l2 sc sc1 Hscan Hstop.
    rewrite scan_lines_app, Hscan. simpl. apply scan_lines_done, Hstop.
Qed.

End ScanProperties.

Lemma scan_early_exit_witness :
  let st := set_Packages [(txt "Gtk", txt "gtk+-3.0")] (Model_init [] [] [] false) in
  let main := (txt "main.vala", txt "Gtk.init(ref args);" ++ [LF]) in
  let more := (txt "more.vala", txt "Gtk.main();" ++ [LF]) in
  scan false [main] st = scan false ([main] ++ [more]) st
  /\ (st' ← scan false ([main] ++ [more]) st; Ok st'.2)
     = Ok [Opened (txt "main.vala"); Examined (txt "Gtk.init(ref args);" ++ [LF])].
Proof.
  split; [|vm_compute; reflexivity].
  symmetry. etransitivity.
  - refine (proj1 (scan_early_exit false) _ _ _ _ _ _ _);
      [vm_compute; reflexivity|reflexivity].
  - vm_compute. reflexivity.
Defined.

(** ** The version pattern *)

Lemma isspace_not_letter (c : ascii) (l : str) (s : str) :
  isspace c = true -> (match l with x :: _ => isspace x = false | [] => False end) ->
  startswith l (c :: s) = false.
Proof.
  intros Hc Hl. destruct l as [|x l]; [contradiction|]. simpl.
  destruct (decide (x = c)) as [->|]; [congruence|reflexivity].
Qed.

Lemma one_of_Vv_not_space (c : ascii) :
  isspace c = true -> one_of (txt "Vv") c = false.
Proof.
  intros Hc. unfold one_of. apply bool_decide_eq_false_2. intros Hin.
  apply list_elem_of_In in Hin. simpl in Hin.
  destruct Hin as [<-|[<-|[]]]; vm_compute in Hc; discriminate.
Qed.

Lemma version_ident_exclusive (c : ascii) (s : str) :
  one_of (txt "Vv") c = true -> startswith (txt "ersion") s = true ->
  startswith (txt "VERSION") (c :: s) = false.
Proof.
  intros _ H. apply startswith_prefix in H. rewrite H. simpl.
  destruct (decide (_ = c)); reflexivity.
Qed.

Lemma none_of_quote (c : ascii) :
  none_of [DQUOTE] c = negb (bool_decide (c = DQUOTE)).
Proof.
  unfold none_of, one_of. f_equal. apply bool_decide_ext.
  rewrite list_elem_of_singleton. reflexivity.
Qed.

Lemma matches_version_value (pv : option ascii) (s : str) :
  matches
    (Cat (Star isspace) (Cat (Lit (txt "="))
    (Cat (Star isspace) (Cat (Lit [DQUOTE])
    (Cat (Grp (Plus (none_of [DQUOTE])))
    (Cat (Lit [DQUOTE]) (Cat (Star isspace) (Lit (txt ";")))))))))
    pv s None (fun _ _ cap => Some cap)
  = option_map Some (version_value_parse s).
Proof.
  unfold version_value_parse, Plus. cbn [matches].
  change (length (txt "=")) with 1. change (length [DQUOTE]) with 1.
  rewrite star_matches_only
    by (intros p c s' cp Hc;
        rewrite (isspace_not_letter c (txt "=") s' Hc); reflexivity).
  destruct (startswith (txt "=") (lstrip_by isspace s)); [|reflexivity].
  cbv zeta.
  rewrite star_matches_only
    by (intros p c s' cp Hc;
        rewrite (isspace_not_letter c [DQUOTE] s' Hc); reflexivity).
  destruct (lstrip_by isspace (drop 1 (lstrip_by isspace s))) as [|q s4];
    [reflexivity|].
  cbn [startswith].
  destruct (decide (DQUOTE = q)) as [<-|Hq].
  - rewrite bool_decide_eq_true_2 by reflexivity. cbn [andb skipn]. rewrite ?drop_0.
    destruct s4 as [|c s4]; [reflexivity|].
    destruct (none_of [DQUOTE] c); [|reflexivity].
    rewrite star_matches_only.
    + pose proof (lstrip_by_head (none_of [DQUOTE]) s4) as Hq'.
      destruct (lstrip_by (none_of [DQUOTE]) s4) as [|q' s5] eqn:Hs5;
        [reflexivity|].
      rewrite none_of_quote in Hq'. apply negb_false_iff in Hq'.
      apply bool_decide_eq_true_1 in Hq'. subst q'. cbn [startswith].
      destruct (decide (DQUOTE = DQUOTE)); [|congruence]. cbn [skipn]. rewrite ?drop_0.
      rewrite star_matches_only
        by (intros p x s' cp Hx;
            rewrite (isspace_not_letter x (txt ";") s' Hx); reflexivity).
      destruct (startswith (txt ";") (lstrip_by isspace s5)); [|reflexivity].
      cbn [option_map]. rewrite <- Hs5, group_of_run. reflexivity.
    + intros p x s' cp Hx. cbn [startswith].
      rewrite none_of_quote in Hx. apply negb_true_iff in Hx.
      apply bool_decide_eq_false_1 in Hx.
      destruct (decide (DQUOTE = x)); [congruence|reflexivity].
  - rewrite bool_decide_eq_false_2 by congruence. destruct s4; reflexivity.
Qed.

Lemma match_here_VERSION_RX (prev : option ascii) (s : str) :
  match_here VERSION_RX prev s = option_map Some (version_parse s).
Proof.
  unfold match_here, VERSION_RX, version_parse, Plus.
  match goal with |- context [Cat (Alt ?a ?b) ?t] => remember t as value_rx end.
  cbn [matches].
  change (length (txt "const")) with 5. change (length (txt "string")) with 6.
  change (length (txt "ersion")) with 6. change (length (txt "VERSION")) with 7.
  destruct (startswith (txt "const") s); [|reflexivity].
  destruct (drop 5 s) as [|c1 s1]; [reflexivity|].
  destruct (isspace c1); [|reflexivity]. cbn [andb].
  rewrite star_matches_only
    by (intros pv c s' cp Hc;
        rewrite (isspace_not_letter c (txt "string") s' Hc); reflexivity).
  destruct (startswith (txt "string") (lstrip_by isspace s1)); [|reflexivity].
  destruct (drop 6 (lstrip_by isspace s1)) as [|c2 s2]; [reflexivity|].
  destruct (isspace c2); [|reflexivity]. cbn [andb].
  rewrite star_matches_only
    by (intros pv c s' cp Hc; rewrite (one_of_Vv_not_space c Hc);
        rewrite (isspace_not_letter c (txt "VERSION") s' Hc); reflexivity).
  subst value_rx. unfold is_version_ident.
  destruct (lstrip_by isspace s2) as [|c s3].
  - reflexivity.
  - destruct (one_of (txt "Vv") c) eqn:Hc; cbn [andb orb].
    + destruct (startswith (txt "ersion") s3) eqn:Hs3; cbn [orb].
      * rewrite (version_ident_exclusive c s3 Hc Hs3).
        change (drop 7 (c :: s3)) with (drop 6 s3).
        rewrite (matches_version_value _ (drop 6 s3)).
        destruct (version_value_parse (drop 6 s3)); reflexivity.
      * destruct (startswith (txt "VERSION") (c :: s3)); [|reflexivity].
        apply matches_version_value.
    + destruct (startswith (txt "VERSION") (c :: s3)); [|reflexivity].
      apply matches_version_value.
Qed.

Lemma blanks_cons (w : str) :
  w <> [] -> blanks w ->
  exists c w', w = c :: w' /\ isspace c = true /\ forallb isspace w' = true.
Proof.
  unfold blanks. destruct w as [|c w']; [contradiction|]. simpl.
  intros _ H. apply andb_true_iff in H as [Hc Hw]. eauto.
Qed.

Lemma lstrip_blanks (w s : str) :
  blanks w -> match s with [] => True | c :: _ => isspace c = false end ->
  lstrip_by isspace (w ++ s) = s.
Proof. intros Hw Hs. apply (span_app isspace w s Hw Hs). Qed.

Lemma version_value_parse_decl (w3 w4 v w5 rest : str) :
  blanks w3 -> blanks w4 -> blanks w5 ->
  v <> [] -> forallb (none_of [DQUOTE]) v = true ->
  version_value_parse
    (w3 ++ txt "=" ++ w4 ++ [DQUOTE] ++ v ++ [DQUOTE] ++ w5 ++ txt ";" ++ rest)
  = Some v.
Proof.
  intros H3 H4 H5 Hv Hq. unfold version_value_parse. cbv zeta.
  rewrite (lstrip_blanks w3) by (assumption || reflexivity).
  rewrite (startswith_app (txt "=")).
  change (drop 1 (txt "=" ++ ?x)) with x.
  rewrite (lstrip_blanks w4) by (assumption || reflexivity).
  destruct v as [|c v]; [contradiction|]. simpl in Hq.
  apply andb_true_iff in Hq as [Hc Hq].
  cbn [app]. rewrite bool_decide_eq_true_2 by reflexivity. rewrite Hc.
  cbn [andb].
  destruct (span_app (none_of [DQUOTE]) v (DQUOTE :: w5 ++ txt ";" ++ rest) Hq)
    as [-> ->]; [reflexivity|].
  rewrite (lstrip_blanks w5) by (assumption || reflexivity).
  rewrite (startswith_app (txt ";")). reflexivity.
Qed.

Lemma version_ident_spelling (ident : str) (s : str) :
  ident ∈ version_idents ->
  is_version_ident (ident ++ s) = true
  /\ drop 7 (ident ++ s) = s
  /\ match ident ++ s with [] => True | c :: _ => isspace c = false end.
Proof.
  intros Hin. apply list_elem_of_In in Hin. simpl in Hin.
  destruct Hin as [<-|[<-|[<-|[]]]]; repeat split; reflexivity.
Qed.

(** The pattern finds its three spellings of the declaration. *)
Lemma version_parse_decl (w1 w2 ident w3 w4 v w5 rest : str) :
  w1 <> [] -> blanks w1 -> w2 <> [] -> blanks w2 ->
  blanks w3 -> blanks w4 -> blanks w5 ->
  ident ∈ version_idents ->
  v <> [] -> forallb (none_of [DQUOTE]) v = true ->
  version_parse (version_decl w1 w2 ident w3 w4 v w5 ++ rest) = Some v.
Proof.
  intros Hw1 Hb1 Hw2 Hb2 Hb3 Hb4 Hb5 Hid Hv Hq.
  destruct (blanks_cons w1 Hw1 Hb1) as (c1 & w1' & -> & Hc1 & Hw1').
  destruct (blanks_cons w2 Hw2 Hb2) as (c2 & w2' & -> & Hc2 & Hw2').
  unfold version_parse, version_decl. rewrite <- !app_assoc.
  rewrite (startswith_app (txt "const")).
  change (drop 5 (txt "const" ++ ?x)) with x. cbn [app]. rewrite Hc1.
  rewrite (lstrip_blanks w1') by (assumption || reflexivity).
  rewrite (startswith_app (txt "string")). cbn [andb].
  change (drop 6 (txt "string" ++ ?x)) with x. cbn [app]. rewrite Hc2.
  destruct (version_ident_spelling ident
              (w3 ++ txt "=" ++ w4 ++ [DQUOTE] ++ v ++ [DQUOTE] ++ w5
                 ++ txt ";" ++ rest) Hid) as (Hident & Hdrop & Hhead).
  cbn [app] in Hident, Hdrop, Hhead.
  rewrite (lstrip_blanks w2') by assumption.
  rewrite Hident, Hdrop. cbn [andb].
  apply (version_value_parse_decl w3 w4 v w5 rest); assumption.
Qed.

Lemma version_ident_found (s : str) :
  is_version_ident s = true ->
  exists ident, ident ∈ version_idents /\ s = ident ++ drop 7 s.
Proof.
  unfold is_version_ident. intros H. apply orb_true_iff in H as [H|H].
  - destruct s as [|c s]; [discriminate|].
    apply andb_true_iff in H as [Hc Hs].
    apply startswith_prefix in Hs. change (length (txt "ersion")) with 6 in Hs.
    unfold one_of in Hc. apply bool_decide_eq_true_1, list_elem_of_In in Hc.
    simpl in Hc. destruct Hc as [<-|[<-|[]]].
    + exists (txt "Version"). split.
      * apply list_elem_of_In. simpl. tauto.
      * change (drop 7 (_ :: s)) with (drop 6 s). rewrite Hs at 1. reflexivity.
    + exists (txt "version"). split.
      * apply list_elem_of_In. simpl. tauto.
      * change (drop 7 (_ :: s)) with (drop 6 s). rewrite Hs at 1. reflexivity.
  - exists (txt "VERSION"). split.
    + apply list_elem_of_In. simpl. tauto.
    + apply (startswith_prefix _ _ H).
Qed.

Lemma version_value_parse_found (s v : str) :
  version_value_parse s = Some v ->
  exists w3 w4 w5 rest,
    s = w3 ++ txt "=" ++ w4 ++ [DQUOTE] ++ v ++ [DQUOTE] ++ w5 ++ txt ";" ++ rest
    /\ blanks w3 /\ blanks w4 /\ blanks w5
    /\ v <> [] /\ forallb (none_of [DQUOTE]) v = true.
Proof.
  unfold version_value_parse. cbv zeta.
  pose proof (take_by_lstrip_by isspace s) as Hs.
  destruct (startswith (txt "=") (lstrip_by isspace s)) eqn:Heq; [|discriminate].
  apply startswith_prefix in Heq. change (length (txt "=")) with 1 in Heq.
  pose proof (take_by_lstrip_by isspace (drop 1 (lstrip_by isspace s))) as Hs4.
  destruct (lstrip_by isspace (drop 1 (lstrip_by isspace s)))
    as [|q [|c s4]]; try discriminate.
  destruct (decide (q = DQUOTE)) as [->|Hq];
    [rewrite bool_decide_eq_true_2 by reflexivity
    |rewrite bool_decide_eq_false_2 by assumption; discriminate].
  destruct (none_of [DQUOTE] c) eqn:Hc; [|discriminate]. cbn [andb].
  pose proof (take_by_lstrip_by (none_of [DQUOTE]) s4) as Hv.
  pose proof (lstrip_by_head (none_of [DQUOTE]) s4) as Hq'.
  destruct (lstrip_by (none_of [DQUOTE]) s4) as [|q' s5]; [discriminate|].
  rewrite none_of_quote in Hq'. apply negb_false_iff, bool_decide_eq_true_1 in Hq'.
  subst q'.
  pose proof (take_by_lstrip_by isspace s5) as Hs5.
  destruct (startswith (txt ";") (lstrip_by isspace s5)) eqn:Hsemi; [|discriminate].
  apply startswith_prefix in Hsemi. change (length (txt ";")) with 1 in Hsemi.
  intros [= <-].
  exists (take_by isspace s), (take_by isspace (drop 1 (lstrip_by isspace s))),
    (take_by isspace s5), (drop 1 (lstrip_by isspace s5)).
  split; [|repeat split; try apply take_by_all; try discriminate].
  - rewrite <- Hs at 1. f_equal. rewrite Heq at 1. f_equal.
    rewrite <- Hs4 at 1. f_equal. cbn [app]. do 2 f_equal.
    rewrite <- Hv at 1. f_equal. f_equal.
    rewrite <- Hs5 at 1. f_equal. exact Hsemi.
  - simpl. rewrite Hc. apply take_by_all.
Qed.

(** The pattern finds nothing but its three spellings of the declaration. *)
Lemma version_parse_found (s v : str) :
  version_parse s = Some v ->
  exists w1 w2 ident w3 w4 w5 rest,
    s = version_decl w1 w2 ident w3 w4 v w5 ++ rest
    /\ w1 <> [] /\ blanks w1 /\ w2 <> [] /\ blanks w2
    /\ blanks w3 /\ blanks w4 /\ blanks w5
    /\ ident ∈ version_idents
    /\ v <> [] /\ forallb (none_of [DQUOTE]) v = true.
Proof.
  unfold version_parse.
  destruct (startswith (txt "const") s) eqn:Hconst; [|discriminate].
  apply startswith_prefix in Hconst. change (length (txt "const")) with 5 in Hconst.
  destruct (drop 5 s) as [|c1 s1]; [discriminate|].
  destruct (isspace c1) eqn:Hc1; [|discriminate]. cbn [andb].
  pose proof (take_by_lstrip_by isspace s1) as Hs1.
  destruct (startswith (txt "string") (lstrip_by isspace s1)) eqn:Hstring;
    [|discriminate].
  apply startswith_prefix in Hstring.
  change (length (txt "string")) with 6 in Hstring.
  destruct (drop 6 (lstrip_by isspace s1)) as [|c2 s2]; [discriminate|].
  destruct (isspace c2) eqn:Hc2; [|discriminate]. cbn [andb].
  pose proof (take_by_lstrip_by isspace s2) as Hs2.
  destruct (is_version_ident (lstrip_by isspace s2)) eqn:Hident; [|discriminate].
  destruct (version_ident_found _ Hident) as (ident & Hin & Hsplit).
  intros Hvalue.
  destruct (version_value_parse_found _ v Hvalue)
    as (w3 & w4 & w5 & rest & Hrest & H3 & H4 & H5 & Hv & Hq).
  exists (c1 :: take_by isspace s1), (c2 :: take_by isspace s2), ident,
    w3, w4, w5, rest.
  split; [|repeat split; try assumption; try discriminate;
           unfold blanks; simpl; rewrite ?Hc1, ?Hc2; apply take_by_all].
  unfold version_decl. rewrite <- !app_assoc.
  rewrite Hconst at 1. f_equal. cbn [app]. f_equal.
  rewrite <- Hs1 at 1. f_equal. rewrite Hstring at 1. f_equal. f_equal.
  rewrite <- Hs2 at 1. f_equal. rewrite Hsplit at 1. f_equal.
  exact Hrest.
Qed.

(** ** Searching *)

Lemma search_from_here (r : regex) (prev : option ascii) (s : str) (m : Match) :
  match_here r prev s = Some m -> search_from r prev s = Some m.
Proof. intros H. destruct s; simpl; rewrite H; reflexivity. Qed.

Lemma search_from_next (r : regex) (prev : option ascii) (c : ascii) (s : str) :
  match_here r prev (c :: s) = None ->
  search_from r prev (c :: s) = search_from r (Some c) s.
Proof. intros H. simpl. rewrite H. reflexivity. Qed.

(** A search that succeeds matched at some place of the text and at no
    place to the left of it. *)
Lemma search_from_found (r : regex) (prev : option ascii) (s : str) (m : Match) :
  search_from r prev s = Some m ->
  exists pre post,
    s = pre ++ post
    /\ match_here r (prev_after prev pre) post = Some m
    /\ forall pre1 post1, s = pre1 ++ post1 -> length pre1 < length pre ->
         match_here r (prev_after prev pre1) post1 = None.
Proof.
  revert prev. induction s as [|c s IH]; intros prev; simpl.
  - destruct (match_here r prev []) eqn:Hm; [|discriminate].
    intros [= <-]. exists [], []. repeat split; [exact Hm|].
    intros pre1 post1 _ Hlt. simpl in Hlt. lia.
  - destruct (match_here r prev (c :: s)) eqn:Hm.
    + intros [= <-]. exists [], (c :: s). repeat split; [exact Hm|].
      intros pre1 post1 _ Hlt. simpl in Hlt. lia.
    + intros H. destruct (IH _ H) as (pre & post & -> & Hpost & Hleft).
      exists (c :: pre), post. rewrite prev_after_cons. repeat split; [exact Hpost|].
      intros [|x pre1] post1 Heq Hlt.
      * simpl in Heq. subst post1. exact Hm.
      * simpl in Heq. injection Heq as <- Heq. rewrite prev_after_cons.
        apply Hleft; [exact Heq|simpl in Hlt; lia].
Qed.

(** A search fails when no place of the text matches. *)
Lemma search_from_none (r : regex) (prev : option ascii) (s : str) :
  (forall pre post, s = pre ++ post ->
     match_here r (prev_after prev pre) post = None) ->
  search_from r prev s = None.
Proof.
  revert prev. induction s as [|c s IH]; intros prev Hall; simpl.
  - pose proof (Hall [] [] eq_refl) as H0.
    change (match_here r prev [] = None) in H0. rewrite H0. reflexivity.
  - pose proof (Hall [] (c :: s) eq_refl) as H0.
    change (match_here r prev (c :: s) = None) in H0. rewrite H0. apply IH.
    intros pre post ->. rewrite <- (prev_after_cons prev).
    apply (Hall (c :: pre) post). reflexivity.
Qed.

Lemma search_from_skip (r : regex) (prev : option ascii) (indent s : str) :
  (forall pv c t, isspace c = true -> match_here r pv (c :: t) = None) ->
  forallb isspace indent = true ->
  search_from r prev (indent ++ s) = search_from r (prev_after prev indent) s.
Proof.
  intros Hr. revert prev. induction indent as [|c indent IH]; intros prev Hb.
  - reflexivity.
  - simpl in Hb. apply andb_true_iff in Hb as [Hc Hb].
    cbn [app]. rewrite search_from_next by (apply Hr, Hc).
    rewrite prev_after_cons. apply IH, Hb.
Qed.

Lemma re_search_version_decl (indent w1 w2 ident w3 w4 v w5 rest : str) :
  blanks indent ->
  w1 <> [] -> blanks w1 -> w2 <> [] -> blanks w2 ->
  blanks w3 -> blanks w4 -> blanks w5 ->
  ident ∈ version_idents ->
  v <> [] -> forallb (none_of [DQUOTE]) v = true ->
  re_search VERSION_RX (indent ++ version_decl w1 w2 ident w3 w4 v w5 ++ rest)
  = Some (Some v).
Proof.
  intros Hindent Hw1 Hb1 Hw2 Hb2 Hb3 Hb4 Hb5 Hid Hv Hq.
  unfold re_search. rewrite search_from_skip; [|clear|exact Hindent].
  - apply search_from_here. rewrite match_here_VERSION_RX.
    rewrite version_parse_decl by assumption. reflexivity.
  - intros pv c t Hc. rewrite match_here_VERSION_RX. unfold version_parse.
    rewrite (isspace_not_letter c (txt "const") t Hc); reflexivity.
Qed.

Lemma re_search_version_found (line : str) (m : Match) :
  re_search VERSION_RX line = Some m ->
  exists pre w1 w2 ident w3 w4 v w5 rest,
    line = pre ++ version_decl w1 w2 ident w3 w4 v w5 ++ rest
    /\ m = Some v
    /\ ident ∈ version_idents
    /\ w1 <> [] /\ blanks w1 /\ w2 <> [] /\ blanks w2
    /\ blanks w3 /\ blanks w4 /\ blanks w5
    /\ v <> [] /\ forallb (none_of [DQUOTE]) v = true.
Proof.
  intros H. apply search_from_found in H as (pre & post & -> & Hm & _).
  rewrite match_here_VERSION_RX in Hm.
  destruct (version_parse post) as [v|] eqn:Hp; [|discriminate].
  injection Hm as <-.
  destruct (version_parse_found post v Hp)
    as (w1 & w2 & ident & w3 & w4 & w5 & rest & -> & H1 & H2 & H3 & H4 & H5
        & H6 & H7 & H8 & H9 & H10).
  exists pre, w1, w2, ident, w3, w4, v, w5, rest. repeat split; assumption.
Qed.

(** ** The version that the scan finds *)

Lemma discovered_version (sc sc' : scanner) (pkg : str) :
  discovered sc pkg = Ok sc' -> version (st_of sc') = version (st_of sc).
Proof.
  unfold discovered.
  destruct (update_packages (pkg_rx sc) pkg (st_of sc)) as [[rx st']|e] eqn:Hup;
    [|discriminate].
  simpl. intros [= <-]. simpl. unfold update_packages in Hup.
  destruct (dict_get pkg (Packages (st_of sc))); [|discriminate].
  destruct (negb _) in Hup; injection Hup as _ <-; reflexivity.
Qed.

Lemma scan_version_set (line : str) (sc : scanner) (v : str) :
  version (st_of sc) = Some v -> scan_version line sc = sc.
Proof. unfold scan_version. intros ->. reflexivity. Qed.

Lemma scan_line_version_kept (line : str) (sc sc' : scanner) (v : str) :
  version (st_of sc) = Some v ->
  scan_line line sc = Ok sc' ->
  version (st_of sc') = Some v.
Proof.
  intros Hv. unfold scan_line.
  destruct (re_search _ line) as [m|].
  - intros H. rewrite (discovered_version _ _ _ H). exact Hv.
  - destruct (dict_in GIO _); [destruct (re_search GIO_RX line)|].
    + intros H. rewrite (discovered_version _ _ _ H). exact Hv.
    + rewrite (scan_version_set line _ v) by exact Hv. intros [= <-]. exact Hv.
    + rewrite (scan_version_set line _ v) by exact Hv. intros [= <-]. exact Hv.
Qed.

Section VersionProperties.

Variable WIN : bool.

Lemma scan_lines_version_kept (lines : list str) (sc sc' : scanner) (v : str) :
  version (st_of sc) = Some v ->
  scan_lines WIN lines sc = Ok sc' ->
  version (st_of sc') = Some v.
Proof.
  revert sc. induction lines as [|line lines IH]; intros sc Hv; simpl.
  - intros [= <-]. exact Hv.
  - destruct (negb (more_to_do WIN (st_of sc))); [intros [= <-]; exact Hv|].
    destruct (scan_line line sc) as [sc1|e] eqn:H1; [|discriminate].
    simpl. apply IH. apply (scan_line_version_kept line sc sc1 v Hv H1).
Qed.

Lemma scan_files_version_kept (valas : list (str * str)) (sc sc' : scanner)
    (v : str) :
  version (st_of sc) = Some v ->
  scan_files WIN valas sc = Ok sc' ->
  version (st_of sc') = Some v.
Proof.
  revert sc. induction valas as [|[path text] valas IH]; intros sc Hv; simpl.
  - intros [= <-]. exact Hv.
  - destruct (scan_lines WIN (readlines text) (log (Opened path) sc))
      as [sc1|e] eqn:H1; [|discriminate].
    simpl.
    pose proof (scan_lines_version_kept _ (log (Opened path) sc) _ v Hv H1)
      as Hv1.
    destruct (negb (more_to_do WIN (st_of sc1))); [intros [= <-]; exact Hv1|].
    apply IH, Hv1.
Qed.

(** A line on which no package is found and the version pattern matches
    sets the version, when none is set yet. *)
Lemma scan_line_version_found (line : str) (sc : scanner) (m : Match) :
  version (st_of sc) = None ->
  re_search (pkg_rx sc) line = None ->
  (dict_in GIO (Packages (st_of sc)) = true -> re_search GIO_RX line = None) ->
  re_search VERSION_RX line = Some m ->
  exists sc', scan_line line sc = Ok sc'
              /\ version (st_of sc') = Some (group m).
Proof.
  intros Hv Hpkg Hgio Hm. unfold scan_line, scan_version, log.
  cbn [pkg_rx st_of events]. rewrite Hpkg, Hv, Hm.
  rewrite bool_decide_eq_true_2 by reflexivity.
  destruct (dict_in GIO (Packages (st_of sc))).
  - rewrite Hgio by reflexivity. eexists. split; reflexivity.
  - eexists. split; reflexivity.
Qed.

End VersionProperties.

(** C8, as the code has it.  The version pattern recognizes a constant
    string declaration whose name is spelled [version], [Version] or
    [VERSION], and nothing else, and its group is the text between the
    quotes.  While no version is set, the first line that the scanner
    examines without finding a package on it and that holds such a
    declaration sets the version, and whatever the scan reads afterwards
    leaves it as it is; a version that is set before the scan (by the
    settings file) is kept as well. *)
Theorem version_extraction (WIN : bool) :
  (forall indent w1 w2 ident w3 w4 v w5 rest,
     blanks indent ->
     w1 <> [] -> blanks w1 -> w2 <> [] -> blanks w2 ->
     blanks w3 -> blanks w4 -> blanks w5 ->
     ident ∈ version_idents ->
     v <> [] -> forallb (none_of [DQUOTE]) v = true ->
     re_search VERSION_RX
       (indent ++ version_decl w1 w2 ident w3 w4 v w5 ++ rest)
     = Some (Some v))
  /\ (forall line m,
        re_search VERSION_RX line = Some m ->
        exists pre w1 w2 ident w3 w4 v w5 rest,
          line = pre ++ version_decl w1 w2 ident w3 w4 v w5 ++ rest
          /\ m = Some v
          /\ ident ∈ version_idents
          /\ w1 <> [] /\ blanks w1 /\ w2 <> [] /\ blanks w2
          /\ blanks w3 /\ blanks w4 /\ blanks w5
          /\ v <> [] /\ forallb (none_of [DQUOTE]) v = true)
  /\ (forall path text more before line after sc sc_mid sc_end m,
        readlines text = before ++ line :: after ->
        scan_lines WIN before (log (Opened path) sc) = Ok sc_mid ->
        more_to_do WIN (st_of sc_mid) = true ->
        version (st_of sc_mid) = None ->
        re_search (pkg_rx sc_mid) line = None ->
        (dict_in GIO (Packages (st_of sc_mid)) = true ->
         re_search GIO_RX line = None) ->
        re_search VERSION_RX line = Some m ->
        scan_files WIN ((path, text) :: more) sc = Ok sc_end ->
        version (st_of sc_end) = Some (group m))
  /\ (forall valas st st' evs v,
        version st = Some v ->
        scan WIN valas st = Ok (st', evs) ->
        version st' = Some v).
Proof.
  split; [exact re_search_version_decl|].
  split; [exact re_search_version_found|].
  split.
  - intros path text more before line after sc sc_mid sc_end m
      Hlines Hbefore Hmore Hnone Hpkg Hgio Hm Hscan.
    destruct (scan_line_version_found line sc_mid m Hnone Hpkg Hgio Hm)
      as (sc1 & Hline & Hv1).
    simpl in Hscan. rewrite Hlines, scan_lines_app, Hbefore in Hscan.
    cbn [mbind result_bind scan_lines] in Hscan.
    rewrite Hmore, Hline in Hscan. cbn [negb mbind result_bind] in Hscan.
    destruct (scan_lines WIN after sc1) as [sc2|e] eqn:Hafter; [|discriminate].
    cbn [mbind result_bind] in Hscan.
    pose proof (scan_lines_version_kept WIN _ _ _ _ Hv1 Hafter) as Hv2.
    destruct (negb (more_to_do WIN (st_of sc2))).
    + injection Hscan as <-. exact Hv2.
    + apply (scan_files_version_kept WIN _ _ _ _ Hv2 Hscan).
  - intros valas st st' evs v Hv. unfold scan.
    destruct (more_to_do WIN st).
    + destruct (scan_files WIN valas _) as [sc|e] eqn:Hscan; [|discriminate].
      simpl. intros [= <- _].
      apply (scan_files_version_kept WIN valas (mk_scanner _ st []) sc v Hv Hscan).
    + intros [= <- _]. exact Hv.
Qed.

Lemma version_extraction_witness :
  let line := txt "const string Version = " ++ [DQUOTE] ++ txt "1.2.3"
                ++ [DQUOTE] ++ txt ";" in
  let st := Model_init [] [] [] true in
  let sc := mk_scanner (pkg_pattern (keys (Packages st))) st [] in
  re_search VERSION_RX line = Some (Some (txt "1.2.3"))
  /\ forall sc_end,
       scan_files true [(txt "main.vala", line ++ [LF])] sc = Ok sc_end ->
       version (st_of sc_end) = Some (txt "1.2.3").
Proof.
  split.
  - refine (proj1 (version_extraction false) [] (txt " ") (txt " ")
              (txt "Version") (txt " ") (txt " ") (txt "1.2.3") [] []
              _ _ _ _ _ _ _ _ _ _ _);
      try reflexivity; try discriminate.
    apply list_elem_of_In. simpl. tauto.
  - intros sc_end.
    refine (proj1 (proj2 (proj2 (version_extraction true)))
              (txt "main.vala") _ [] [] _ [] _ _ sc_end (Some (txt "1.2.3"))
              _ _ _ _ _ _ _); vm_compute; reflexivity.
Defined.

(** C8 as the claim states it fails twice.  A name that is "version" up to
    case but not in one of the three spellings is not recognized; and the
    first declaration in traversal order does not win when its line also
    names a pending package, since that line is not put to the version
    pattern. *)
Lemma version_pattern_counterexample :
  let decl := fun ident v =>
    txt "const string " ++ ident ++ txt " = " ++ [DQUOTE] ++ v ++ [DQUOTE]
      ++ txt ";" in
  casefold (txt "vERSION") = txt "version"
  /\ re_search VERSION_RX (decl (txt "vERSION") (txt "1.2.3")) = None
  /\ re_search VERSION_RX (decl (txt "VERSION") (txt "1.0") ++ txt " // Gtk")
     = Some (Some (txt "1.0"))
  /\ (r ← scan true
            [(txt "main.vala",
              decl (txt "VERSION") (txt "1.0") ++ txt " // Gtk" ++ [LF]
                ++ decl (txt "VERSION") (txt "2.0") ++ [LF])]
            (Model_init [] [] [] true);
      Ok (version r.1))
     = Ok (Some (txt "2.0")).
Proof. vm_compute. repeat split; reflexivity. Qed.

(** ** The alternation of package names *)

Lemma matches_Alt {A} (r1 r2 : regex) (prev : option ascii) (s : str)
    (cap : option str) (k : cont A) :
  matches (Alt r1 r2) prev s cap k =
    match matches r1 prev s cap k with
    | Some x => Some x
    | None => matches r2 prev s cap k
    end.
Proof. reflexivity. Qed.

Lemma matches_alternation (names : list str) (prev : option ascii) (s : str) :
  names <> [] ->
  matches (alternation names) prev s None
    (fun p' s' _ =>
       if at_boundary p' s' then Some (Some (take (length s - length s') s))
       else None)
  = option_map Some
      (List.find (fun n => startswith n s
                           && at_boundary (prev_after prev n) (drop (length n) s))
         names).
Proof.
  assert (Hlit : forall n,
    matches (Lit n) prev s None
      (fun p' s' _ =>
         if at_boundary p' s' then Some (Some (take (length s - length s') s))
         else None)
    = if startswith n s && at_boundary (prev_after prev n) (drop (length n) s)
      then Some (Some n) else None).
  { intros n. cbn [matches]. fold (prev_after prev n).
    destruct (startswith n s) eqn:Hn; [|reflexivity]. cbn [andb].
    destruct (at_boundary _ _); [|reflexivity].
    apply startswith_prefix in Hn. rewrite Hn at 1 3.
    rewrite take_length_diff. reflexivity. }
  induction names as [|n names IH]; [contradiction|]. intros _.
  destruct names as [|n2 names].
  - cbn [alternation List.find]. rewrite Hlit.
    destruct (_ && _); reflexivity.
  - change (alternation (n :: n2 :: names))
      with (Alt (Lit n) (alternation (n2 :: names))).
    rewrite matches_Alt, Hlit, IH by discriminate. cbn [List.find].
    destruct (_ && _); reflexivity.
Qed.

Lemma find_ext {A} (f g : A -> bool) (l : list A) :
  (forall x, f x = g x) -> List.find f l = List.find g l.
Proof.
  intros Hfg. induction l as [|x l IH]; simpl; [reflexivity|].
  rewrite Hfg, IH. reflexivity.
Qed.

Lemma find_never {A} (l : list A) : List.find (fun _ => false) l = None.
Proof. induction l; simpl; auto. Qed.

Lemma match_here_pkg_pattern (names : list str) (prev : option ascii)
    (s : str) :
  names <> [] ->
  match_here (pkg_pattern names) prev s
  = option_map Some (List.find (word_here prev s) names).
Proof.
  intros Hnames. unfold match_here, pkg_pattern. cbn [matches].
  destruct (at_boundary prev s) eqn:Hb.
  - rewrite (matches_alternation names prev s Hnames). f_equal.
    apply find_ext. intros n. unfold word_here. rewrite Hb. reflexivity.
  - rewrite (find_ext (word_here prev s) (fun _ => false)).
    + rewrite find_never. reflexivity.
    + intros n. unfold word_here. rewrite Hb. reflexivity.
Qed.

(** The compiled alternation finds what [first_word] describes. *)
Lemma re_search_pkg_pattern (names : list str) (line : str) :
  names <> [] ->
  re_search (pkg_pattern names) line
  = option_map Some (first_word names None line).
Proof.
  intros Hnames. unfold re_search. generalize (@None ascii) as prev.
  induction line as [|c line IH]; intros prev; simpl;
    rewrite (match_here_pkg_pattern names prev _ Hnames).
  - destruct (List.find _ names); reflexivity.
  - destruct (List.find _ names); [reflexivity|]. apply IH.
Qed.

Lemma first_word_in (names : list str) (prev : option ascii) (s name : str) :
  first_word names prev s = Some name -> name ∈ names.
Proof.
  revert prev. induction s as [|c s IH]; intros prev; simpl.
  - destruct (List.find _ names) as [n|] eqn:Hf; [|discriminate].
    intros [= <-]. apply list_elem_of_In. apply (find_some _ _ Hf).
  - destruct (List.find _ names) as [n|] eqn:Hf.
    + intros [= <-]. apply list_elem_of_In. apply (find_some _ _ Hf).
    + apply IH.
Qed.

(** [first_word] finds a name that stands in the text as a word, and some
    name whenever one of the names does. *)
Lemma first_word_occurs (names : list str) (prev : option ascii) (s name : str) :
  first_word names prev s = Some name ->
  exists pre post, s = pre ++ post
                   /\ word_here (prev_after prev pre) post name = true.
Proof.
  revert prev. induction s as [|c s IH]; intros prev; simpl.
  - destruct (List.find _ names) as [n|] eqn:Hf; [|discriminate].
    intros [= <-]. exists [], []. split; [reflexivity|].
    apply (find_some _ _ Hf).
  - destruct (List.find _ names) as [n|] eqn:Hf.
    + intros [= <-]. exists [], (c :: s). split; [reflexivity|].
      apply (find_some _ _ Hf).
    + intros H. destruct (IH _ H) as (pre & post & -> & Hw).
      exists (c :: pre), post. rewrite prev_after_cons. split; [reflexivity|exact Hw].
Qed.

Lemma first_word_complete (names : list str) (prev : option ascii)
    (pre post name : str) :
  name ∈ names ->
  word_here (prev_after prev pre) post name = true ->
  exists found, first_word names prev (pre ++ post) = Some found.
Proof.
  intros Hin. apply list_elem_of_In in Hin.
  revert prev. induction pre as [|c pre IH]; intros prev Hw.
  - change (prev_after prev []) with prev in Hw. cbn [app].
    destruct (List.find (word_here prev post) names) as [n|] eqn:Hf.
    + exists n. destruct post; simpl; rewrite Hf; reflexivity.
    + exfalso. pose proof (find_none _ _ Hf name Hin) as Hn. congruence.
  - rewrite prev_after_cons in Hw. cbn [app first_word].
    destruct (List.find _ names) as [n|]; [eauto|]. apply IH, Hw.
Qed.

(** ** Discovery *)

Lemma dict_in_keys (k : str) (d : dict) : k ∈ keys d <-> dict_in k d = true.
Proof.
  unfold dict_in, keys. induction d as [|[k0 v0] d IH]; simpl.
  - split; [intros H; inversion H|discriminate].
  - rewrite elem_of_cons. destruct (decide (k = k0)) as [->|Hne]; [tauto|].
    rewrite IH. split; [intros [?|?]; [contradiction|assumption]|tauto].
Qed.

Lemma discovered_moves (sc sc' : scanner) (pkg : str) :
  discovered sc pkg = Ok sc' ->
  exists value,
    dict_get pkg (Packages (st_of sc)) = Some value
    /\ Packages (st_of sc') = dict_del pkg (Packages (st_of sc))
    /\ packages (st_of sc') = dict_set pkg value (packages (st_of sc))
    /\ rx_current sc'.
Proof.
  unfold discovered, update_packages, rx_current.
  destruct (dict_get pkg (Packages (st_of sc))) as [value|]; [|discriminate].
  cbn [set_Packages set_packages Packages packages].
  destruct (bool_decide (dict_del pkg (Packages (st_of sc)) = [])) eqn:Hempty;
    cbn [negb mbind result_bind fst snd]; intros [= <-]; exists value;
    cbn [st_of pkg_rx Packages packages]; repeat split; try reflexivity.
  apply bool_decide_eq_true_1 in Hempty. intros Hne. contradiction.
Qed.

Lemma scan_line_steps (line : str) (sc sc' : scanner) :
  scan_line line sc = Ok sc' ->
  (exists pkg, discovered (log (Examined line) sc) pkg = Ok sc')
  \/ (pkg_rx sc' = pkg_rx sc /\ Packages (st_of sc') = Packages (st_of sc)
      /\ packages (st_of sc') = packages (st_of sc)).
Proof.
  unfold scan_line.
  destruct (re_search _ line) as [m|]; [eauto|].
  assert (Hv : forall s, pkg_rx (scan_version line s) = pkg_rx s
             /\ Packages (st_of (scan_version line s)) = Packages (st_of s)
             /\ packages (st_of (scan_version line s)) = packages (st_of s)).
  { intros s. unfold scan_version.
    destruct (bool_decide _); [|repeat split].
    destruct (re_search VERSION_RX line); repeat split. }
  destruct (dict_in GIO _); [destruct (re_search GIO_RX line)|]; eauto;
    intros [= <-]; right; apply (Hv (log (Examined line) sc)).
Qed.

Lemma scan_line_current (line : str) (sc sc' : scanner) :
  rx_current sc -> scan_line line sc = Ok sc' ->
  rx_current sc'
  /\ forall k, dict_in k (Packages (st_of sc)) = false ->
               dict_in k (Packages (st_of sc')) = false.
Proof.
  intros Hcur Hline.
  destruct (scan_line_steps line sc sc' Hline) as [[pkg Hd]|(Hrx & HP & _)].
  - destruct (discovered_moves _ _ _ Hd) as (value & _ & HP & _ & Hcur').
    split; [exact Hcur'|]. intros k Hk. rewrite HP, dict_in_del. cbn [log st_of].
    rewrite Hk. apply andb_false_r.
  - split; [|intros k; rewrite HP; tauto].
    unfold rx_current. rewrite Hrx, HP. exact Hcur.
Qed.






(** ** The merge loop *)

Lemma merge_line_section (m : merger) (line : str) :
  in_packages m = true ->
  merge_line m line = mk_merger (new_lines m) true (merge_entry (merged m) line).
Proof.
  intros Hin. unfold merge_line, merge_entry, section_entry, target.
  rewrite Hin. destruct m as [new inp d]. simpl in Hin. subst inp.
  cbn [new_lines merged].
  destruct (split "=" 2 line) as [|p0 [|p1 [|p2 ps]]]; try reflexivity.
  destruct (startswith (txt "#") (strip p0)); [|reflexivity].
  destruct (dict_in _ d); reflexivity.
Qed.

Lemma merge_lines_section (lines : list str) (new : list str) (d : dict) :
  fold_left merge_line lines (mk_merger new true d)
  = mk_merger new true (merge_section d lines).
Proof.
  revert d. induction lines as [|line lines IH]; intros d; simpl; [reflexivity|].
  rewrite merge_line_section by reflexivity. apply IH.
Qed.

Lemma merge_lines_front (lines : list str) (new : list str) (d : dict) :
  fold_left merge_line lines (mk_merger new false d)
  = mk_merger (new ++ front lines) (existsb is_header lines)
      (merge_section d (section_of lines)).
Proof.
  revert new. induction lines as [|line lines IH]; intros new; simpl.
  - rewrite app_nil_r. reflexivity.
  - unfold merge_line at 2. cbn [in_packages new_lines merged].
    fold (is_header line). destruct (is_header line); cbn [negb orb].
    + rewrite app_nil_r. apply merge_lines_section.
    + rewrite IH, <- app_assoc. reflexivity.
Qed.

Lemma merged_ini_parts (old : str) (st : state) :
  merged_ini old st
  = concat (front (readlines old))
      ++ make_packages_section (merged_packages old st) st.
Proof.
  unfold merged_ini, merged_packages. rewrite merge_lines_front. reflexivity.
Qed.

Lemma lstrip_chars_not_hash (key : str) :
  startswith (txt "#") (lstrip_chars (txt "# ") key) = false.
Proof.
  unfold lstrip_chars.
  pose proof (lstrip_by_head (fun c => bool_decide (c ∈ txt "# ")) key) as H.
  destruct (lstrip_by _ key) as [|c s]; [reflexivity|]. simpl.
  destruct (decide ("#"%char = c)) as [<-|]; [|reflexivity].
  apply bool_decide_eq_false_1 in H. exfalso. apply H.
  apply list_elem_of_In. simpl. tauto.
Qed.

Lemma target_cases (d : dict) (key : str) :
  target d key = key
  \/ (startswith (txt "#") key = true
      /\ target d key = lstrip_chars (txt "# ") key
      /\ dict_in (lstrip_chars (txt "# ") key) d = true).
Proof.
  unfold target. destruct (startswith (txt "#") key); [|tauto].
  destruct (dict_in _ d) eqn:Hin; [right; repeat split; assumption|tauto].
Qed.

Lemma dict_get_merge_entry (x : str) (d : dict) (line : str) :
  dict_get x (merge_entry d line) =
    match section_entry line with
    | Some (key, value) =>
        if decide (x = target d key) then Some value else dict_get x d
    | None => dict_get x d
    end.
Proof.
  unfold merge_entry. destruct (section_entry line) as [[key value]|];
    [apply dict_get_set|reflexivity].
Qed.

(** A name that is no key stays none through lines that have no entry
    under it. *)
Lemma merge_section_absent (name : str) (lines : list str) (d : dict) :
  dict_in name d = false ->
  (forall l v, l ∈ lines -> section_entry l <> Some (name, v)) ->
  dict_in name (merge_section d lines) = false.
Proof.
  revert d. induction lines as [|line lines IH]; intros d Hout Hlines; simpl.
  - exact Hout.
  - apply IH; [|intros l v Hl; apply Hlines; right; exact Hl].
    unfold dict_in. rewrite dict_get_merge_entry.
    destruct (section_entry line) as [[key value]|] eqn:Hentry;
      [|exact Hout].
    destruct (decide (name = target d key)) as [Heq|_]; [|exact Hout].
    exfalso. destruct (target_cases d key) as [Ht|(_ & Ht & Hin)].
    + rewrite Ht in Heq. subst key.
      apply (Hlines line value); [left|exact Hentry].
    + rewrite Ht in Heq. rewrite <- Heq in Hin. congruence.
Qed.

(** A commented key keeps its value through lines that do not give the
    same key another value. *)
Lemma merge_section_kept (key value : str) (lines : list str) (d : dict) :
  startswith (txt "#") key = true ->
  dict_get key d = Some value ->
  (forall l v, l ∈ lines -> section_entry l = Some (key, v) -> v = value) ->
  dict_get key (merge_section d lines) = Some value.
Proof.
  intros Hhash. revert d.
  induction lines as [|line lines IH]; intros d Hget Hlines; simpl.
  - exact Hget.
  - apply IH; [|intros l v Hl; apply Hlines; right; exact Hl].
    rewrite dict_get_merge_entry.
    destruct (section_entry line) as [[k v]|] eqn:Hentry; [|exact Hget].
    destruct (decide (key = target d k)) as [Heq|_]; [|exact Hget].
    destruct (target_cases d k) as [Ht|(_ & Ht & _)]; rewrite Ht in Heq.
    + subst k. f_equal. apply (Hlines line v); [left|exact Hentry].
    + exfalso. rewrite Heq, lstrip_chars_not_hash in Hhash. discriminate.
Qed.

Lemma merge_section_app (d : dict) (l1 l2 : list str) :
  merge_section d (l1 ++ l2) = merge_section (merge_section d l1) l2.
Proof. apply fold_left_app. Qed.

Lemma dict_get_elem (k v : str) (d : dict) :
  dict_get k d = Some v -> (k, v) ∈ d.
Proof.
  induction d as [|[k0 v0] d IH]; simpl; [discriminate|].
  destruct (decide (k = k0)) as [->|_].
  - intros [= ->]. left.
  - intros H. right. apply IH, H.
Qed.

Lemma elem_of_sorted_set (x : str) (l : list str) : x ∈ sorted_set l <-> x ∈ l.
Proof.
  unfold sorted_set. rewrite merge_sort_Permutation. apply elem_of_remove_dups.
Qed.

Lemma section_of_split (pre rest : list str) (hdr : str) :
  Forall (fun l => is_header l = false) pre ->
  is_header hdr = true ->
  front (pre ++ hdr :: rest) = pre /\ section_of (pre ++ hdr :: rest) = rest.
Proof.
  intros Hpre Hhdr. induction Hpre as [|l pre Hl _ IH]; simpl.
  - rewrite Hhdr. split; reflexivity.
  - rewrite Hl. destruct IH as [-> ->]. split; reflexivity.
Qed.

(** C3, as the code has it.  Take a commented entry [# name = value] of the
    Packages section of the settings file whose name is not among the
    project's packages.  If no entry in front of it in the section has the
    name as its key, and no entry after it repeats the commented key with
    another value, then the regenerated section holds the commented entry
    with that value; and if no entry after it has the name as its key
    either, the name is not made active. *)
Theorem unused_package_preserved (old : str) (st : state)
    (pre before after : list str) (hdr line key value : str) :
  readlines old = pre ++ hdr :: before ++ line :: after ->
  Forall (fun l => is_header l = false) pre ->
  is_header hdr = true ->
  section_entry line = Some (key, value) ->
  startswith (txt "#") key = true ->
  dict_in (lstrip_chars (txt "# ") key) (packages st) = false ->
  (forall l v, l ∈ before ->
     section_entry l <> Some (lstrip_chars (txt "# ") key, v)) ->
  (forall l v, l ∈ after -> section_entry l = Some (key, v) -> v = value) ->
  merged_ini old st
    = concat pre ++ make_packages_section (merged_packages old st) st
  /\ dict_get key (merged_packages old st) = Some value
  /\ active_line (key, value) ∈ section_lines (merged_packages old st) st
  /\ ((forall l v, l ∈ after ->
         section_entry l <> Some (lstrip_chars (txt "# ") key, v)) ->
      dict_in (lstrip_chars (txt "# ") key) (merged_packages old st) = false).
Proof.
  intros Hlines Hpre Hhdr Hentry Hhash Hout Hbefore Hafter.
  destruct (section_of_split pre (before ++ line :: after) hdr Hpre Hhdr)
    as [Hfront Hsection].
  rewrite merged_ini_parts. unfold merged_packages.
  rewrite Hlines, Hfront, Hsection.
  rewrite merge_section_app. cbn [merge_section fold_left].
  fold (merge_section (merge_entry (merge_section (packages st) before) line) after).
  set (name := lstrip_chars (txt "# ") key) in *.
  set (d := merge_section (packages st) before).
  assert (Hd : dict_in name d = false)
    by (apply merge_section_absent; assumption).
  assert (Hstep : merge_entry d line = dict_set key value d).
  { unfold merge_entry, target. rewrite Hentry, Hhash. fold name.
    rewrite Hd. reflexivity. }
  rewrite Hstep.
  assert (Hkept : dict_get key (merge_section (dict_set key value d) after)
                  = Some value).
  { apply merge_section_kept; [exact Hhash| |exact Hafter].
    rewrite dict_get_set. destruct (decide (key = key)); congruence. }
  split; [reflexivity|]. split; [exact Hkept|]. split.
  - unfold section_lines. apply elem_of_sorted_set, elem_of_app. left.
    apply (list_elem_of_fmap_2 active_line _ (key, value)).
    apply dict_get_elem, Hkept.
  - intros Hlater. apply merge_section_absent; [|exact Hlater].
    rewrite dict_in_set, Hd, orb_false_r. apply bool_decide_eq_false_2.
    intros Heq. pose proof (lstrip_chars_not_hash key) as Hn. fold name in Hn.
    rewrite Heq, Hhash in Hn. discriminate.
Qed.

Lemma unused_package_preserved_witness :
  let st := set_Packages [] (Model_init [] [] [] false) in
  let old := txt "[General]" ++ [LF] ++ txt "[Packages]" ++ [LF]
               ++ txt "# Gee = gee-0.8" ++ [LF] in
  merged_ini old st = old
  /\ active_line (txt "# Gee", txt "gee-0.8")
       ∈ section_lines (merged_packages old st) st.
Proof.
  intros st old.
  destruct (unused_package_preserved old st [txt "[General]" ++ [LF]] [] []
              (txt "[Packages]" ++ [LF]) (txt "# Gee = gee-0.8" ++ [LF])
              (txt "# Gee") (txt "gee-0.8"))
    as (Hini & _ & Hline & _); try reflexivity.
  - repeat constructor.
  - intros l v Hl. inversion Hl.
  - intros l v Hl. inversion Hl.
  - split; [|exact Hline]. vm_compute. reflexivity.
Defined.

(** C3 as the claim states it fails when the section comments one name
    twice: [# Gtk = gtk+-2.0] is a commented entry whose name is not among
    the project's packages, and the regenerated section has lost it. *)
Lemma repeated_comment_loses_first :
  let st := Model_init [] [] [] false in
  let old := txt "[Packages]" ++ [LF] ++ txt "# Gtk = gtk+-2.0" ++ [LF]
               ++ txt "# Gtk = gtk+-3.0" ++ [LF] in
  section_entry (txt "# Gtk = gtk+-2.0" ++ [LF])
    = Some (txt "# Gtk", txt "gtk+-2.0")
  /\ dict_in (txt "Gtk") (packages st) = false
  /\ section_lines (merged_packages old st) st
     = [txt "# Gee = gee-0.8"; txt "# Gio = gio-2.0"; txt "# Gtk = gtk+-3.0"]
  /\ maybe_update_ini old st
     = Some (txt "[Packages]" ++ [LF] ++ txt "# Gee = gee-0.8" ++ [LF]
               ++ txt "# Gio = gio-2.0" ++ [LF] ++ txt "# Gtk = gtk+-3.0" ++ [LF]).
Proof. vm_compute. repeat split; reflexivity. Qed.

(** ** The order of lines *)

Lemma code_inj (x y : ascii) : code x = code y -> x = y.
Proof.
  unfold code. intros H.
  rewrite <- (ascii_nat_embedding x), <- (ascii_nat_embedding y), H. reflexivity.
Qed.

Lemma str_leb_refl (a : str) : str_leb a a = true.
Proof.
  induction a as [|x a IH]; simpl; [reflexivity|].
  rewrite Nat.ltb_irrefl. exact IH.
Qed.

Lemma str_leb_total (a b : str) : str_leb a b = true \/ str_leb b a = true.
Proof.
  revert b. induction a as [|x a IH]; intros [|y b]; simpl; auto.
  destruct (code x <? code y) eqn:Hxy; [auto|].
  destruct (code y <? code x) eqn:Hyx; [auto|]. apply IH.
Qed.

Lemma str_leb_trans (a b c : str) :
  str_leb a b = true -> str_leb b c = true -> str_leb a c = true.
Proof.
  revert b c. induction a as [|x a IH]; intros [|y b] [|z c]; simpl; auto;
    try discriminate.
  destruct (code x <? code y) eqn:Hxy, (code y <? code x) eqn:Hyx,
    (code y <? code z) eqn:Hyz, (code z <? code y) eqn:Hzy,
    (code x <? code z) eqn:Hxz, (code z <? code x) eqn:Hzx;
    try discriminate; try reflexivity;
    rewrite ?Nat.ltb_lt, ?Nat.ltb_ge in *; try lia.
  apply IH.
Qed.

Lemma str_leb_antisym (a b : str) :
  str_leb a b = true -> str_leb b a = true -> a = b.
Proof.
  revert b. induction a as [|x a IH]; intros [|y b]; simpl; auto;
    try discriminate.
  destruct (code x <? code y) eqn:Hxy, (code y <? code x) eqn:Hyx;
    try discriminate; rewrite ?Nat.ltb_lt, ?Nat.ltb_ge in *; try lia.
  intros H1 H2. f_equal; [apply code_inj; lia|apply IH; assumption].
Qed.

#[local] Instance str_le_total : Total str_le.
Proof. intros a b. apply str_leb_total. Qed.

#[local] Instance str_le_trans : Transitive str_le.
Proof. intros a b c. apply str_leb_trans. Qed.

#[local] Instance str_le_antisym : AntiSymm (=) str_le.
Proof. intros a b. apply str_leb_antisym. Qed.

Lemma str_leb_app (p a b : str) : str_leb (p ++ a) (p ++ b) = str_leb a b.
Proof.
  induction p as [|x p IH]; simpl; [reflexivity|].
  rewrite Nat.ltb_irrefl. exact IH.
Qed.

Lemma str_leb_first (x y : ascii) (a b : str) :
  code x < code y -> str_leb (y :: b) (x :: a) = false.
Proof.
  intros H. simpl.
  destruct (code y <? code x) eqn:Hyx; [apply Nat.ltb_lt in Hyx; lia|].
  apply Nat.ltb_lt in H. rewrite H. reflexivity.
Qed.

(** ** Sorted sets of lines *)

Lemma sorted_set_sorted (l : list str) : StronglySorted str_le (sorted_set l).
Proof. apply StronglySorted_merge_sort; apply _. Qed.

Lemma sorted_set_NoDup (l : list str) : NoDup (sorted_set l).
Proof.
  unfold sorted_set. rewrite merge_sort_Permutation. apply NoDup_remove_dups.
Qed.

Lemma sorted_set_ext (l1 l2 : list str) :
  (forall x, x ∈ l1 <-> x ∈ l2) -> sorted_set l1 = sorted_set l2.
Proof.
  intros Hext.
  apply (Sorted_unique str_le); try apply Sorted_merge_sort; try apply _.
  unfold sorted_set. rewrite !merge_sort_Permutation.
  apply NoDup_Permutation; try apply NoDup_remove_dups.
  intros x. rewrite !elem_of_remove_dups. apply Hext.
Qed.

(** In a sorted list without repetition what follows an element is strictly
    above it. *)
Lemma sorted_set_later (l : list str) (l1 l2 : list str) (x y : str) :
  sorted_set l = l1 ++ x :: l2 -> y ∈ l2 -> str_le x y /\ y <> x.
Proof.
  intros Hl Hy.
  pose proof (sorted_set_sorted l) as Hs. pose proof (sorted_set_NoDup l) as Hn.
  rewrite Hl in Hs, Hn.
  apply StronglySorted_app in Hs as (_ & _ & Hs).
  apply StronglySorted_inv in Hs as [_ Hall].
  apply NoDup_app in Hn as (_ & _ & Hn). apply NoDup_cons in Hn as [Hx _].
  split.
  - rewrite Forall_forall in Hall. apply Hall, Hy.
  - intros ->. contradiction.
Qed.

Lemma sorted_set_earlier (l : list str) (l1 l2 : list str) (x y : str) :
  sorted_set l = l1 ++ x :: l2 -> y ∈ l1 -> str_le y x /\ y <> x.
Proof.
  intros Hl Hy.
  pose proof (sorted_set_sorted l) as Hs. pose proof (sorted_set_NoDup l) as Hn.
  rewrite Hl in Hs, Hn.
  apply StronglySorted_app in Hs as (Hs & _ & _).
  apply NoDup_app in Hn as (_ & Hn & _).
  split.
  - apply (Hs y x Hy). left.
  - intros ->. apply (Hn x Hy). left.
Qed.

(** ** Stripping and splitting *)

Lemma lstrip_by_all (p : ascii -> bool) (a x : str) :
  forallb p a = true -> lstrip_by p (a ++ x) = lstrip_by p x.
Proof.
  induction a as [|c a IH]; simpl; [reflexivity|].
  intros H. apply andb_true_iff in H as [-> H]. apply IH, H.
Qed.

Lemma lstrip_by_nil (p : ascii -> bool) (a : str) :
  forallb p a = true -> lstrip_by p a = [].
Proof.
  intros H. rewrite <- (app_nil_r a). rewrite lstrip_by_all by exact H. reflexivity.
Qed.

Lemma lstrip_by_keep (p : ascii -> bool) (s b : str) :
  forallb p s = false -> lstrip_by p (s ++ b) = lstrip_by p s ++ b.
Proof.
  induction s as [|c s IH]; simpl; [discriminate|].
  destruct (p c); simpl; [exact IH|reflexivity].
Qed.

Lemma forallb_rev {A} (p : A -> bool) (l : list A) :
  forallb p (rev l) = forallb p l.
Proof.
  induction l as [|x l IH]; simpl; [reflexivity|].
  rewrite forallb_app, IH. simpl. rewrite andb_true_r. apply andb_comm.
Qed.

Lemma rstrip_by_all (p : ascii -> bool) (x b : str) :
  forallb p b = true -> rstrip_by p (x ++ b) = rstrip_by p x.
Proof.
  intros H. unfold rstrip_by. rewrite rev_app_distr.
  rewrite lstrip_by_all by (rewrite forallb_rev; exact H). reflexivity.
Qed.

Lemma strip_pad (a s b : str) :
  forallb isspace a = true -> forallb isspace b = true ->
  strip (a ++ s ++ b) = strip s.
Proof.
  intros Ha Hb. unfold strip. rewrite lstrip_by_all by exact Ha.
  destruct (forallb isspace s) eqn:Hs.
  - rewrite (lstrip_by_nil isspace (s ++ b))
      by (rewrite forallb_app, Hs, Hb; reflexivity).
    rewrite (lstrip_by_nil isspace s) by exact Hs. reflexivity.
  - rewrite lstrip_by_keep by exact Hs. apply rstrip_by_all, Hb.
Qed.

Lemma lstrip_by_idem (p : ascii -> bool) (s : str) :
  lstrip_by p (lstrip_by p s) = lstrip_by p s.
Proof.
  induction s as [|c s IH]; simpl; [reflexivity|].
  destruct (p c) eqn:Hc; [exact IH|]. simpl. rewrite Hc. reflexivity.
Qed.

Lemma rstrip_by_prefix (p : ascii -> bool) (x : str) :
  exists b, x = rstrip_by p x ++ b /\ forallb p b = true.
Proof.
  exists (rev (take_by p (rev x))). unfold rstrip_by. split.
  - rewrite <- rev_app_distr, take_by_lstrip_by, rev_involutive. reflexivity.
  - rewrite forallb_rev. apply take_by_all.
Qed.

Lemma strip_idem (s : str) : strip (strip s) = strip s.
Proof.
  unfold strip at 1.
  assert (Hl : lstrip_by isspace (strip s) = strip s).
  { unfold strip.
    pose proof (lstrip_by_head isspace s) as Hhead.
    destruct (rstrip_by_prefix isspace (lstrip_by isspace s)) as (b & Hx & _).
    destruct (rstrip_by isspace (lstrip_by isspace s)) as [|c y]; [reflexivity|].
    rewrite Hx in Hhead. simpl in Hhead. simpl. rewrite Hhead. reflexivity. }
  rewrite Hl. unfold strip, rstrip_by. rewrite rev_involutive, lstrip_by_idem.
  reflexivity.
Qed.

Lemma lstrip_by_sub (p : ascii -> bool) (s : str) (c : ascii) :
  c ∈ lstrip_by p s -> c ∈ s.
Proof.
  induction s as [|x s IH]; simpl; [trivial|].
  destruct (p x); [intros H; right; apply IH, H|trivial].
Qed.

Lemma elem_of_rev {A} (x : A) (l : list A) : x ∈ rev l <-> x ∈ l.
Proof. rewrite !list_elem_of_In. symmetry. apply in_rev. Qed.

Lemma strip_sub (s : str) (c : ascii) : c ∈ strip s -> c ∈ s.
Proof.
  unfold strip, rstrip_by. intros H.
  apply elem_of_rev, lstrip_by_sub, elem_of_rev, lstrip_by_sub in H. exact H.
Qed.

Lemma break_at_found (sep : ascii) (a b : str) :
  sep ∉ a -> break_at sep (a ++ sep :: b) = (a, Some b).
Proof.
  induction a as [|c a IH]; simpl; intros Ha.
  - destruct (decide (sep = sep)); congruence.
  - destruct (decide (c = sep)) as [->|_]; [exfalso; apply Ha; left|].
    rewrite IH; [reflexivity|]. intros H. apply Ha. right. exact H.
Qed.

Lemma break_at_none (sep : ascii) (a : str) :
  sep ∉ a -> break_at sep a = (a, None).
Proof.
  induction a as [|c a IH]; simpl; intros Ha; [reflexivity|].
  destruct (decide (c = sep)) as [->|_]; [exfalso; apply Ha; left|].
  rewrite IH; [reflexivity|]. intros H. apply Ha. right. exact H.
Qed.

Lemma break_at_inv (sep : ascii) (s a : str) (r : option str) :
  break_at sep s = (a, r) ->
  (sep ∉ a) /\ match r with Some b => s = a ++ sep :: b | None => s = a end.
Proof.
  revert a. induction s as [|c s IH]; simpl; intros a.
  - intros [= <- <-]. split; [intros H; inversion H|reflexivity].
  - destruct (decide (c = sep)) as [->|Hne].
    + intros [= <- <-]. split; [intros H; inversion H|reflexivity].
    + destruct (break_at sep s) as [a' r'] eqn:Hb. intros [= <- <-].
      destruct (IH a' eq_refl) as [Ha Hs]. split.
      * intros H. apply elem_of_cons in H as [->|H]; [congruence|contradiction].
      * destruct r'; rewrite Hs; reflexivity.
Qed.

Lemma split_entry (a b : str) :
  ("="%char) ∉ a -> ("="%char) ∉ b -> split "=" 2 (a ++ "="%char :: b) = [a; b].
Proof.
  intros Ha Hb. unfold split. rewrite (break_at_found _ a b Ha).
  rewrite (break_at_none _ b Hb). reflexivity.
Qed.

Lemma split_entry_inv (line p0 p1 : str) :
  split "=" 2 line = [p0; p1] ->
  line = p0 ++ "="%char :: p1 /\ (("="%char) ∉ p0) /\ (("="%char) ∉ p1).
Proof.
  unfold split.
  destruct (break_at "=" line) as [a [rest|]] eqn:H1; [|discriminate].
  destruct (break_at "=" rest) as [a2 [rest2|]] eqn:H2; [discriminate|].
  intros [= <- <-].
  destruct (break_at_inv _ _ _ _ H1) as [Ha Hline].
  destruct (break_at_inv _ _ _ _ H2) as [Ha2 Hrest]. subst rest.
  repeat split; assumption.
Qed.

Lemma clean_spec (s : str) :
  clean s = true <-> (("="%char) ∉ s) /\ (LF ∉ s) /\ strip s = s.
Proof.
  unfold clean. rewrite !andb_true_iff, !negb_true_iff.
  rewrite !bool_decide_eq_false, bool_decide_eq_true. tauto.
Qed.

Lemma lstrip_fixed_app (p : ascii -> bool) (y z : str) :
  lstrip_by p y = y -> y <> [] -> lstrip_by p (y ++ z) = y ++ z.
Proof.
  destruct y as [|c y]; [contradiction|]. simpl.
  destruct (p c) eqn:Hc; [|reflexivity].
  intros H _. exfalso.
  pose proof (take_by_lstrip_by p y) as Hlen.
  apply (f_equal (@length ascii)) in Hlen, H.
  rewrite length_app in Hlen. simpl in H. lia.
Qed.

Lemma lstrip_by_length (p : ascii -> bool) (s : str) :
  length (lstrip_by p s) <= length s.
Proof.
  rewrite <- (take_by_lstrip_by p s) at 2. rewrite length_app. lia.
Qed.

Lemma lstrip_by_same_length (p : ascii -> bool) (s : str) :
  length (lstrip_by p s) = length s -> lstrip_by p s = s.
Proof.
  intros H. pose proof (take_by_lstrip_by p s) as Hs.
  assert (Hlen : length (take_by p s) = 0).
  { apply (f_equal (@length ascii)) in Hs. rewrite length_app in Hs. lia. }
  destruct (take_by p s); [exact Hs|discriminate].
Qed.

(** A stripped text has no blank at either end. *)
Lemma strip_fixed (k : str) :
  strip k = k -> lstrip_by isspace k = k /\ rstrip_by isspace k = k.
Proof.
  intros H.
  assert (Hl : lstrip_by isspace k = k).
  { apply lstrip_by_same_length.
    pose proof (lstrip_by_length isspace k) as H1.
    pose proof (lstrip_by_length isspace (rev (lstrip_by isspace k))) as H2.
    apply (f_equal (@length ascii)) in H. unfold strip, rstrip_by in H.
    rewrite !length_rev in *. lia. }
  split; [exact Hl|]. unfold strip in H. rewrite Hl in H. exact H.
Qed.

Lemma strip_fixed_app (x k : str) :
  strip k = k -> k <> [] -> lstrip_by isspace x = x -> x <> [] ->
  strip (x ++ k) = x ++ k.
Proof.
  intros Hk Hne Hx Hxne. destruct (strip_fixed k Hk) as [_ Hr].
  unfold strip. rewrite (lstrip_fixed_app isspace x k Hx Hxne).
  unfold rstrip_by in *. rewrite rev_app_distr.
  rewrite (lstrip_fixed_app isspace (rev k) (rev x)).
  - rewrite <- rev_app_distr, rev_involutive. reflexivity.
  - apply (f_equal (@rev ascii)) in Hr. rewrite rev_involutive in Hr. exact Hr.
  - intros H. apply Hne. apply (f_equal (@rev ascii)) in H.
    rewrite rev_involutive in H. exact H.
Qed.

Lemma name_ok_head (k : str) :
  name_ok k = true ->
  exists c k', k = c :: k' /\ code "#" < code c.
Proof.
  destruct k as [|c k']; simpl; [discriminate|].
  intros H. apply Nat.ltb_lt in H. eauto.
Qed.

Lemma lstrip_chars_name (k : str) :
  name_ok k = true -> lstrip_chars (txt "# ") (txt "# " ++ k) = k.
Proof.
  intros H. destruct (name_ok_head k H) as (c & k' & -> & Hc).
  unfold lstrip_chars.
  change (txt "# " ++ c :: k') with ("#"%char :: " "%char :: c :: k').
  cbn [lstrip_by].
  replace (bool_decide ("#"%char ∈ txt "# ")) with true by reflexivity.
  replace (bool_decide (" "%char ∈ txt "# ")) with true by reflexivity.
  rewrite bool_decide_eq_false_2; [reflexivity|].
  intros Hin. apply list_elem_of_In in Hin. simpl in Hin.
  destruct Hin as [<-|[<-|[]]]; vm_compute in Hc; lia.
Qed.

Lemma name_ok_not_hash (k : str) :
  name_ok k = true -> startswith (txt "#") k = false.
Proof.
  intros H. destruct (name_ok_head k H) as (c & k' & -> & Hc). simpl.
  destruct (decide ("#"%char = c)) as [<-|]; [lia|reflexivity].
Qed.

Lemma not_elem_of_app {A} (x : A) (l1 l2 : list A) :
  x ∉ l1 -> x ∉ l2 -> x ∉ l1 ++ l2.
Proof. intros H1 H2 H. apply elem_of_app in H as [H|H]; contradiction. Qed.

Lemma not_elem_of_txt (x : ascii) (chars : str) :
  forallb (fun c => negb (bool_decide (x = c))) chars = true -> x ∉ chars.
Proof.
  intros H Hin. apply list_elem_of_In in Hin.
  rewrite forallb_forall in H. specialize (H x Hin).
  rewrite bool_decide_eq_true_2 in H by reflexivity. discriminate.
Qed.

(** The merge reads back the lines that [make_packages_section] writes. *)
Lemma section_entry_active (k v : str) :
  clean k = true -> clean v = true ->
  section_entry (active_line (k, v) ++ [LF]) = Some (k, v).
Proof.
  intros Hk Hv. apply clean_spec in Hk as (Hk1 & _ & Hk3).
  apply clean_spec in Hv as (Hv1 & _ & Hv3).
  unfold section_entry, active_line. cbn [fst snd].
  replace ((k ++ txt " = " ++ v) ++ [LF])
    with ((k ++ txt " ") ++ "="%char :: (txt " " ++ v ++ [LF]))
    by (rewrite <- !app_assoc; reflexivity).
  rewrite split_entry.
  - change (strip (k ++ txt " ")) with (strip ([] ++ k ++ txt " ")).
    rewrite (strip_pad [] k (txt " ")) by reflexivity.
    rewrite (strip_pad (txt " ") v [LF]) by reflexivity.
    rewrite Hk3, Hv3. reflexivity.
  - apply not_elem_of_app; [exact Hk1|]. apply not_elem_of_txt. reflexivity.
  - apply not_elem_of_app; [apply not_elem_of_txt; reflexivity|].
    apply not_elem_of_app; [exact Hv1|]. apply not_elem_of_txt. reflexivity.
Qed.

Lemma section_entry_inactive (k v : str) :
  name_ok k = true -> clean k = true -> clean v = true ->
  section_entry (inactive_line (k, v) ++ [LF]) = Some (txt "# " ++ k, v).
Proof.
  intros Hok Hk Hv. apply clean_spec in Hk as (Hk1 & _ & Hk3).
  apply clean_spec in Hv as (Hv1 & _ & Hv3).
  unfold section_entry, inactive_line. cbn [fst snd].
  replace ((txt "# " ++ k ++ txt " = " ++ v) ++ [LF])
    with ((txt "# " ++ k ++ txt " ") ++ "="%char :: (txt " " ++ v ++ [LF]))
    by (rewrite <- !app_assoc; reflexivity).
  rewrite split_entry.
  - replace (txt "# " ++ k ++ txt " ") with ([] ++ (txt "# " ++ k) ++ txt " ")
      by (rewrite <- !app_assoc; reflexivity).
    rewrite (strip_pad [] (txt "# " ++ k) (txt " ")) by reflexivity.
    rewrite (strip_pad (txt " ") v [LF]) by reflexivity.
    rewrite Hv3. rewrite strip_fixed_app; try reflexivity; try discriminate;
      [exact Hk3|].
    destruct (name_ok_head k Hok) as (c & k' & -> & _). discriminate.
  - apply not_elem_of_app; [apply not_elem_of_txt; reflexivity|].
    apply not_elem_of_app; [exact Hk1|]. apply not_elem_of_txt. reflexivity.
  - apply not_elem_of_app; [apply not_elem_of_txt; reflexivity|].
    apply not_elem_of_app; [exact Hv1|]. apply not_elem_of_txt. reflexivity.
Qed.

(** ** Lines of a text *)

Lemma readlines_line_ok (s l : str) : l ∈ readlines s -> line_ok l.
Proof.
  revert l. induction s as [|c s IH]; intros l; unfold readlines;
    fold readlines.
  - intros H. inversion H.
  - destruct (decide (c = LF)) as [->|Hc].
    + intros H. apply elem_of_cons in H as [->|H]; [|apply IH, H].
      exists []. split; [intros H; inversion H|left; reflexivity].
    + destruct (readlines s) as [|l0 ls].
      * intros H. apply list_elem_of_singleton in H as ->.
        exists [c]. split; [|right; reflexivity].
        intros H. apply list_elem_of_singleton in H. congruence.
      * intros H. apply elem_of_cons in H as [->|H]; [|apply IH; right; exact H].
        destruct (IH l0) as (body & Hbody & Hl0); [left|].
        exists (c :: body). split.
        -- intros H. apply elem_of_cons in H as [H|H]; [congruence|contradiction].
        -- destruct Hl0 as [->| ->]; [left|right]; reflexivity.
Qed.

Lemma concat_readlines (s : str) : concat (readlines s) = s.
Proof.
  induction s as [|c s IH]; unfold readlines; fold readlines; [reflexivity|].
  destruct (decide (c = LF)) as [->|Hc].
  - simpl. rewrite IH. reflexivity.
  - destruct (readlines s) as [|l0 ls]; simpl in *; rewrite <- IH; reflexivity.
Qed.

Lemma readlines_line (body rest : str) :
  LF ∉ body ->
  readlines (body ++ LF :: rest) = (body ++ [LF]) :: readlines rest.
Proof.
  induction body as [|c body IH]; intros Hbody; cbn [app];
    unfold readlines; fold readlines.
  - destruct (decide (LF = LF)); congruence.
  - destruct (decide (c = LF)) as [->|_]; [exfalso; apply Hbody; left|].
    rewrite IH; [reflexivity|]. intros H. apply Hbody. right. exact H.
Qed.

Lemma readlines_lines (lines : list str) (rest : str) :
  Forall (fun l => exists body, (LF ∉ body) /\ l = body ++ [LF]) lines ->
  readlines (concat lines ++ rest) = lines ++ readlines rest.
Proof.
  induction 1 as [|l lines (body & Hbody & ->) _ IH]; [reflexivity|].
  cbn [concat app]. rewrite <- !app_assoc. cbn [app].
  rewrite readlines_line by exact Hbody. rewrite IH. reflexivity.
Qed.

Lemma line_ok_ended (l : str) :
  line_ok l -> last l = Some LF -> exists body, (LF ∉ body) /\ l = body ++ [LF].
Proof.
  intros (body & Hbody & [->| ->]) Hlast; [eauto|].
  exfalso. apply Hbody. apply last_Some in Hlast as (l' & ->).
  apply elem_of_app. right. left.
Qed.

Lemma section_entry_clean (line k v : str) :
  line_ok line -> section_entry line = Some (k, v) ->
  clean k = true /\ clean v = true.
Proof.
  intros (body & Hbody & Hline). unfold section_entry.
  destruct (split "=" 2 line) as [|p0 [|p1 [|p2 ps]]] eqn:Hsplit;
    try discriminate.
  intros [= <- <-]. apply split_entry_inv in Hsplit as (Heq & H0 & H1).
  assert (Hlf : (LF ∉ p0) /\ exists q, (LF ∉ q) /\ (p1 = q \/ p1 = q ++ [LF])).
  { destruct Hline as [->| ->].
    - destruct (exists_last (l := "="%char :: p1)) as (q & z & Hq);
        [discriminate|].
      rewrite Hq, app_assoc in Heq. apply app_inj_tail in Heq as [Hb Hz].
      subst body z.
      split; [intros H; apply Hbody, elem_of_app; left; exact H|].
      destruct q as [|e q]; [vm_compute in Hq; discriminate|].
      cbn [app] in Hq. injection Hq as _ Hp1.
      exists q. split; [|right; exact Hp1].
      intros H. apply Hbody, elem_of_app. right. right. exact H.
    - subst body. split; [intros H; apply Hbody, elem_of_app; left; exact H|].
      exists p1. split; [|left; reflexivity].
      intros H. apply Hbody, elem_of_app. right. right. exact H. }
  destruct Hlf as (Hp0 & q & Hq & Hp1). split; apply clean_spec.
  - repeat split; [| |apply strip_idem];
      intros H; apply strip_sub in H; contradiction.
  - repeat split; [| |apply strip_idem].
    + intros H. apply strip_sub in H. contradiction.
    + assert (Hs : strip p1 = strip q).
      { destruct Hp1 as [->| ->]; [reflexivity|].
        apply (strip_pad [] q [LF]); reflexivity. }
      rewrite Hs. intros H. apply strip_sub in H. contradiction.
Qed.

(** ** What the merge keeps in its dictionary *)

Lemma keys_dict_set (k v : str) (d : dict) :
  keys (dict_set k v d) = if dict_in k d then keys d else keys d ++ [k].
Proof.
  unfold dict_in, keys. induction d as [|[k0 v0] d IH]; simpl; [reflexivity|].
  destruct (decide (k = k0)) as [->|Hne]; simpl; [reflexivity|].
  rewrite IH. destruct (dict_get k d); reflexivity.
Qed.

Lemma NoDup_dict_set (k v : str) (d : dict) :
  NoDup (keys d) -> NoDup (keys (dict_set k v d)).
Proof.
  intros Hd. rewrite keys_dict_set. destruct (dict_in k d) eqn:Hin; [exact Hd|].
  apply NoDup_app. repeat split; [exact Hd| |apply NoDup_singleton].
  intros x Hx Hk. apply list_elem_of_singleton in Hk as ->.
  apply dict_in_keys in Hx. congruence.
Qed.

Lemma NoDup_merge_section (lines : list str) (d : dict) :
  NoDup (keys d) -> NoDup (keys (merge_section d lines)).
Proof.
  revert d. induction lines as [|l lines IH]; intros d Hd; simpl; [exact Hd|].
  apply IH. unfold merge_entry.
  destruct (section_entry l) as [[k v]|]; [apply NoDup_dict_set|]; exact Hd.
Qed.

Lemma elem_dict_get (k v : str) (d : dict) :
  NoDup (keys d) -> (k, v) ∈ d -> dict_get k d = Some v.
Proof.
  induction d as [|[k0 v0] d IH]; simpl; intros Hd Hin; [inversion Hin|].
  apply NoDup_cons in Hd as [Hk0 Hd].
  apply elem_of_cons in Hin as [[= -> ->]|Hin].
  - destruct (decide (k0 = k0)); congruence.
  - destruct (decide (k = k0)) as [->|_]; [|apply IH; assumption].
    exfalso. apply Hk0. apply (list_elem_of_fmap_2 fst _ (k0, v)), Hin.
Qed.

Lemma merge_entry_grows (x : str) (d : dict) (line : str) :
  dict_in x d = true -> dict_in x (merge_entry d line) = true.
Proof.
  intros H. unfold merge_entry.
  destruct (section_entry line) as [[k v]|]; [|exact H].
  rewrite dict_in_set, H. apply orb_true_r.
Qed.

Lemma merge_section_grows (x : str) (lines : list str) (d : dict) :
  dict_in x d = true -> dict_in x (merge_section d lines) = true.
Proof.
  revert d. induction lines as [|l lines IH]; intros d H; simpl; [exact H|].
  apply IH, merge_entry_grows, H.
Qed.

(** Where a commented key of the merged dictionary comes from. *)
Lemma hash_origin (lines : list str) (d : dict) (h v : str) :
  startswith (txt "#") h = true ->
  dict_get h (merge_section d lines) = Some v ->
  dict_get h d = Some v
  \/ (dict_in (lstrip_chars (txt "# ") h) d = false
      /\ exists l, l ∈ lines /\ section_entry l = Some (h, v)).
Proof.
  intros Hh. revert d. induction lines as [|l lines IH]; intros d; cbn [merge_section fold_left].
  - auto.
  - intros H. destruct (IH _ H) as [H1|(Hout & l' & Hl' & Hentry)].
    + rewrite dict_get_merge_entry in H1.
      destruct (section_entry l) as [[k v']|] eqn:Hentry; [|auto].
      destruct (decide (h = target d k)) as [Heq|_]; [|auto].
      injection H1 as ->. right. unfold target in Heq.
      destruct (startswith (txt "#") k) eqn:Hk.
      * destruct (dict_in (lstrip_chars (txt "# ") k) d) eqn:Hin.
        -- rewrite Heq, lstrip_chars_not_hash in Hh. discriminate.
        -- subst k. split; [exact Hin|]. exists l. split; [left|exact Hentry].
      * subst k. congruence.
    + right. split.
      * destruct (dict_in (lstrip_chars (txt "# ") h) d) eqn:Hin; [|reflexivity].
        rewrite (merge_entry_grows _ d l Hin) in Hout. discriminate.
      * exists l'. split; [right; exact Hl'|exact Hentry].
Qed.

(** Where a key without comment mark comes from. *)
Lemma plain_origin (lines : list str) (d : dict) (k : str) :
  startswith (txt "#") k = false ->
  dict_in k (merge_section d lines) = true ->
  dict_in k d = true
  \/ exists l v, l ∈ lines /\ section_entry l = Some (k, v).
Proof.
  intros Hk. revert d. induction lines as [|l lines IH]; intros d; cbn [merge_section fold_left].
  - auto.
  - intros H. destruct (IH _ H) as [H1|(l' & v & Hl' & Hentry)].
    + unfold dict_in in H1. rewrite dict_get_merge_entry in H1.
      destruct (section_entry l) as [[k' v']|] eqn:Hentry; [|auto].
      destruct (decide (k = target d k')) as [Heq|_]; [|auto].
      destruct (target_cases d k') as [Ht|(_ & Ht & Hin)]; rewrite Ht in Heq.
      * subst k'. right. exists l, v'. split; [left|exact Hentry].
      * left. rewrite Heq. exact Hin.
    + right. exists l', v. split; [right; exact Hl'|exact Hentry].
Qed.

(** A key keeps its value through lines whose entries go elsewhere. *)
Lemma merge_section_untouched (x : str) (lines : list str) (d : dict) :
  (forall l k v, l ∈ lines -> section_entry l = Some (k, v) ->
     k <> x /\ lstrip_chars (txt "# ") k <> x) ->
  dict_get x (merge_section d lines) = dict_get x d.
Proof.
  revert d. induction lines as [|l lines IH]; intros d Hl; simpl; [reflexivity|].
  rewrite IH by (intros l' k v Hin; apply Hl; right; exact Hin).
  rewrite dict_get_merge_entry.
  destruct (section_entry l) as [[k v]|] eqn:Hentry; [|reflexivity].
  destruct (decide (x = target d k)) as [Heq|_]; [|reflexivity].
  exfalso. destruct (Hl l k v) as [H1 H2]; [left|exact Hentry|].
  destruct (target_cases d k) as [Ht|(_ & Ht & _)]; rewrite Ht in Heq; congruence.
Qed.

Lemma tidy_elem (d : dict) (k v : str) :
  tidy d = true -> (k, v) ∈ d ->
  name_ok k = true /\ clean k = true /\ clean v = true.
Proof.
  unfold tidy. intros H Hin. apply andb_true_iff in H as [_ H].
  rewrite forallb_forall in H. apply list_elem_of_In in Hin.
  specialize (H _ Hin). cbn [fst snd] in H.
  apply andb_true_iff in H as [H H3]. apply andb_true_iff in H as [H1 H2]. auto.
Qed.

Lemma tidy_good (d : dict) : tidy d = true -> good d.
Proof.
  intros H. split.
  - unfold tidy in H. apply andb_true_iff in H as [H _].
    apply bool_decide_eq_true_1 in H. exact H.
  - intros k v Hget. apply dict_get_elem in Hget.
    destruct (tidy_elem d k v H Hget) as (H1 & H2 & H3). auto.
Qed.

Lemma tidy_no_hash (d : dict) (k : str) :
  tidy d = true -> dict_in k d = true -> name_ok k = true.
Proof.
  intros H Hin. apply dict_in_get in Hin as [v Hget].
  apply dict_get_elem in Hget. apply (tidy_elem d k v H Hget).
Qed.

Lemma good_merge_section (lines : list str) (d : dict) :
  (forall l, l ∈ lines -> line_ok l) ->
  (forall l k v, l ∈ lines -> section_entry l = Some (k, v) ->
     startswith (txt "#") k = false -> name_ok k = true) ->
  good d -> good (merge_section d lines).
Proof.
  intros Hok Hplain [Hnd Hd]. split; [apply NoDup_merge_section, Hnd|].
  clear Hnd. revert d Hd.
  induction lines as [|l lines IH]; intros d Hd; [exact Hd|].
  cbn [merge_section fold_left].
  apply IH; [intros; apply Hok; right; assumption
            |intros l' k v Hl'; apply Hplain; right; exact Hl'|].
  intros x w. rewrite dict_get_merge_entry.
  destruct (section_entry l) as [[k v]|] eqn:Hentry; [|apply Hd].
  destruct (decide (x = target d k)) as [->|_]; [|apply Hd].
  intros [= <-].
  destruct (section_entry_clean l k v (Hok l ltac:(left)) Hentry) as [Hk Hv].
  destruct (target_cases d k) as [Ht|(_ & Ht & Hin)]; rewrite Ht.
  - repeat split; [exact Hk|exact Hv|]. apply (Hplain l k v); [left|exact Hentry].
  - apply dict_in_get in Hin as [v0 Hget].
    destruct (Hd _ _ Hget) as (H1 & _ & H3). auto.
Qed.

Lemma clean_no_lf (s : str) : clean s = true -> LF ∉ s.
Proof. intros H. apply clean_spec in H. tauto. Qed.

Lemma active_line_no_lf (k v : str) :
  clean k = true -> clean v = true -> LF ∉ active_line (k, v).
Proof.
  intros Hk Hv. unfold active_line. cbn [fst snd].
  apply not_elem_of_app; [apply clean_no_lf, Hk|].
  apply not_elem_of_app; [apply not_elem_of_txt; reflexivity|].
  apply clean_no_lf, Hv.
Qed.

Lemma inactive_is_active (k v : str) :
  inactive_line (k, v) = active_line (txt "# " ++ k, v).
Proof. unfold inactive_line, active_line. cbn [fst snd]. rewrite <- app_assoc. reflexivity. Qed.

Lemma active_line_hash (k v : str) :
  startswith (txt "#") k = true ->
  exists r, active_line (k, v) = "#"%char :: r.
Proof.
  intros H. apply startswith_prefix in H. unfold active_line. cbn [fst snd].
  rewrite H. eexists. reflexivity.
Qed.

Lemma active_line_plain (k v : str) :
  name_ok k = true ->
  exists c r, active_line (k, v) = c :: r /\ code "#" < code c.
Proof.
  intros H. destruct (name_ok_head k H) as (c & k' & -> & Hc).
  exists c. eexists. split; [reflexivity|exact Hc].
Qed.

Lemma plain_not_before_hash (x y : str) (c : ascii) (r r' : str) :
  x = c :: r -> code "#" < code c -> y = "#"%char :: r' -> str_le x y -> False.
Proof.
  intros -> Hc -> H. unfold str_le in H.
  rewrite (str_leb_first "#" c r' r Hc) in H. discriminate.
Qed.

Lemma active_line_order (k v w : str) :
  str_le (active_line (k, v)) (active_line (k, w)) -> str_le v w.
Proof.
  unfold str_le, active_line. cbn [fst snd]. rewrite !str_leb_app. trivial.
Qed.

Lemma lstrip_chars_plain (k : str) :
  name_ok k = true -> lstrip_chars (txt "# ") k = k.
Proof.
  intros H. destruct (name_ok_head k H) as (c & k' & -> & Hc).
  unfold lstrip_chars. cbn [lstrip_by].
  rewrite bool_decide_eq_false_2; [reflexivity|].
  intros Hin. apply list_elem_of_In in Hin. simpl in Hin.
  destruct Hin as [<-|[<-|[]]]; vm_compute in Hc; lia.
Qed.

(** ** The second run of the merge *)

Section SecondRun.

Variable st : state.
Variable sec : list str.

Hypothesis Hpackages : tidy (packages st) = true.
Hypothesis Hregistry : tidy (Packages st) = true.
Hypothesis Hlines : forall l, l ∈ sec -> line_ok l.
Hypothesis Hplain : forall l k v,
  l ∈ sec -> section_entry l = Some (k, v) ->
  startswith (txt "#") k = false -> name_ok k = true.
Hypothesis Hclash : forall l k0 v vG,
  l ∈ sec -> section_entry l = Some (txt "# " ++ k0, v) ->
  (k0, vG) ∈ Packages st -> str_le vG v.

(** The dictionary and the lines of the first run, and the dictionary that
    the second run reads from those lines. *)
Let M : dict := merge_section (packages st) sec.
Let L : list str := section_lines M st.
Let reread (lines : list str) : list str := map (fun x => x ++ [LF]) lines.
Let M' : dict := merge_section (packages st) (reread L).

Lemma first_run_good : good M.
Proof. apply good_merge_section; try assumption. apply tidy_good, Hpackages. Qed.

Lemma packages_not_hash (k : str) :
  startswith (txt "#") k = true -> dict_get k (packages st) = None.
Proof.
  intros Hk. destruct (dict_get k (packages st)) as [v|] eqn:Hget; [|reflexivity].
  assert (Hin : dict_in k (packages st) = true) by (apply dict_in_get; eauto).
  apply (tidy_no_hash _ _ Hpackages), name_ok_not_hash in Hin. congruence.
Qed.

(** A line of the first run and the entry that the second run reads from
    it: an active entry of the first dictionary, or a commented registry
    entry. *)
Lemma line_entry (y : str) :
  y ∈ L ->
  exists k v,
    y = active_line (k, v)
    /\ section_entry (y ++ [LF]) = Some (k, v)
    /\ (dict_get k M = Some v
        \/ exists k0, k = txt "# " ++ k0 /\ (k0, v) ∈ Packages st).
Proof.
  intros Hy. apply elem_of_sorted_set, elem_of_app in Hy as [Hy|Hy];
    apply list_elem_of_fmap in Hy as ([k v] & -> & Hin).
  - apply (elem_dict_get k v M (proj1 first_run_good)) in Hin.
    destruct (proj2 first_run_good k v Hin) as (Hk & Hv & _).
    exists k, v. split; [reflexivity|].
    split; [apply section_entry_active; assumption|left; exact Hin].
  - destruct (tidy_elem _ k v Hregistry Hin) as (Hok & Hk & Hv).
    exists (txt "# " ++ k), v. split; [apply inactive_is_active|].
    split; [apply section_entry_inactive; assumption|right; eauto].
Qed.

Lemma line_entry_reread (lines : list str) (l k v : str) :
  (forall y, y ∈ lines -> y ∈ L) ->
  l ∈ reread lines -> section_entry l = Some (k, v) ->
  exists y, y ∈ lines /\ y = active_line (k, v)
    /\ (dict_get k M = Some v
        \/ exists k0, k = txt "# " ++ k0 /\ (k0, v) ∈ Packages st).
Proof.
  intros Hsub Hl Hentry. apply list_elem_of_fmap in Hl as (y & -> & Hy).
  destruct (line_entry y (Hsub y Hy)) as (k' & v' & Hyk & Hentry' & Hfrom).
  rewrite Hentry in Hentry'. injection Hentry' as <- <-. eauto.
Qed.

Lemma line_head (k v : str) :
  (dict_get k M = Some v
   \/ exists k0, k = txt "# " ++ k0 /\ (k0, v) ∈ Packages st) ->
  (startswith (txt "#") k = true /\ exists r, active_line (k, v) = "#"%char :: r)
  \/ (name_ok k = true
      /\ exists c r, active_line (k, v) = c :: r /\ code "#" < code c).
Proof.
  intros Hfrom. destruct (startswith (txt "#") k) eqn:Hk.
  - left. split; [reflexivity|]. apply active_line_hash, Hk.
  - right. destruct Hfrom as [Hget|(k0 & -> & _)]; [|discriminate].
    destruct (proj2 first_run_good k v Hget) as (_ & _ & Hok).
    split; [apply Hok, Hk|]. apply active_line_plain, Hok, Hk.
Qed.

(** Every entry of the first dictionary is an entry of the second. *)
Lemma second_run_keeps (k v : str) :
  dict_get k M = Some v -> dict_get k M' = Some v.
Proof.
  intros Hget.
  assert (Hx : active_line (k, v) ∈ L).
  { apply elem_of_sorted_set, elem_of_app. left.
    apply (list_elem_of_fmap_2 active_line _ (k, v)), dict_get_elem, Hget. }
  destruct (list_elem_of_split _ _ Hx) as (l1 & l2 & HL).
  assert (Hlater : forall y, y ∈ l2 ->
            str_le (active_line (k, v)) y /\ y <> active_line (k, v))
    by (intros y; apply (sorted_set_later _ l1 l2 _ y HL)).
  assert (Hearlier : forall y, y ∈ l1 ->
            str_le y (active_line (k, v)) /\ y <> active_line (k, v))
    by (intros y; apply (sorted_set_earlier _ l1 l2 _ y HL)).
  assert (Hsub1 : forall y, y ∈ l1 -> y ∈ L)
    by (intros y Hy; rewrite HL; apply elem_of_app; left; exact Hy).
  assert (Hsub2 : forall y, y ∈ l2 -> y ∈ L)
    by (intros y Hy; rewrite HL; apply elem_of_app; right; right; exact Hy).
  destruct (proj2 first_run_good k v Hget) as (Hck & Hcv & _).
  pose proof (section_entry_active k v Hck Hcv) as Hentry.
  subst M'. rewrite HL. unfold reread. rewrite map_app, merge_section_app.
  change (dict_get k
            (merge_section
               (merge_entry (merge_section (packages st) (reread l1))
                  (active_line (k, v) ++ [LF])) (reread l2)) = Some v).
  set (D := merge_section (packages st) (reread l1)).
  destruct (line_head k v (or_introl Hget))
    as [(Hk & r & Hxr)|(Hok & c & r & Hxr & Hc)].
  - (* a commented key *)
    destruct (hash_origin sec _ k v Hk Hget) as [HP|(Hout & l0 & Hl0 & Hentry0)];
      [rewrite (packages_not_hash k Hk) in HP; discriminate|].
    assert (HD : dict_in (lstrip_chars (txt "# ") k) D = false).
    { destruct (dict_in (lstrip_chars (txt "# ") k) D) eqn:HD; [|reflexivity].
      exfalso.
      destruct (plain_origin _ _ _ (lstrip_chars_not_hash k) HD)
        as [HP|(l & v0 & Hl & He)]; [congruence|].
      destruct (line_entry_reread l1 l _ v0 Hsub1 Hl He) as (y & Hy & Hyk & Hfrom).
      destruct (line_head _ v0 Hfrom) as [(Hh & _)|(_ & c & r' & Hyr & Hc)].
      + rewrite lstrip_chars_not_hash in Hh. discriminate.
      + rewrite <- Hyk in Hyr.
        apply (plain_not_before_hash y _ c r' r Hyr Hc Hxr).
        apply Hearlier, Hy. }
    assert (Hstep : merge_entry D (active_line (k, v) ++ [LF]) = dict_set k v D).
    { unfold merge_entry, target. rewrite Hentry, Hk, HD. reflexivity. }
    rewrite Hstep, merge_section_untouched.
    + rewrite dict_get_set. destruct (decide (k = k)); congruence.
    + intros l k' v' Hl He. split.
      * intros ->.
        destruct (line_entry_reread l2 l _ v' Hsub2 Hl He) as (y & Hy & Hyk & Hfrom).
        destruct (Hlater y Hy) as [Hle Hne]. apply Hne. rewrite Hyk. f_equal. f_equal.
        destruct Hfrom as [Hget'|(k0 & Hk0 & HG)]; [congruence|].
        apply str_le_antisym.
        -- apply (Hclash l0 k0 v v' Hl0); [rewrite <- Hk0; exact Hentry0|exact HG].
        -- rewrite Hyk in Hle. apply (active_line_order _ _ _ Hle).
      * intros Heq. rewrite <- Heq, lstrip_chars_not_hash in Hk. discriminate.
  - (* a name *)
    assert (Hstep : merge_entry D (active_line (k, v) ++ [LF]) = dict_set k v D).
    { unfold merge_entry, target.
      rewrite Hentry, (name_ok_not_hash k Hok). reflexivity. }
    rewrite Hstep, merge_section_untouched.
    + rewrite dict_get_set. destruct (decide (k = k)); congruence.
    + intros l k' v' Hl He.
      destruct (line_entry_reread l2 l _ v' Hsub2 Hl He) as (y & Hy & Hyk & Hfrom).
      destruct (Hlater y Hy) as [Hle Hne].
      destruct (line_head _ v' Hfrom) as [(_ & r' & Hyr)|(Hok' & _)].
      * exfalso. rewrite <- Hyk in Hyr.
        apply (plain_not_before_hash _ y c r r' Hxr Hc Hyr Hle).
      * rewrite (lstrip_chars_plain k' Hok').
        assert (Hkk : k' <> k); [|tauto]. intros ->.
        apply Hne. rewrite Hyk. f_equal. f_equal.
        destruct Hfrom as [Hget'|(k0 & Hk0 & _)]; [congruence|].
        rewrite Hk0 in Hok. discriminate.
Qed.

(** Every entry of the second dictionary is one of the first, or the
    commented form of a registry entry. *)
Lemma second_run_origin (k v : str) :
  dict_get k M' = Some v ->
  dict_get k M = Some v
  \/ exists k0, k = txt "# " ++ k0 /\ (k0, v) ∈ Packages st.
Proof.
  intros Hget. destruct (startswith (txt "#") k) eqn:Hk.
  - destruct (hash_origin _ _ k v Hk Hget) as [HP|(_ & l & Hl & He)];
      [rewrite (packages_not_hash k Hk) in HP; discriminate|].
    destruct (line_entry_reread L l k v (fun y H => H) Hl He) as (_ & _ & _ & H).
    exact H.
  - left.
    assert (HM : exists v0, dict_get k M = Some v0).
    { assert (Hin : dict_in k M' = true) by (apply dict_in_get; eauto).
      destruct (plain_origin _ _ k Hk Hin) as [HP|(l & v0 & Hl & He)].
      - apply dict_in_get. apply merge_section_grows, HP.
      - destruct (line_entry_reread L l k v0 (fun y H => H) Hl He)
          as (_ & _ & _ & [H|(k0 & -> & _)]); [eauto|discriminate]. }
    destruct HM as [v0 HM]. pose proof (second_run_keeps k v0 HM) as H.
    rewrite Hget in H. injection H as ->. exact HM.
Qed.

(** The second run writes the lines of the first. *)
Lemma second_run_lines : section_lines M' st = L.
Proof.
  unfold L, section_lines. apply sorted_set_ext. intros x.
  rewrite !elem_of_app. split; (intros [Hx|Hx]; [|right; exact Hx]).
  - apply list_elem_of_fmap in Hx as ([k v] & -> & Hin).
    apply elem_dict_get in Hin;
      [|apply NoDup_merge_section, (proj1 (tidy_good _ Hpackages))].
    destruct (second_run_origin k v Hin) as [HM|(k0 & -> & HG)].
    + left. apply (list_elem_of_fmap_2 active_line _ (k, v)), dict_get_elem, HM.
    + right. rewrite <- inactive_is_active.
      apply (list_elem_of_fmap_2 inactive_line _ (k0, v)), HG.
  - apply list_elem_of_fmap in Hx as ([k v] & -> & Hin).
    apply (elem_dict_get k v M (proj1 first_run_good)) in Hin.
    left. apply (list_elem_of_fmap_2 active_line _ (k, v)), dict_get_elem.
    apply second_run_keeps, Hin.
Qed.

Lemma line_no_lf (y : str) : y ∈ L -> LF ∉ y.
Proof.
  intros Hy. destruct (line_entry y Hy) as (k & v & -> & _ & [Hget|(k0 & -> & HG)]).
  - destruct (proj2 first_run_good k v Hget) as (Hk & Hv & _).
    apply active_line_no_lf; assumption.
  - destruct (tidy_elem _ k0 v Hregistry HG) as (_ & Hk & Hv).
    rewrite <- inactive_is_active. unfold inactive_line. cbn [fst snd].
    apply not_elem_of_app; [apply not_elem_of_txt; reflexivity|].
    apply (active_line_no_lf k0 v Hk Hv).
Qed.

End SecondRun.

(** ** The merge run twice *)

Lemma join_lines (sep : str) (lines : list str) :
  lines <> [] ->
  join sep lines ++ sep = concat (map (fun x => x ++ sep) lines).
Proof.
  induction lines as [|x lines IH]; [contradiction|]. intros _.
  destruct lines as [|y lines].
  - simpl. rewrite app_nil_r. reflexivity.
  - change (join sep (x :: y :: lines)) with (x ++ sep ++ join sep (y :: lines)).
    rewrite <- !app_assoc, IH by discriminate. cbn [map concat].
    rewrite <- !app_assoc. reflexivity.
Qed.

Lemma front_no_header (lines : list str) :
  Forall (fun l => is_header l = false) (front lines).
Proof.
  induction lines as [|l lines IH]; simpl; [constructor|].
  destruct (is_header l) eqn:Hl; constructor; assumption.
Qed.

Lemma front_elem (lines : list str) (l : str) : l ∈ front lines -> l ∈ lines.
Proof.
  induction lines as [|x lines IH]; simpl; [trivial|].
  destruct (is_header x); [intros H; inversion H|].
  intros H. apply elem_of_cons in H as [->|H]; [left|right; apply IH, H].
Qed.

Lemma section_of_elem (lines : list str) (l : str) :
  l ∈ section_of lines -> l ∈ lines.
Proof.
  induction lines as [|x lines IH]; simpl; [trivial|].
  destruct (is_header x); intros H; right; [exact H|apply IH, H].
Qed.

Lemma merged_ini_again (old : str) (st : state) :
  tidy (packages st) = true ->
  tidy (Packages st) = true ->
  Forall (fun l => last l = Some LF) (front (readlines old)) ->
  (forall l k v,
     l ∈ section_of (readlines old) -> section_entry l = Some (k, v) ->
     startswith (txt "#") k = false -> name_ok k = true) ->
  (forall l k0 v vG,
     l ∈ section_of (readlines old) ->
     section_entry l = Some (txt "# " ++ k0, v) ->
     (k0, vG) ∈ Packages st -> str_le vG v) ->
  merged_ini (merged_ini old st) st = merged_ini old st.
Proof.
  intros HP HG Hfront Hplain Hclash.
  assert (Hok : forall l, l ∈ section_of (readlines old) -> line_ok l)
    by (intros l Hl; apply (readlines_line_ok old), section_of_elem, Hl).
  set (F := front (readlines old)).
  set (M := merged_packages old st).
  set (L := section_lines M st).
  assert (Hout : merged_ini old st
                 = concat F ++ (txt "[Packages]" ++ LF :: (join [LF] L ++ [LF])))
    by (rewrite merged_ini_parts; reflexivity).
  assert (Hread : readlines (merged_ini old st)
                  = F ++ (txt "[Packages]" ++ [LF])
                      :: readlines (join [LF] L ++ [LF])).
  { rewrite Hout, readlines_lines, readlines_line; [reflexivity| |].
    - apply not_elem_of_txt. reflexivity.
    - apply Forall_forall. intros l Hl. apply line_ok_ended.
      + apply (readlines_line_ok old), front_elem, Hl.
      + rewrite Forall_forall in Hfront. apply Hfront, Hl. }
  destruct (section_of_split F (readlines (join [LF] L ++ [LF]))
              (txt "[Packages]" ++ [LF]) (front_no_header _) eq_refl)
    as [Hf Hs].
  assert (Hsection : merge_section (packages st)
                       (readlines (join [LF] L ++ [LF]))
                     = merge_section (packages st) (map (fun x => x ++ [LF]) L)).
  { destruct L as [|x L'] eqn:HL; [reflexivity|].
    rewrite join_lines by discriminate.
    rewrite <- (app_nil_r (concat _)), readlines_lines.
    - rewrite app_nil_r. reflexivity.
    - apply Forall_forall. intros l Hl.
      apply list_elem_of_fmap in Hl as (y & -> & Hy). exists y. split; [|reflexivity].
      apply (line_no_lf st (section_of (readlines old)) HP HG Hok Hplain).
      fold (merged_packages old st). fold M. fold L. rewrite HL. exact Hy. }
  rewrite merged_ini_parts at 1. unfold merged_packages at 1.
  rewrite Hread, Hf, Hs, Hsection. unfold make_packages_section.
  subst L M F. unfold merged_packages.
  rewrite (second_run_lines st (section_of (readlines old))
             HP HG Hok Hplain Hclash).
  rewrite merged_ini_parts. reflexivity.
Qed.

Lemma maybe_update_ini_none (text : str) (st : state) :
  maybe_update_ini text st = None <-> merged_ini text st = text.
Proof.
  unfold maybe_update_ini. rewrite concat_readlines.
  destruct (decide (merged_ini text st = text)) as [Heq|Hne].
  - rewrite bool_decide_eq_false_2 by tauto. tauto.
  - rewrite bool_decide_eq_true_2 by exact Hne. split; [discriminate|contradiction].
Qed.

Lemma ini_after_merged (old : str) (st : state) :
  ini_after old st = merged_ini old st.
Proof.
  unfold ini_after.
  destruct (maybe_update_ini old st) as [new|] eqn:Hrun.
  - unfold maybe_update_ini in Hrun.
    destruct (bool_decide _) in Hrun; [|discriminate].
    injection Hrun as <-. reflexivity.
  - apply maybe_update_ini_none in Hrun. symmetry. exact Hrun.
Qed.

(** C1, as the code has it.  The file is written exactly when the
    reconstructed text differs from the text on the disk.  And the merge is
    idempotent for a registry and a package set whose names and resolver ids
    are as [read_ini] stores them (stripped, without equals sign or line
    feed) with names that begin after the comment mark in character order,
    as letters do, on a settings file in which every line in front of the
    Packages section ends with a line feed, every uncommented key of the
    section is such a name, and no commented entry [# name = id] for a name
    of the registry carries an id that sorts before the registry's: then the
    second run reconstructs the text that the first run left and writes
    nothing. *)
Theorem merge_idempotent (old : str) (st : state) :
  tidy (packages st) = true ->
  tidy (Packages st) = true ->
  Forall (fun l => last l = Some LF) (front (readlines old)) ->
  (forall l k v,
     l ∈ section_of (readlines old) -> section_entry l = Some (k, v) ->
     startswith (txt "#") k = false -> name_ok k = true) ->
  (forall l k0 v vG,
     l ∈ section_of (readlines old) ->
     section_entry l = Some (txt "# " ++ k0, v) ->
     (k0, vG) ∈ Packages st -> str_le vG v) ->
  merged_ini (ini_after old st) st = ini_after old st
  /\ maybe_update_ini (ini_after old st) st = None
  /\ (forall text,
        maybe_update_ini text st = None <-> merged_ini text st = text).
Proof.
  intros HP HG Hfront Hplain Hclash.
  pose proof (merged_ini_again old st HP HG Hfront Hplain Hclash) as Hagain.
  rewrite ini_after_merged. split; [exact Hagain|]. split.
  - apply maybe_update_ini_none, Hagain.
  - intros text. apply maybe_update_ini_none.
Qed.

Lemma merge_idempotent_witness :
  let st := set_packages [(txt "Gtk", txt "gtk+-3.0")]
              (set_Packages [(txt "Gee", txt "gee-0.8"); (txt "Gio", txt "gio-2.0")]
                 (Model_init [] [] [] false)) in
  let old := txt "[General]" ++ [LF] ++ txt "[Packages]" ++ [LF]
               ++ txt "# Gee = gee-0.9" ++ [LF] ++ txt "Gtk = gtk+-3.0" ++ [LF] in
  ini_after old st
    = txt "[General]" ++ [LF] ++ txt "[Packages]" ++ [LF]
        ++ txt "# Gee = gee-0.8" ++ [LF] ++ txt "# Gee = gee-0.9" ++ [LF]
        ++ txt "# Gio = gio-2.0" ++ [LF] ++ txt "Gtk = gtk+-3.0" ++ [LF]
  /\ maybe_update_ini (ini_after old st) st = None.
Proof.
  intros st old. split; [vm_compute; reflexivity|].
  refine (proj1 (proj2 (merge_idempotent old st _ _ _ _ _)));
    try (vm_compute; reflexivity).
  - repeat constructor.
  - intros l k v Hl He Hk. apply list_elem_of_In in Hl. vm_compute in Hl.
    destruct Hl as [<-|[<-|[]]]; vm_compute in He;
      injection He as <- <-; vm_compute in Hk; (discriminate || reflexivity).
  - intros l k0 v vG Hl He HG.
    apply list_elem_of_In in Hl. vm_compute in Hl.
    apply list_elem_of_In in HG. vm_compute in HG.
    destruct Hl as [<-|[<-|[]]]; vm_compute in He; try discriminate.
    injection He as <- <-.
    destruct HG as [HG|[HG|[]]]; try discriminate HG.
    injection HG as <-. vm_compute. reflexivity.
Defined.

(** C1 as the claim states it fails in three ways, each on a second run
    that writes a text other than the one the first run left: a commented
    entry with an older resolver id than the registry's; a file without a
    Packages section whose last line has no line feed; and a key that sorts
    before the comment mark. *)
Lemma merge_not_idempotent :
  let st := Model_init [] [] [] false in
  let bare := set_Packages [] st in
  let run := fun text s => maybe_update_ini text s in
  (exists x1 x2,
     run (txt "[Packages]" ++ [LF] ++ txt "# Gtk = gtk+-2.0" ++ [LF]) st = Some x1
     /\ run x1 st = Some x2 /\ x1 <> x2)
  /\ (exists x1 x2,
        run (txt "[General]") bare = Some x1
        /\ run x1 bare = Some x2 /\ x1 <> x2)
  /\ (exists x1 x2,
        run (txt "[Packages]" ++ [LF] ++ txt "# !a = 2" ++ [LF]
               ++ txt "!a = 1" ++ [LF]) bare = Some x1
        /\ run x1 bare = Some x2 /\ x1 <> x2).
Proof.
  repeat split; eexists; eexists;
    (split; [vm_compute; reflexivity|split; [vm_compute; reflexivity|discriminate]]).
Qed.

(** ** After the last pending package

    [update_packages] compiles a new alternation only while names remain
    pending; when the registry becomes empty the scanner keeps the pattern
    that still holds the last name.  On Windows with an archive asked for
    and no version found yet the scan goes on, and the next line that names
    that package ends it with [KeyError].  The same happens at the first
    word boundary when the registry is empty from the start, where the
    alternation is compiled from no name at all. *)
Lemma emptied_registry_raises :
  let only_gtk := set_Packages [(txt "Gtk", txt "gtk+-3.0")]
                    (Model_init [] [] [] true) in
  let none := set_Packages [] (Model_init [] [] [] true) in
  scan true
    [(txt "main.vala",
      txt "Gtk.init(ref args);" ++ [LF] ++ txt "Gtk.main();" ++ [LF])]
    only_gtk
  = Raise (KeyError (txt "Gtk"))
  /\ handled_by_main (KeyError (txt "Gtk")) = false
  /\ scan true [(txt "main.vala", txt "void main() {}" ++ [LF])] none
     = Raise (KeyError []).
Proof. vm_compute. repeat split; reflexivity. Qed.

(** * Further properties *)

(** ** Reading the master file *)

Lemma read_ini_item_master (glob : str -> list str) (category : Category)
    (line : str) (st : state) :
  exists st',
    read_ini_item glob category line true st = Ok st'
    /\ packages st' = packages st
    /\ forall k, dict_in k (Packages st) = true ->
                 dict_in k (Packages st') = true.
Proof.
  unfold read_ini_item.
  destruct (is_template category).
  { eexists. split; [reflexivity|].
    destruct (add_template_line_registry category line st) as [-> ->]. auto. }
  destruct (decide (category = EXTRA_FILES)).
  { eexists. split; [reflexivity|]. split; [reflexivity|auto]. }
  destruct (split "=" 2 line) as [|p0 [|p1 [|p2 ps]]];
    try (eexists; split; [reflexivity|]; split; [reflexivity|auto]).
  destruct (decide (category = PACKAGES)).
  - eexists. split; [reflexivity|]. split; [reflexivity|].
    intros k Hk. cbn [set_Packages Packages]. rewrite dict_in_set, Hk.
    apply orb_true_r.
  - eexists. split; [reflexivity|].
    destruct (set_general_item_registry (casefold (strip p0)) (strip p1) st)
      as [-> ->]. auto.
Qed.

Lemma read_ini_category_registry (category : Category) (line : str)
    (st : state) :
  Packages (read_ini_category category line st).2 = Packages st
  /\ packages (read_ini_category category line st).2 = packages st.
Proof.
  unfold read_ini_category. destruct (find_char "]" line); [|split; reflexivity].
  repeat (destruct (decide _); [split; reflexivity|]). split; reflexivity.
Qed.

Lemma read_ini_line_master (glob : str -> list str) (cs : Category * state)
    (line : str) :
  exists cs',
    read_ini_line glob true cs line = Ok cs'
    /\ packages cs'.2 = packages cs.2
    /\ forall k, dict_in k (Packages cs.2) = true ->
                 dict_in k (Packages cs'.2) = true.
Proof.
  destruct cs as [category st]. unfold read_ini_line.
  destruct (negb (startswith (txt "[") line) && is_template category).
  { eexists. split; [reflexivity|]. cbn [snd].
    destruct (add_template_line_registry category line st) as [-> ->]. auto. }
  destruct (bool_decide (strip line = []) || startswith (txt "#") (strip line)).
  { eexists. split; [reflexivity|]. auto. }
  destruct (startswith (txt "[") (strip line)).
  { eexists. split; [reflexivity|].
    destruct (read_ini_category_registry category (strip line) st) as [-> ->].
    auto. }
  destruct (read_ini_item_master glob category (strip line) st)
    as (st' & -> & Hp & HG).
  eexists. split; [reflexivity|]. auto.
Qed.

(** X1: once the master settings file is opened and decoded, the reading
    of its text never raises, whatever the text, as long as the expansion
    of file names returns for the patterns of its extra files; it leaves
    the project's packages alone, and no name of the registry gets
    lost. *)
Theorem master_read_never_raises (glob : str -> list str) (text : str)
    (st : state) :
  exists st',
    read_ini glob text true st = Ok st'
    /\ packages st' = packages st
    /\ forall k, dict_in k (Packages st) = true ->
                 dict_in k (Packages st') = true.
Proof.
  unfold read_ini.
  assert (H : forall lines cs, exists cs',
            read_ini_lines glob true lines cs = Ok cs'
            /\ packages cs'.2 = packages cs.2
            /\ forall k, dict_in k (Packages cs.2) = true ->
                         dict_in k (Packages cs'.2) = true).
  { induction lines as [|l lines IH]; intros cs; simpl.
    - exists cs. auto.
    - destruct (read_ini_line_master glob cs l) as (cs1 & -> & Hp1 & HG1).
      destruct (IH cs1) as (cs2 & H2 & Hp2 & HG2). exists cs2.
      split; [exact H2|]. split; [congruence|auto]. }
  destruct (H (readlines text) (GENERAL, st)) as (cs' & -> & Hp & HG).
  exists cs'.2. auto.
Qed.

(** ** Reading a project's file *)

Lemma read_ini_item_raises (glob : str -> list str) (category : Category)
    (line : str) (master : bool) (st : state) (e : exn) :
  read_ini_item glob category line master st = Raise e ->
  master = false /\ category = PACKAGES
  /\ exists key value,
       package_entry line = Some (key, value)
       /\ dict_in key (Packages st) = false /\ e = KeyError key.
Proof.
  unfold read_ini_item, package_entry.
  destruct (is_template category); [discriminate|].
  destruct (decide (category = EXTRA_FILES)); [discriminate|].
  destruct (split "=" 2 line) as [|p0 [|p1 [|p2 ps]]]; try discriminate.
  destruct (decide (category = PACKAGES)); [|discriminate].
  destruct master; [discriminate|]. cbn [set_packages Packages].
  destruct (dict_in _ (Packages st)) eqn:Hin; [discriminate|].
  intros [= <-]. repeat split; try assumption. eauto.
Qed.

Lemma read_ini_line_raises (glob : str -> list str) (master : bool)
    (category : Category) (st : state) (line : str) (e : exn) :
  read_ini_line glob master (category, st) line = Raise e ->
  master = false /\ category = PACKAGES
  /\ is_item (strip line) = true
  /\ exists key value,
       package_entry (strip line) = Some (key, value)
       /\ dict_in key (Packages st) = false /\ e = KeyError key.
Proof.
  unfold read_ini_line, is_item.
  destruct (negb _ && _); [discriminate|].
  destruct (bool_decide (strip line = [])); [discriminate|].
  destruct (startswith (txt "#") (strip line)); [discriminate|].
  destruct (startswith (txt "[") (strip line)); [discriminate|].
  cbn [orb negb andb].
  destruct (read_ini_item glob category (strip line) master st) as [st1|e1]
    eqn:Hitem; [discriminate|].
  cbn [mbind result_bind]. intros [= ->].
  destruct (read_ini_item_raises _ _ _ _ _ _ Hitem) as (Hm & Hc & Hrest).
  split; [exact Hm|]. split; [exact Hc|]. split; [reflexivity|exact Hrest].
Qed.

Lemma read_ini_lines_raises (glob : str -> list str) (master : bool)
    (lines : list str) (cs : Category * state) (e : exn) :
  read_ini_lines glob master lines cs = Raise e ->
  master = false
  /\ exists before line after st1 key value,
       lines = before ++ line :: after
       /\ read_ini_lines glob master before cs = Ok (PACKAGES, st1)
       /\ is_item (strip line) = true
       /\ package_entry (strip line) = Some (key, value)
       /\ dict_in key (Packages st1) = false
       /\ e = KeyError key.
Proof.
  revert cs. induction lines as [|l lines IH]; intros cs; [discriminate|].
  cbn [read_ini_lines].
  destruct (read_ini_line glob master cs l) as [cs1|e1] eqn:Hl;
    cbn [mbind result_bind].
  - intros Hrest.
    destruct (IH cs1 Hrest)
      as (Hm & before & line & after & st1 & key & value
          & -> & Hbefore & Hitem & Hentry & Hin & He).
    split; [exact Hm|].
    exists (l :: before), line, after, st1, key, value.
    split; [reflexivity|]. split; [|tauto].
    cbn [read_ini_lines]. rewrite Hl. cbn [mbind result_bind]. exact Hbefore.
  - intros [= ->]. destruct cs as [category st0].
    destruct (read_ini_line_raises glob master category st0 l e Hl)
      as (Hm & -> & Hitem & key & value & Hentry & Hin & He).
    split; [exact Hm|].
    exists [], l, lines, st0, key, value.
    split; [reflexivity|]. split; [reflexivity|tauto].
Qed.

(** X2: once a settings file is opened and decoded, and as long as the
    expansion of file names returns, the reading of its text fails in one
    way only.  The file is a project's file, the parser has come through
    the lines before the failing one to the Packages section, the failing
    line is an entry there (no blank line, no comment, no bracket line)
    with exactly one equals sign, the registry as it is at that line does
    not hold the entry's title-cased key, and the failure is the
    [KeyError] of that key, which [main] does not catch. *)
Theorem read_ini_raises_only_key_error (glob : str -> list str) (text : str)
    (master : bool) (st : state) (e : exn) :
  read_ini glob text master st = Raise e ->
  master = false
  /\ handled_by_main e = false
  /\ exists before line after st1 key value,
       readlines text = before ++ line :: after
       /\ read_ini_lines glob false before (GENERAL, st) = Ok (PACKAGES, st1)
       /\ is_item (strip line) = true
       /\ package_entry (strip line) = Some (key, value)
       /\ dict_in key (Packages st1) = false
       /\ e = KeyError key.
Proof.
  unfold read_ini.
  destruct (read_ini_lines glob master (readlines text) (GENERAL, st))
    as [cs|e1] eqn:Hrun; [discriminate|].
  cbn [mbind result_bind]. intros [= ->].
  destruct (read_ini_lines_raises glob master _ _ e Hrun)
    as (-> & before & line & after & st1 & key & value
        & Hlines & Hbefore & Hitem & Hentry & Hin & ->).
  split; [reflexivity|]. split; [reflexivity|].
  exists before, line, after, st1, key, value. tauto.
Qed.

Lemma read_ini_raises_only_key_error_witness :
  read_ini (fun _ => [])
    (txt "[Packages]" ++ [LF] ++ txt "Foo = foo-1.0" ++ [LF]) false
    (Model_init [] [] [] false)
  = Raise (KeyError (txt "Foo"))
  /\ handled_by_main (KeyError (txt "Foo")) = false.
Proof.
  split; [vm_compute; reflexivity|].
  exact (proj1 (proj2 (read_ini_raises_only_key_error (fun _ => [])
           (txt "[Packages]" ++ [LF] ++ txt "Foo = foo-1.0" ++ [LF]) false
           (Model_init [] [] [] false) (KeyError (txt "Foo")) eq_refl))).
Defined.

Lemma strip_head (c : ascii) (s : str) :
  isspace c = false -> exists r, strip (c :: s) = c :: r.
Proof.
  intros Hc. unfold strip. cbn [lstrip_by]. rewrite Hc.
  destruct (rstrip_by_prefix isspace (c :: s)) as (b & Hx & Hb).
  destruct (rstrip_by isspace (c :: s)) as [|x r].
  - simpl in Hx. subst b. simpl in Hb. rewrite Hc in Hb. discriminate.
  - injection Hx as <- _. eauto.
Qed.

Lemma bracket_line_read (glob : str -> list str) (master : bool)
    (category : Category) (st : state) (line : str) :
  startswith (txt "[") line = true ->
  read_ini_line glob master (category, st) line
  = Ok (read_ini_category category (strip line) st).
Proof.
  intros Hb. unfold read_ini_line. rewrite Hb. cbn [negb andb].
  destruct line as [|c s]; [discriminate|]. simpl in Hb.
  destruct (decide ("["%char = c)) as [<-|]; [|discriminate].
  destruct (strip_head "[" s eq_refl) as [r ->].
  rewrite bool_decide_eq_false_2 by discriminate. reflexivity.
Qed.

Lemma template_lines_read (glob : str -> list str) (master : bool)
    (category : Category) (body : list str) (st : state) :
  is_template category = true ->
  Forall (fun l => startswith (txt "[") l = false) body ->
  exists st',
    read_ini_lines glob master body (category, st) = Ok (category, st')
    /\ template_text category st' = template_text category st ++ concat body
    /\ Packages st' = Packages st /\ packages st' = packages st
    /\ extra_files st' = extra_files st.
Proof.
  intros Hc Hbody. revert st.
  induction Hbody as [|l body Hl _ IH]; intros st.
  - exists st. rewrite app_nil_r. repeat split; reflexivity.
  - cbn [read_ini_lines]. unfold read_ini_line. rewrite Hl, Hc.
    cbn [negb andb mbind result_bind].
    destruct (IH (add_template_line category l st))
      as (st' & Hrun & Ht & HG & HP & HE).
    exists st'. split; [exact Hrun|]. rewrite Ht, HG, HP, HE.
    destruct category; try discriminate; cbn [concat]; rewrite app_assoc;
      repeat split; reflexivity.
Qed.

(** X3: the lines that follow a template's bracket line are the template,
    character for character, up to the next line that begins with a
    bracket: blank lines and lines that begin with the comment mark are part
    of it, and what the model held for that template before is gone. *)
Theorem template_read_verbatim (glob : str -> list str) (master : bool)
    (category0 category : Category) (hdr name : str) (body : list str)
    (st : state) :
  startswith (txt "[") hdr = true ->
  bracket_name (strip hdr) = Some name ->
  template_named name = Some category ->
  Forall (fun l => startswith (txt "[") l = false) body ->
  exists st',
    read_ini_lines glob master (hdr :: body) (category0, st)
    = Ok (category, st')
    /\ template_text category st' = concat body
    /\ Packages st' = Packages st /\ packages st' = packages st
    /\ extra_files st' = extra_files st.
Proof.
  intros Hhdr Hname Hcat Hbody. cbn [read_ini_lines].
  rewrite (bracket_line_read glob master category0 st hdr Hhdr).
  rewrite read_ini_category_bracket, Hname. unfold template_named in Hcat.
  cbn [mbind result_bind].
  destruct (decide (name = txt "packages")) as [->|_]; [discriminate|].
  destruct (decide (name = txt "extrafiles")) as [->|_]; [discriminate|].
  repeat (destruct (decide (name = _)) as [->|_];
    [injection Hcat as <-;
     match goal with |- context [read_ini_lines _ _ _ (?c, ?s)] =>
       destruct (template_lines_read glob master c body s eq_refl Hbody)
         as (st' & Hrun & Ht & HG & HP & HE)
     end;
     exists st'; repeat split; assumption|]).
  discriminate.
Qed.

Lemma template_read_verbatim_witness :
  exists st',
    read_ini (fun _ => [])
      (txt "[AppTemplate]" ++ [LF] ++ txt "# a comment" ++ [LF] ++ [LF]
         ++ txt "  void main() {}" ++ [LF])
      true (Model_init (txt "old") [] [] false) = Ok st'
    /\ app_template st'
       = txt "# a comment" ++ [LF] ++ [LF] ++ txt "  void main() {}" ++ [LF].
Proof.
  destruct (template_read_verbatim (fun _ => []) true GENERAL APP_TEMPLATE
              (txt "[AppTemplate]" ++ [LF]) (txt "apptemplate")
              [txt "# a comment" ++ [LF]; [LF]; txt "  void main() {}" ++ [LF]]
              (Model_init (txt "old") [] [] false))
    as (st' & Hrun & Ht & _); try reflexivity.
  - repeat constructor.
  - exists st'. split; [|exact Ht]. unfold read_ini.
    change (readlines _) with
      ((txt "[AppTemplate]" ++ [LF])
         :: [txt "# a comment" ++ [LF]; [LF]; txt "  void main() {}" ++ [LF]]).
    rewrite Hrun. reflexivity.
Defined.

Lemma extra_files_lines_read (glob : str -> list str) (master : bool)
    (body : list str) (st : state) :
  Forall (fun l => no_bracket l = true) body ->
  exists st',
    read_ini_lines glob master body (EXTRA_FILES, st) = Ok (EXTRA_FILES, st')
    /\ extra_files st'
       = extra_files st
           ++ flat_map glob (List.filter is_item (map strip body))
    /\ Packages st' = Packages st /\ packages st' = packages st.
Proof.
  intros Hbody. revert st.
  induction Hbody as [|l body Hl _ IH]; intros st.
  - exists st. cbn [map List.filter flat_map]. rewrite app_nil_r.
    repeat split; reflexivity.
  - cbn [read_ini_lines map List.filter]. unfold read_ini_line.
    cbn [is_template andb]. rewrite andb_false_r.
    unfold no_bracket in Hl. apply negb_true_iff in Hl.
    unfold is_item at 1. rewrite Hl. cbn [negb]. rewrite andb_true_r.
    destruct (bool_decide (strip l = []) || startswith (txt "#") (strip l))
      eqn:Hskip.
    + replace (negb (bool_decide (strip l = []))
               && negb (startswith (txt "#") (strip l))) with false
        by (rewrite <- negb_orb, Hskip; reflexivity).
      cbn [mbind result_bind]. apply IH.
    + replace (negb (bool_decide (strip l = []))
               && negb (startswith (txt "#") (strip l))) with true
        by (rewrite <- negb_orb, Hskip; reflexivity).
      unfold read_ini_item. cbn [is_template].
      destruct (decide (EXTRA_FILES = EXTRA_FILES)) as [_|]; [|congruence].
      cbn [mbind result_bind].
      destruct (IH (set_extra_files (extra_files st ++ glob (strip l)) st))
        as (st' & Hrun & HE & HG & HP).
      exists st'. split; [exact Hrun|]. rewrite HE, HG, HP.
      destruct st; cbn. rewrite <- app_assoc. repeat split; reflexivity.
Qed.

(** X4: under the bracket line of the extra files, every line that is
    neither blank nor a comment is expanded by the file name expansion, the
    line stripped being the pattern, and the files found are collected in
    the order of the lines; the list that the model held before, the two
    default names included, is dropped, and the packages are not touched. *)
Theorem extra_files_globbed (glob : str -> list str) (master : bool)
    (category0 : Category) (hdr : str) (body : list str) (st : state) :
  startswith (txt "[") hdr = true ->
  bracket_name (strip hdr) = Some (txt "extrafiles") ->
  Forall (fun l => no_bracket l = true) body ->
  exists st',
    read_ini_lines glob master (hdr :: body) (category0, st)
    = Ok (EXTRA_FILES, st')
    /\ extra_files st'
       = flat_map glob (List.filter is_item (map strip body))
    /\ Packages st' = Packages st /\ packages st' = packages st.
Proof.
  intros Hhdr Hname Hbody. cbn [read_ini_lines].
  rewrite (bracket_line_read glob master category0 st hdr Hhdr).
  rewrite read_ini_category_bracket, Hname.
  destruct (decide (txt "extrafiles" = txt "packages")) as [E|_];
    [discriminate E|].
  destruct (decide (txt "extrafiles" = txt "extrafiles")) as [_|N];
    [|congruence].
  cbn [mbind result_bind].
  destruct (extra_files_lines_read glob master body (set_extra_files [] st)
              Hbody) as (st' & Hrun & HE & HG & HP).
  exists st'. split; [exact Hrun|]. rewrite HE, HG, HP.
  destruct st; cbn. repeat split; reflexivity.
Qed.

Lemma extra_files_globbed_witness :
  exists st',
    read_ini
      (fun p => if decide (p = txt "*.png")
                then [txt "a.png"; txt "b.png"] else [p])
      (txt "[ExtraFiles]" ++ [LF] ++ txt "  *.png " ++ [LF]
         ++ txt "# not this" ++ [LF] ++ [LF] ++ txt "COPYING" ++ [LF])
      false (Model_init [] [] [] false) = Ok st'
    /\ extra_files st' = [txt "a.png"; txt "b.png"; txt "COPYING"].
Proof.
  destruct (extra_files_globbed
              (fun p => if decide (p = txt "*.png")
                        then [txt "a.png"; txt "b.png"] else [p])
              false GENERAL (txt "[ExtraFiles]" ++ [LF])
              [txt "  *.png " ++ [LF]; txt "# not this" ++ [LF]; [LF];
               txt "COPYING" ++ [LF]]
              (Model_init [] [] [] false))
    as (st' & Hrun & HE & _); try reflexivity.
  - repeat constructor.
  - exists st'. split; [|exact HE]. unfold read_ini.
    change (readlines _) with
      ((txt "[ExtraFiles]" ++ [LF])
         :: [txt "  *.png " ++ [LF]; txt "# not this" ++ [LF]; [LF];
             txt "COPYING" ++ [LF]]).
    rewrite Hrun. reflexivity.
Defined.

Lemma count_occ_absent (c : ascii) (s : str) :
  c ∉ s -> count_occ ascii_eq_dec s c = 0.
Proof.
  intros H. apply count_occ_not_In. intros Hin. apply H, list_elem_of_In, Hin.
Qed.

Lemma split_two_count (line p0 p1 : str) :
  split "=" 2 line = [p0; p1] -> count_occ ascii_eq_dec line "="%char = 1.
Proof.
  intros H. destruct (split_entry_inv line p0 p1 H) as (-> & H0 & H1).
  rewrite count_occ_app, count_occ_cons_eq by reflexivity.
  rewrite (count_occ_absent _ _ H0), (count_occ_absent _ _ H1). reflexivity.
Qed.

Lemma count_split_two (line : str) :
  count_occ ascii_eq_dec line "="%char = 1 ->
  exists p0 p1, split "=" 2 line = [p0; p1] /\ line = p0 ++ "="%char :: p1.
Proof.
  intros H.
  assert (Hin : "="%char ∈ line).
  { apply list_elem_of_In, (count_occ_In ascii_eq_dec). lia. }
  destruct (break_at "=" line) as [a r] eqn:Hb.
  destruct (break_at_inv _ _ _ _ Hb) as [Ha Hr].
  destruct r as [b|]; [|subst a; contradiction].
  subst line. exists a, b. split; [|reflexivity].
  rewrite count_occ_app, count_occ_cons_eq, (count_occ_absent _ _ Ha) in H
    by reflexivity.
  apply split_entry; [exact Ha|].
  intros Hb'. apply list_elem_of_In, (count_occ_In ascii_eq_dec) in Hb'. lia.
Qed.

(** X5: in the General and in the Packages section a line is an entry when
    it holds exactly one equals sign, and only then: a line with none, or
    with two or more (a value that holds an equals sign, say), is dropped
    without a message and changes nothing in the model. *)
Theorem item_needs_one_equals (glob : str -> list str) (category : Category)
    (line : str) (master : bool) (st : state) :
  category = GENERAL \/ category = PACKAGES ->
  (count_occ ascii_eq_dec line "="%char <> 1 ->
   read_ini_item glob category line master st = Ok st)
  /\ (count_occ ascii_eq_dec line "="%char = 1 ->
      exists p0 p1,
        line = p0 ++ "="%char :: p1
        /\ read_ini_item glob category line master st
           = if decide (category = PACKAGES) then
               let key := title (casefold (strip p0)) in
               if master then
                 Ok (set_Packages (dict_set key (strip p1) (Packages st)) st)
               else if dict_in key (Packages st) then
                 Ok (set_Packages (dict_del key (Packages st))
                       (set_packages (dict_set key (strip p1) (packages st))
                          st))
               else Raise (KeyError key)
             else Ok (set_general_item (casefold (strip p0)) (strip p1) st)).
Proof.
  intros Hcat. split.
  - intros Hn. unfold read_ini_item.
    destruct Hcat as [-> | ->]; cbn [is_template];
      (destruct (decide (_ = EXTRA_FILES)) as [E|_]; [discriminate E|]);
      destruct (split "=" 2 line) as [|p0 [|p1 [|p2 ps]]] eqn:Hs;
      try reflexivity; exfalso; apply Hn, (split_two_count line p0 p1 Hs).
  - intros H1. destruct (count_split_two line H1) as (p0 & p1 & Hs & Hl).
    exists p0, p1. split; [exact Hl|]. unfold read_ini_item. rewrite Hs.
    destruct Hcat as [-> | ->]; cbn [is_template];
      (destruct (decide (_ = EXTRA_FILES)) as [E|_]; [discriminate E|]);
      reflexivity.
Qed.

Lemma item_needs_one_equals_witness :
  read_ini_item (fun _ => []) PACKAGES (txt "Gtk = gtk+-3.0 >= 3.22") false
    (Model_init [] [] [] false)
  = Ok (Model_init [] [] [] false).
Proof.
  refine (proj1 (item_needs_one_equals (fun _ => []) PACKAGES
                   (txt "Gtk = gtk+-3.0 >= 3.22") false
                   (Model_init [] [] [] false) _) _).
  - right. reflexivity.
  - vm_compute. lia.
Defined.

(** ** The command line *)

Lemma among_app (a b : list str) (arg : str) :
  among (a ++ b) arg = among a arg || among b arg.
Proof.
  unfold among.
  destruct (decide (arg ∈ a)) as [Ha|Ha], (decide (arg ∈ b)) as [Hb|Hb].
  all: rewrite ?(bool_decide_eq_true_2 _ Ha), ?(bool_decide_eq_true_2 _ Hb),
         ?(bool_decide_eq_false_2 _ Ha), ?(bool_decide_eq_false_2 _ Hb).
  all: cbn [orb].
  1-3: apply bool_decide_eq_true_2, elem_of_app; tauto.
  apply bool_decide_eq_false_2. rewrite elem_of_app. tauto.
Qed.

Lemma reserved_false (arg : str) :
  reserved arg = false ->
  among version_words arg = false /\ among clean_words arg = false
  /\ among help_words arg = false /\ among new_words arg = false
  /\ among quiet_words arg = false /\ among build_words arg = false
  /\ among console_words arg = false /\ among zip_words arg = false.
Proof.
  unfold reserved, option_words. rewrite !among_app, !orb_false_iff. tauto.
Qed.

Lemma read_args_from_plain (words : list str) (action : Action) (m : Model) :
  action <> USAGE ->
  Forall (fun w => reserved w = false) words ->
  read_args_from words action m = (action, set_args (args m ++ words) m).
Proof.
  intros Ha Hw. revert m. induction Hw as [|w words Hw _ IH]; intros m.
  - rewrite app_nil_r. destruct m; reflexivity.
  - cbn [read_args_from].
    destruct (reserved_false w Hw) as (-> & -> & -> & -> & -> & -> & -> & ->).
    destruct (decide (action = USAGE)) as [E|_]; [contradiction|].
    rewrite IH. destruct m; cbn. rewrite <- app_assoc. reflexivity.
Qed.

(** X6: a command line none of whose words is an option word asks for a
    build and hands all its words, in their order, to the program that is
    run afterwards; the switches and the rest of the model stay as they
    were. *)
Theorem read_args_passes_plain_words (prog : str) (words : list str)
    (m : Model) :
  Forall (fun w => reserved w = false) words ->
  read_args (prog :: words) m = (BUILD, set_args (args m ++ words) m).
Proof.
  intros Hw. unfold read_args. cbn [drop].
  apply read_args_from_plain; [discriminate|exact Hw].
Qed.

Lemma read_args_passes_plain_words_witness :
  read_args [txt "vb"; txt "--fast"; txt "input.txt"]
    (Model_default [] [] [])
  = (BUILD,
     set_args [txt "--fast"; txt "input.txt"] (Model_default [] [] [])).
Proof.
  refine (read_args_passes_plain_words (txt "vb")
            [txt "--fast"; txt "input.txt"] (Model_default [] [] []) _).
  repeat constructor.
Defined.

Lemma read_args_from_effects (argv : list str) (action action' : Action)
    (m m' : Model) :
  read_args_from argv action m = (action', m') ->
  (exists taken,
     args m' = args m ++ taken /\ sublist taken argv
     /\ Forall (fun w => reserved w = false) taken)
  /\ (verbose m' = true -> verbose m = true)
  /\ (run m' = true -> run m = true)
  /\ (console m = true -> console m' = true)
  /\ (archive (model m) = true -> archive (model m') = true)
  /\ set_archive false (model m') = set_archive false (model m).
Proof.
  revert action m. induction argv as [|arg rest IH]; intros action m.
  - cbn [read_args_from]. intros [= <- <-]. split; [|tauto].
    exists []. rewrite app_nil_r. repeat split; constructor.
  - cbn [read_args_from].
    assert (Hstop : forall a : Action,
              (a, m) = (action', m') ->
              (exists taken,
                 args m' = args m ++ taken /\ sublist taken (arg :: rest)
                 /\ Forall (fun w => reserved w = false) taken)
              /\ (verbose m' = true -> verbose m = true)
              /\ (run m' = true -> run m = true)
              /\ (console m = true -> console m' = true)
              /\ (archive (model m) = true -> archive (model m') = true)
              /\ set_archive false (model m') = set_archive false (model m)).
    { intros a [= _ <-]. split; [|tauto].
      exists []. rewrite app_nil_r. repeat split; [|constructor].
      apply sublist_nil_l. }
    assert (Hgo : forall (a : Action) (m1 : Model),
              args m1 = args m ->
              (verbose m1 = true -> verbose m = true) ->
              (run m1 = true -> run m = true) ->
              (console m = true -> console m1 = true) ->
              (archive (model m) = true -> archive (model m1) = true) ->
              set_archive false (model m1) = set_archive false (model m) ->
              read_args_from rest a m1 = (action', m') ->
              (exists taken,
                 args m' = args m ++ taken /\ sublist taken (arg :: rest)
                 /\ Forall (fun w => reserved w = false) taken)
              /\ (verbose m' = true -> verbose m = true)
              /\ (run m' = true -> run m = true)
              /\ (console m = true -> console m' = true)
              /\ (archive (model m) = true -> archive (model m') = true)
              /\ set_archive false (model m') = set_archive false (model m)).
    { intros a m1 Ha Hv Hr Hc Hz Hm Hrun.
      destruct (IH a m1 Hrun) as ((taken & Ht & Hs & Hf) & Hv' & Hr' & Hc' & Hz' & Hm').
      split.
      - exists taken. rewrite Ht, Ha. repeat split;
          [apply sublist_cons_r; left; exact Hs|exact Hf].
      - repeat split; [tauto|tauto|tauto|tauto|congruence]. }
    destruct (among version_words arg) eqn:E1; [apply Hstop|].
    destruct (among clean_words arg) eqn:E2; [apply Hstop|].
    destruct (among help_words arg) eqn:E3; [apply Hgo; tauto|].
    destruct (among new_words arg) eqn:E4; [apply Hgo; tauto|].
    destruct (among quiet_words arg) eqn:E5;
      [apply Hgo; cbn; try tauto; discriminate|].
    destruct (among build_words arg) eqn:E6;
      [apply Hgo; cbn; try tauto; discriminate|].
    destruct (among console_words arg) eqn:E7; [apply Hgo; cbn; tauto|].
    destruct (among zip_words arg) eqn:E8;
      [apply Hgo; cbn; try tauto; destruct (model m); reflexivity|].
    destruct (decide (action = USAGE)) as [_|_]; [apply Hstop|].
    intros Hrun.
    destruct (IH _ _ Hrun) as ((taken & Ht & Hs & Hf) & Hv' & Hr' & Hc' & Hz' & Hm').
    cbn in Ht, Hv', Hr', Hc', Hz', Hm'. split.
    + exists (arg :: taken). rewrite Ht, <- app_assoc. repeat split.
      * apply sublist_skip. exact Hs.
      * constructor; [|exact Hf]. unfold reserved, option_words.
        rewrite !among_app, E1, E2, E3, E4, E5, E6, E7, E8. reflexivity.
    + repeat split; assumption.
Qed.

(** X7: whatever the command line, the words that [read_args] leaves for the
    program that is run are words of the command line, in their order, and
    none of them is an option word: a program argument that reads like an
    option of the tool (the word build, say) cannot be passed on.  Options
    only switch one way: quiet and build switch off, console and zip switch
    on, and nothing else of the model changes. *)
Theorem read_args_effects (argv : list str) (m : Model) :
  (exists taken,
     args (read_args argv m).2 = args m ++ taken
     /\ sublist taken (drop 1 argv)
     /\ Forall (fun w => reserved w = false) taken)
  /\ (verbose (read_args argv m).2 = true -> verbose m = true)
  /\ (run (read_args argv m).2 = true -> run m = true)
  /\ (console m = true -> console (read_args argv m).2 = true)
  /\ (archive (model m) = true ->
      archive (model (read_args argv m).2) = true)
  /\ set_archive false (model (read_args argv m).2)
     = set_archive false (model m).
Proof.
  unfold read_args.
  destruct (read_args_from (drop 1 argv) BUILD m) as [a m'] eqn:Hrun.
  exact (read_args_from_effects _ _ _ _ _ Hrun).
Qed.

Lemma read_args_from_cut (pre post : list str) (arg : str) (action : Action)
    (m : Model) :
  among version_words arg || among clean_words arg = true ->
  read_args_from (pre ++ arg :: post) action m
  = read_args_from (pre ++ [arg]) action m.
Proof.
  intros Harg. revert action m. induction pre as [|w pre IH]; intros action m.
  - cbn [app read_args_from].
    destruct (among version_words arg); [reflexivity|].
    destruct (among clean_words arg); [reflexivity|discriminate].
  - cbn [app read_args_from].
    repeat (destruct (among _ w); [first [reflexivity | apply IH]|]).
    destruct (decide (action = USAGE)); [reflexivity|apply IH].
Qed.

Lemma read_args_from_reaches (pre : list str) (arg : str) (action : Action)
    (m : Model) :
  action <> USAGE ->
  Forall (fun w => among version_words w = false
                   /\ among clean_words w = false
                   /\ among help_words w = false) pre ->
  among version_words arg || among clean_words arg = true ->
  (read_args_from (pre ++ [arg]) action m).1
  = if among version_words arg then VERSION else CLEAN.
Proof.
  intros Ha Hpre Harg. revert action m Ha.
  induction Hpre as [|w pre (H1 & H2 & H3) _ IH]; intros action m Ha.
  - cbn [app read_args_from].
    destruct (among version_words arg); [reflexivity|].
    destruct (among clean_words arg); [reflexivity|discriminate].
  - cbn [app read_args_from]. rewrite H1, H2, H3.
    destruct (among new_words w); [apply IH; discriminate|].
    repeat match goal with
           | |- context [if among ?ws w then _ else _] =>
               destruct (among ws w); [apply IH, Ha|]
           end.
    destruct (decide (action = USAGE)); [contradiction|apply IH, Ha].
Qed.

(** X8: the loop over the command line stops at the first word that asks
    for the version or for cleaning: whatever follows that word on the
    command line has no effect at all.  When no word before it asks for
    the version, for cleaning or for help, the action is the one that the
    word asks for, even after the word new. *)
Theorem read_args_stops_at_version_or_clean (prog arg : str)
    (pre post : list str) (m : Model) :
  among version_words arg || among clean_words arg = true ->
  read_args (prog :: pre ++ arg :: post) m
  = read_args (prog :: pre ++ [arg]) m
  /\ (Forall (fun w => among version_words w = false
                       /\ among clean_words w = false
                       /\ among help_words w = false) pre ->
      (read_args (prog :: pre ++ arg :: post) m).1
      = if among version_words arg then VERSION else CLEAN).
Proof.
  intros Harg. unfold read_args.
  change (drop 1 (prog :: pre ++ arg :: post)) with (pre ++ arg :: post).
  change (drop 1 (prog :: pre ++ [arg])) with (pre ++ [arg]). split.
  - apply read_args_from_cut, Harg.
  - intros Hpre. rewrite read_args_from_cut by exact Harg.
    apply read_args_from_reaches; [discriminate|exact Hpre|exact Harg].
Qed.

Lemma read_args_stops_at_version_or_clean_witness :
  read_args [txt "vb"; txt "new"; txt "-q"; txt "clean"; txt "-z"; txt "x"]
    (Model_default [] [] [])
  = read_args [txt "vb"; txt "new"; txt "-q"; txt "clean"]
      (Model_default [] [] [])
  /\ (read_args
        [txt "vb"; txt "new"; txt "-q"; txt "clean"; txt "-z"; txt "x"]
        (Model_default [] [] [])).1 = CLEAN.
Proof.
  destruct (read_args_stops_at_version_or_clean (txt "vb") (txt "clean")
              [txt "new"; txt "-q"] [txt "-z"; txt "x"]
              (Model_default [] [] []) eq_refl) as [H1 H2].
  split; [exact H1|]. apply H2. repeat constructor.
Defined.

(** ** A new project *)

Lemma elem_of_New_names (s : str) :
  s ∈ New_names <-> s = txt "APP" \/ s = txt "GUI" \/ s = txt "LIB".
Proof.
  unfold New_names, New_members. cbn [map fst].
  rewrite !elem_of_cons, elem_of_nil. tauto.
Qed.

Lemma prepare_new_handled (m : Model) (e : exn) :
  prepare_new m = Raise e -> handled_by_main e = true.
Proof.
  unfold prepare_new.
  destruct (args m) as [|a [|b [|c l]]];
    repeat (destruct (bool_decide _); cbn [negb]);
    intros [= <-]; reflexivity.
Qed.

Lemma prepare_new_ok (m m' : Model) (k : option New) :
  prepare_new m = Ok (k, m') <->
  exists name,
    (args m = [name] /\ k = Some APP
     \/ exists kind,
          args m = [kind; name]
          /\ (upper kind = txt "APP" /\ k = Some APP
              \/ upper kind = txt "GUI" /\ k = Some GUI
              \/ upper kind = txt "LIB" /\ k = Some LIB))
    /\ (upper name ∉ New_names)
    /\ m' = set_model (set_appname (Some name) (model m)) (set_args [] m).
Proof.
  unfold prepare_new. split.
  - destruct (args m) as [|a [|b [|c l]]]; try discriminate.
    + destruct (decide (upper a ∈ New_names)) as [Hin|Hout].
      * rewrite (bool_decide_eq_true_2 _ Hin). discriminate.
      * rewrite (bool_decide_eq_false_2 _ Hout). intros [= <- <-].
        exists a. repeat split; [left; split; reflexivity|exact Hout].
    + destruct (decide (upper a ∈ New_names)) as [Hin|Hout];
        [|rewrite (bool_decide_eq_false_2 _ Hout); discriminate].
      rewrite (bool_decide_eq_true_2 _ Hin). cbn [negb].
      destruct (decide (upper b ∈ New_names)) as [Hb|Hb];
        [rewrite (bool_decide_eq_true_2 _ Hb); discriminate|].
      rewrite (bool_decide_eq_false_2 _ Hb). intros [= <- <-].
      exists b. repeat split; [|exact Hb]. right. exists a.
      split; [reflexivity|].
      apply elem_of_New_names in Hin. destruct Hin as [E|[E|E]]; rewrite E.
      * left. split; reflexivity.
      * right. left. split; reflexivity.
      * right. right. split; reflexivity.
  - intros (name & Hargs & Hname & ->).
    destruct Hargs as [[-> ->] | (kind & -> & Hkind)].
    + rewrite (bool_decide_eq_false_2 _ Hname). reflexivity.
    + assert (Hin : upper kind ∈ New_names)
        by (apply elem_of_New_names; tauto).
      rewrite (bool_decide_eq_true_2 _ Hin). cbn [negb].
      rewrite (bool_decide_eq_false_2 _ Hname).
      destruct Hkind as [[E ->] | [[E ->] | [E ->]]]; rewrite E; reflexivity.
Qed.

Lemma new_checks_ok (path_exists : str -> bool) (m m' : Model)
    (k : option New) :
  new_checks path_exists m = Ok (k, m') <->
  exists name,
    (args m = [name] /\ k = Some APP
     \/ exists kind,
          args m = [kind; name]
          /\ (upper kind = txt "APP" /\ k = Some APP
              \/ upper kind = txt "GUI" /\ k = Some GUI))
    /\ (upper name ∉ New_names)
    /\ path_exists name = false
    /\ m' = set_model (set_appname (Some name) (model m)) (set_args [] m).
Proof.
  unfold new_checks. split.
  - destruct (prepare_new m) as [[k1 m1]|e] eqn:Hp; [|discriminate].
    cbn [mbind result_bind snd fst].
    apply prepare_new_ok in Hp. destruct Hp as (name & Hargs & Hname & ->).
    cbn [model set_model appname set_appname default].
    replace (appname (set_appname (Some name) (model m))) with (Some name)
      by (destruct (model m); reflexivity).
    cbn [default id].
    destruct (path_exists name) eqn:Hex; [discriminate|].
    destruct (decide (k1 = Some LIB)) as [->|Hlib]; [discriminate|].
    intros [= <- <-]. exists name. repeat split; try assumption.
    destruct Hargs as [H|(kind & Ha & [H|[H|[_ H]]])];
      [left; exact H|right; exists kind; tauto
      |right; exists kind; tauto|contradiction].
  - intros (name & Hargs & Hname & Hex & ->).
    assert (Hp : prepare_new m
                 = Ok (k, set_model (set_appname (Some name) (model m))
                            (set_args [] m))).
    { apply prepare_new_ok. exists name. repeat split; [|exact Hname].
      destruct Hargs as [H|(kind & Ha & [H|H])];
        [left; exact H|right; exists kind; tauto|right; exists kind; tauto]. }
    rewrite Hp. cbn [mbind result_bind snd fst model set_model].
    replace (appname (set_appname (Some name) (model m))) with (Some name)
      by (destruct (model m); reflexivity).
    cbn [default id]. rewrite Hex.
    destruct (decide (k = Some LIB)) as [->|_]; [|reflexivity].
    destruct Hargs as [[_ H]|(kind & _ & [[_ H]|[_ H]])]; discriminate H.
Qed.

Lemma new_checks_handled (path_exists : str -> bool) (m : Model) (e : exn) :
  new_checks path_exists m = Raise e -> handled_by_main e = true.
Proof.
  unfold new_checks.
  destruct (prepare_new m) as [[k1 m1]|e1] eqn:Hp.
  - cbn [mbind result_bind snd fst].
    destruct (path_exists _); [intros [= <-]; reflexivity|].
    destruct (decide _); [intros [= <-]; reflexivity|discriminate].
  - cbn [mbind result_bind]. intros [= <-].
    exact (prepare_new_handled m e1 Hp).
Qed.

(** X9: the checks of [new] let a project through in these cases only: one
    argument, the name, for an application, or two arguments, the word app
    or gui in any letter case and the name, for that kind; the name is no
    kind word in any letter case (app, gui and lib cannot be project
    names) and nothing of that name exists yet.  The name becomes the
    application's name and the argument list is used up.  Every other
    command line, the kind lib included, ends in an error that [main]
    reports, before anything is written. *)
Theorem new_checks_spec (path_exists : str -> bool) (m : Model) :
  (forall k m',
     new_checks path_exists m = Ok (k, m') <->
     exists name,
       (args m = [name] /\ k = Some APP
        \/ exists kind,
             args m = [kind; name]
             /\ (upper kind = txt "APP" /\ k = Some APP
                 \/ upper kind = txt "GUI" /\ k = Some GUI))
       /\ (upper name ∉ New_names)
       /\ path_exists name = false
       /\ m' = set_model (set_appname (Some name) (model m))
                 (set_args [] m))
  /\ (forall e, new_checks path_exists m = Raise e ->
                handled_by_main e = true).
Proof.
  split.
  - intros k m'. apply new_checks_ok.
  - intros e. apply new_checks_handled.
Qed.

(** X10: when the command line is read and the checks of [new] let the
    project through, its name is a word of the command line that is no
    option word and no kind word, and nothing of that name exists: an
    option word is taken by [read_args] before [new] can see it as a
    name (new build asks for a project without a name). *)
Theorem new_name_is_no_option_word (path_exists : str -> bool)
    (argv : list str) (m m' : Model) (k : option New) :
  args m = [] ->
  new_checks path_exists (read_args argv m).2 = Ok (k, m') ->
  exists name,
    appname (model m') = Some name
    /\ name ∈ drop 1 argv
    /\ reserved name = false
    /\ (upper name ∉ New_names)
    /\ path_exists name = false.
Proof.
  intros Hnil Hnew. unfold read_args in Hnew.
  destruct (read_args_from (drop 1 argv) BUILD m) as [a m1] eqn:Hrun.
  destruct (read_args_from_effects _ _ _ _ _ Hrun)
    as ((taken & Ht & Hs & Hf) & _).
  rewrite Hnil in Ht. cbn [app] in Ht. cbn [snd] in Hnew.
  apply new_checks_ok in Hnew.
  destruct Hnew as (name & Hargs & Hname & Hex & ->).
  exists name.
  assert (Hin : name ∈ taken).
  { rewrite <- Ht.
    destruct Hargs as [[-> _]|(kind & -> & _)];
      rewrite !elem_of_cons; tauto. }
  split; [cbn [model set_model]; destruct (model m1); reflexivity|].
  split.
  { apply sublist_submseteq in Hs.
    exact (elem_of_submseteq _ _ _ Hin Hs). }
  split; [rewrite Forall_forall in Hf; apply Hf, Hin|].
  split; assumption.
Qed.

Lemma new_name_is_no_option_word_witness :
  exists name,
    name ∈ [txt "new"; txt "-q"; txt "gui"; txt "hello"]
    /\ reserved name = false.
Proof.
  destruct (new_name_is_no_option_word (fun _ => false)
              [txt "vb"; txt "new"; txt "-q"; txt "gui"; txt "hello"]
              (Model_default [] [] [])
              (set_model (set_appname (Some (txt "hello"))
                            (Model_init [] [] [] false))
                 (set_verbose false (Model_default [] [] [])))
              (Some GUI) eq_refl eq_refl)
    as (name & _ & Hin & Hres & _).
  exists name. split; [exact Hin|exact Hres].
Defined.

(** ** The settings file that [discover] makes *)

Lemma make_ini_merged (st : state) :
  make_ini st
  = merged_ini (txt "[General]" ++ [LF] ++ [LF] ++ txt "[ExtraFiles]"
                  ++ [LF] ++ [LF]) st.
Proof. reflexivity. Qed.

(** X11: the settings file that [make_ini] writes for a project is one that
    the merge leaves alone: when [discover] finds the file at the next run
    and the model holds the same packages, [maybe_update_ini] does not
    write. *)
Theorem made_ini_is_up_to_date (st : state) :
  tidy (packages st) = true ->
  tidy (Packages st) = true ->
  maybe_update_ini (make_ini st) st = None.
Proof.
  intros HP HG. apply maybe_update_ini_none. rewrite make_ini_merged.
  apply merged_ini_again; [exact HP|exact HG| | |].
  - vm_compute. repeat constructor.
  - intros l k v Hl. vm_compute in Hl. inversion Hl.
  - intros l k0 v vG Hl. vm_compute in Hl. inversion Hl.
Qed.

Lemma made_ini_is_up_to_date_witness :
  maybe_update_ini
    (make_ini (set_packages [(txt "Gtk", txt "gtk+-3.0")]
                 (set_Packages [(txt "Gee", txt "gee-0.8")]
                    (Model_init [] [] [] false))))
    (set_packages [(txt "Gtk", txt "gtk+-3.0")]
       (set_Packages [(txt "Gee", txt "gee-0.8")]
          (Model_init [] [] [] false)))
  = None.
Proof.
  apply made_ini_is_up_to_date; vm_compute; reflexivity.
Defined.

Lemma strip_decompose (s : str) :
  exists a b, s = a ++ strip s ++ b
              /\ forallb isspace a = true /\ forallb isspace b = true.
Proof.
  destruct (rstrip_by_prefix isspace (lstrip_by isspace s)) as (b & Hb & Hall).
  exists (take_by isspace s), b. split; [|split].
  - unfold strip. rewrite <- Hb. symmetry. apply take_by_lstrip_by.
  - apply take_by_all.
  - exact Hall.
Qed.

Lemma blank_no_equals (a : str) :
  forallb isspace a = true -> ("="%char) ∉ a.
Proof.
  induction a as [|c a IH]; cbn [forallb]; intros H Hin.
  - inversion Hin.
  - apply andb_true_iff in H as [Hc Ha].
    apply elem_of_cons in Hin as [<-|Hin]; [discriminate Hc|].
    exact (IH Ha Hin).
Qed.

Lemma break_at_pad_left (sep : ascii) (a s : str) :
  sep ∉ a ->
  break_at sep (a ++ s) = ((a ++ (break_at sep s).1), (break_at sep s).2).
Proof.
  induction a as [|c a IH]; intros Ha.
  - cbn [app]. destruct (break_at sep s); reflexivity.
  - cbn [app break_at].
    destruct (decide (c = sep)) as [->|_]; [exfalso; apply Ha; left|].
    rewrite IH by (intros H; apply Ha; right; exact H). reflexivity.
Qed.

Lemma break_at_pad_right (sep : ascii) (s b : str) :
  sep ∉ b ->
  break_at sep (s ++ b)
  = match break_at sep s with
    | (x, None) => (x ++ b, None)
    | (x, Some r) => (x, Some (r ++ b))
    end.
Proof.
  intros Hb. induction s as [|c s IH].
  - cbn [app break_at]. apply break_at_none, Hb.
  - cbn [app break_at]. destruct (decide (c = sep)) as [->|_]; [reflexivity|].
    rewrite IH. destruct (break_at sep s) as [x [r|]]; reflexivity.
Qed.

Lemma section_entry_pad (a s b : str) :
  forallb isspace a = true -> forallb isspace b = true ->
  section_entry (a ++ s ++ b) = section_entry s.
Proof.
  intros Ha Hb.
  pose proof (blank_no_equals a Ha) as Ha'.
  pose proof (blank_no_equals b Hb) as Hb'.
  unfold section_entry, split.
  rewrite (break_at_pad_left _ a (s ++ b) Ha'),
    (break_at_pad_right _ s b Hb').
  destruct (break_at "=" s) as [x [r|]]; cbn [fst snd]; [|reflexivity].
  rewrite (break_at_pad_right _ r b Hb').
  destruct (break_at "=" r) as [y [z|]]; [reflexivity|].
  replace (a ++ x) with (a ++ x ++ []) by (rewrite app_nil_r; reflexivity).
  rewrite (strip_pad a x [] Ha eq_refl).
  change (y ++ b) with ([] ++ y ++ b).
  rewrite (strip_pad [] y b eq_refl Hb). reflexivity.
Qed.

Lemma section_entry_strip (l : str) :
  section_entry (strip l) = section_entry l.
Proof.
  destruct (strip_decompose l) as (a & b & Hl & Ha & Hb).
  rewrite Hl at 2. symmetry. apply section_entry_pad; assumption.
Qed.

Lemma package_entry_section (l : str) :
  package_entry l
  = match section_entry l with
    | Some (k, v) => Some (title (casefold k), v)
    | None => None
    end.
Proof.
  unfold package_entry, section_entry.
  destruct (split "=" 2 l) as [|p0 [|p1 [|p2 ps]]]; reflexivity.
Qed.

Lemma above_hash_no_space (c : ascii) :
  code "#" < code c -> isspace c = false.
Proof.
  change (code "#") with 35. intros H. unfold isspace. cbv zeta.
  repeat match goal with
         | |- context [?a <=? ?b] => destruct (Nat.leb_spec a b)
         | |- context [?a =? ?b] => destruct (Nat.eqb_spec a b)
         end; try reflexivity; lia.
Qed.

Lemma packages_line_read (glob : str -> list str) (k v : str) (st : state) :
  name_ok k = true -> clean k = true -> clean v = true ->
  reads_back k = true ->
  read_ini_line glob false (PACKAGES, st) (active_line (k, v) ++ [LF])
  = if dict_in k (Packages st) then
      Ok (PACKAGES,
          set_Packages (dict_del k (Packages st))
            (set_packages (dict_set k v (packages st)) st))
    else Raise (KeyError k).
Proof.
  intros Hname Hk Hv Hback.
  apply andb_true_iff in Hback as [Htitle Hbr].
  apply bool_decide_eq_true_1 in Htitle. apply negb_true_iff in Hbr.
  assert (Hpe : package_entry (strip (active_line (k, v) ++ [LF]))
                = Some (k, v)).
  { rewrite package_entry_section, section_entry_strip,
      (section_entry_active k v Hk Hv), Htitle. reflexivity. }
  destruct (name_ok_head k Hname) as (c & k' & -> & Hc).
  destruct (strip_head c ((k' ++ txt " = " ++ v) ++ [LF])
              (above_hash_no_space c Hc)) as [r Hr].
  change (c :: (k' ++ txt " = " ++ v) ++ [LF])
    with (active_line (c :: k', v) ++ [LF]) in Hr.
  unfold read_ini_line. cbn [is_template]. rewrite andb_false_r.
  rewrite (read_ini_item_package glob _ _ _ st Hpe). rewrite Hr.
  rewrite bool_decide_eq_false_2 by discriminate.
  assert (H1 : startswith (txt "#") (c :: r) = false).
  { simpl. destruct (decide ("#"%char = c)) as [<-|]; [lia|reflexivity]. }
  assert (H2 : startswith (txt "[") (c :: r) = false).
  { simpl. simpl in Hbr. destruct (decide ("["%char = c)); [discriminate|].
    reflexivity. }
  rewrite H1, H2. cbn [orb].
  destruct (dict_in (c :: k') (Packages st)); reflexivity.
Qed.

Lemma comment_line_read (glob : str -> list str) (master : bool)
    (kv : str * str) (st : state) :
  read_ini_line glob master (PACKAGES, st) (inactive_line kv ++ [LF])
  = Ok (PACKAGES, st).
Proof.
  unfold read_ini_line. cbn [is_template]. rewrite andb_false_r.
  destruct (strip_head "#" ((txt " " ++ kv.1 ++ txt " = " ++ kv.2) ++ [LF])
              eq_refl) as [r Hr].
  change ("#"%char :: (txt " " ++ kv.1 ++ txt " = " ++ kv.2) ++ [LF])
    with (inactive_line kv ++ [LF]) in Hr.
  rewrite Hr. rewrite orb_true_r. reflexivity.
Qed.

Lemma active_line_inj (k v k' v' : str) :
  clean k = true -> clean v = true -> clean k' = true -> clean v' = true ->
  active_line (k, v) = active_line (k', v') -> k = k' /\ v = v'.
Proof.
  intros Hk Hv Hk' Hv' Heq.
  pose proof (section_entry_active k v Hk Hv) as H1.
  pose proof (section_entry_active k' v' Hk' Hv') as H2.
  rewrite Heq, H2 in H1. injection H1 as -> ->. split; reflexivity.
Qed.

Lemma section_lines_read (glob : str -> list str) (P : dict)
    (L : list str) (st0 : state) :
  tidy P = true ->
  (forall k, dict_in k P = true -> reads_back k = true) ->
  NoDup L ->
  (forall l, l ∈ L ->
     (exists kv, l = inactive_line kv)
     \/ (exists k v, l = active_line (k, v) /\ dict_get k P = Some v
                     /\ dict_in k (Packages st0) = true)) ->
  exists st',
    read_ini_lines glob false (map (fun l => l ++ [LF]) L) (PACKAGES, st0)
    = Ok (PACKAGES, st')
    /\ extra_files st' = extra_files st0
    /\ (forall k v, dict_get k P = Some v -> active_line (k, v) ∈ L ->
                    dict_get k (packages st') = Some v
                    /\ dict_get k (Packages st') = None)
    /\ (forall k, (forall v, dict_get k P = Some v ->
                             active_line (k, v) ∉ L) ->
                  dict_get k (packages st') = dict_get k (packages st0)
                  /\ dict_get k (Packages st') = dict_get k (Packages st0)).
Proof.
  intros HP Hback. revert st0.
  assert (Hprop : forall k v, dict_get k P = Some v ->
            name_ok k = true /\ clean k = true /\ clean v = true).
  { intros k v Hget. apply (tidy_elem P k v HP), dict_get_elem, Hget. }
  assert (Hhash : forall k v kv, dict_get k P = Some v ->
            active_line (k, v) <> inactive_line kv).
  { intros k v kv Hget Heq.
    destruct (Hprop k v Hget) as (Hn & _ & _).
    destruct (active_line_plain k v Hn) as (c & r & Hl & Hc).
    rewrite Heq in Hl. injection Hl as <- _. simpl in Hc. lia. }
  induction L as [|l L IH]; intros st0 Hnd Hlines.
  - exists st0. split; [reflexivity|]. split; [reflexivity|]. split.
    + intros k v _ Hin. inversion Hin.
    + intros k _. split; reflexivity.
  - apply NoDup_cons in Hnd as [Hl HndL].
    cbn [map read_ini_lines].
    destruct (Hlines l (list_elem_of_here _ _))
      as [[kv ->] | (k0 & v0 & -> & Hget0 & Hin0)].
    + rewrite comment_line_read. cbn [mbind result_bind].
      destruct (IH st0 HndL) as (st' & Hrun & HE & Hact & Hrest).
      { intros l' Hl'. apply Hlines. right. exact Hl'. }
      exists st'. split; [exact Hrun|]. split; [exact HE|]. split.
      * intros k v Hget Hin. apply elem_of_cons in Hin as [Heq|Hin].
        -- exfalso. exact (Hhash k v kv Hget Heq).
        -- apply Hact; assumption.
      * intros k Hno. apply Hrest. intros v Hget Hin.
        apply (Hno v Hget). right. exact Hin.
    + destruct (Hprop k0 v0 Hget0) as (Hn0 & Hk0 & Hv0).
      rewrite (packages_line_read glob k0 v0 st0 Hn0 Hk0 Hv0), Hin0
        by (apply Hback, dict_in_get; eauto).
      cbn [mbind result_bind].
      assert (Hother : forall k v, dict_get k P = Some v ->
                active_line (k, v) ∈ L -> k <> k0).
      { intros k v Hget Hin ->. rewrite Hget0 in Hget. injection Hget as <-.
        contradiction. }
      destruct (IH (set_Packages (dict_del k0 (Packages st0))
                      (set_packages (dict_set k0 v0 (packages st0)) st0))
                  HndL) as (st' & Hrun & HE & Hact & Hrest).
      { intros l' Hl'.
        destruct (Hlines l' (list_elem_of_further _ _ _ Hl'))
          as [Hc | (k & v & -> & Hget & Hin)]; [left; exact Hc|].
        right. exists k, v. split; [reflexivity|]. split; [exact Hget|].
        destruct st0; cbn [Packages packages set_Packages set_packages]. rewrite dict_in_del.
        rewrite bool_decide_eq_false_2 by exact (Hother k v Hget Hl').
        exact Hin. }
      exists st'. split; [exact Hrun|].
      split; [rewrite HE; destruct st0; reflexivity|].
      assert (Hk0rest : dict_get k0 (packages st') = Some v0
                        /\ dict_get k0 (Packages st') = None).
      { destruct (Hrest k0) as [H1 H2].
        - intros v Hget Hin. exact (Hother k0 v Hget Hin eq_refl).
        - rewrite H1, H2. destruct st0; cbn [Packages packages set_Packages set_packages].
          rewrite dict_get_set, dict_get_del.
          destruct (decide (k0 = k0)); [split; reflexivity|congruence]. }
      split.
      * intros k v Hget Hin. apply elem_of_cons in Hin as [Heq|Hin].
        -- destruct (Hprop k v Hget) as (_ & Hk & Hv).
           destruct (active_line_inj k v k0 v0 Hk Hv Hk0 Hv0 Heq) as [-> ->].
           exact Hk0rest.
        -- apply Hact; assumption.
      * intros k Hno.
        assert (Hne : k <> k0).
        { intros ->. apply (Hno v0 Hget0). left. }
        destruct (Hrest k) as [H1 H2].
        -- intros v Hget Hin. apply (Hno v Hget). right. exact Hin.
        -- rewrite H1, H2. destruct st0; cbn [Packages packages set_Packages set_packages].
           rewrite dict_get_set, dict_get_del.
           destruct (decide (k = k0)); [contradiction|split; reflexivity].
Qed.

Lemma readlines_section (L : list str) :
  (forall y, y ∈ L -> LF ∉ y) ->
  readlines (join [LF] L ++ [LF])
  = match L with [] => [[LF]] | _ => map (fun l => l ++ [LF]) L end.
Proof.
  intros Hno. destruct L as [|y L]; [reflexivity|].
  rewrite join_lines by discriminate.
  rewrite <- (app_nil_r (concat _)), readlines_lines.
  - apply app_nil_r.
  - apply Forall_forall. intros l Hl.
    apply list_elem_of_fmap in Hl as (x & -> & Hx). exists x.
    split; [apply Hno, Hx|reflexivity].
Qed.

Lemma section_lines_elem (P : dict) (st : state) (l : str) :
  l ∈ section_lines P st <->
  (exists kv, kv ∈ P /\ l = active_line kv)
  \/ (exists kv, kv ∈ Packages st /\ l = inactive_line kv).
Proof.
  unfold section_lines. rewrite elem_of_sorted_set, elem_of_app.
  rewrite !list_elem_of_fmap.
  split; (intros [(kv & H1 & H2)|(kv & H1 & H2)];
          [left|right]; exists kv; tauto).
Qed.

Lemma section_lines_no_lf (P : dict) (st : state) (l : str) :
  tidy P = true -> tidy (Packages st) = true ->
  l ∈ section_lines P st -> LF ∉ l.
Proof.
  intros HP HG Hl. apply section_lines_elem in Hl.
  destruct Hl as [([k v] & Hin & ->)|([k v] & Hin & ->)].
  - destruct (tidy_elem P k v HP Hin) as (_ & Hk & Hv).
    apply active_line_no_lf; assumption.
  - destruct (tidy_elem _ k v HG Hin) as (_ & Hk & Hv).
    unfold inactive_line. cbn [fst snd].
    apply not_elem_of_app; [apply not_elem_of_txt; reflexivity|].
    apply (active_line_no_lf k v Hk Hv).
Qed.

Lemma make_ini_read (glob : str -> list str) (st st0 : state) :
  tidy (packages st) = true ->
  tidy (Packages st) = true ->
  (forall k v, dict_get k (packages st) = Some v ->
     reads_back k = true /\ dict_in k (Packages st0) = true) ->
  exists st',
    read_ini glob (make_ini st) false st0 = Ok st'
    /\ extra_files st' = []
    /\ (forall k, dict_get k (packages st')
                  = match dict_get k (packages st) with
                    | Some v => Some v
                    | None => dict_get k (packages st0)
                    end)
    /\ (forall k, dict_get k (Packages st')
                  = if dict_in k (packages st) then None
                    else dict_get k (Packages st0)).
Proof.
  intros HP HG Hkey.
  set (L := section_lines (packages st) st).
  assert (Hno : forall y, y ∈ L -> LF ∉ y)
    by (intros y; apply section_lines_no_lf; assumption).
  destruct (section_lines_read glob (packages st) L (set_extra_files [] st0)
              HP) as (st' & Hrun & HE & Hact & Hrest).
  { intros k Hin. apply dict_in_get in Hin as [v Hget].
    apply (Hkey k v Hget). }
  { apply sorted_set_NoDup. }
  { intros l Hl. apply section_lines_elem in Hl.
    destruct Hl as [([k v] & Hin & ->)|(kv & _ & ->)]; [right|left; eauto].
    exists k, v. split; [reflexivity|].
    assert (Hget : dict_get k (packages st) = Some v)
      by (apply elem_dict_get;
          [apply (proj1 (tidy_good _ HP))|exact Hin]).
    split; [exact Hget|]. destruct (Hkey k v Hget) as [_ H].
    destruct st0; exact H. }
  exists st'.
  assert (Hread : readlines (make_ini st)
            = [txt "[General]" ++ [LF]; [LF]; txt "[ExtraFiles]" ++ [LF];
               [LF]; txt "[Packages]" ++ [LF]]
              ++ match L with
                 | [] => [[LF]]
                 | _ => map (fun l => l ++ [LF]) L
                 end).
  { rewrite <- (readlines_section L Hno).
    change (make_ini st)
      with (concat [txt "[General]" ++ [LF]; [LF];
                    txt "[ExtraFiles]" ++ [LF]; [LF];
                    txt "[Packages]" ++ [LF]]
              ++ (join [LF] L ++ [LF])).
    apply readlines_lines. repeat constructor.
    - exists (txt "[General]"). split; [|reflexivity].
      apply not_elem_of_txt. reflexivity.
    - exists []. split; [|reflexivity]. intros H. inversion H.
    - exists (txt "[ExtraFiles]"). split; [|reflexivity].
      apply not_elem_of_txt. reflexivity.
    - exists []. split; [|reflexivity]. intros H. inversion H.
    - exists (txt "[Packages]"). split; [|reflexivity].
      apply not_elem_of_txt. reflexivity. }
  split.
  { unfold read_ini. rewrite Hread, read_ini_lines_app.
    change (read_ini_lines glob false _ (GENERAL, st0))
      with (Ok (A := Category * state) (PACKAGES, set_extra_files [] st0)).
    cbn [mbind result_bind].
    destruct L as [|y L'] eqn:HL.
    - cbn [map read_ini_lines] in Hrun. injection Hrun as <-. reflexivity.
    - rewrite Hrun. reflexivity. }
  split; [rewrite HE; destruct st0; reflexivity|].
  split.
  - intros k. destruct (dict_get k (packages st)) as [v|] eqn:Hget.
    + apply (Hact k v Hget). apply section_lines_elem. left.
      exists (k, v). split; [apply dict_get_elem, Hget|reflexivity].
    + destruct (Hrest k) as [H _]; [intros v Hv; congruence|].
      rewrite H. destruct st0; reflexivity.
  - intros k. unfold dict_in at 1.
    destruct (dict_get k (packages st)) as [v|] eqn:Hget.
    + apply (Hact k v Hget). apply section_lines_elem. left.
      exists (k, v). split; [apply dict_get_elem, Hget|reflexivity].
    + destruct (Hrest k) as [_ H]; [intros v Hv; congruence|].
      rewrite H. destruct st0; reflexivity.
Qed.

(** X12: what [make_ini] writes, [read_ini] reads back.  Read as the
    project's settings file by a model whose registry knows the project's
    packages, the file is read without failure, each package of the
    project becomes a package of the reading model with the same id and
    leaves its registry, the commented lines have no effect, and the
    list of extra files is emptied by the empty section of the file, the
    defaults README and LICENSE included. *)
Theorem made_ini_reads_back (glob : str -> list str) (st st0 : state) :
  tidy (packages st) = true ->
  tidy (Packages st) = true ->
  forallb (fun kv => reads_back kv.1 && dict_in kv.1 (Packages st0))
    (packages st) = true ->
  exists st',
    read_ini glob (make_ini st) false st0 = Ok st'
    /\ extra_files st' = []
    /\ (forall k, dict_get k (packages st')
                  = match dict_get k (packages st) with
                    | Some v => Some v
                    | None => dict_get k (packages st0)
                    end)
    /\ (forall k, dict_get k (Packages st')
                  = if dict_in k (packages st) then None
                    else dict_get k (Packages st0)).
Proof.
  intros HP HG Hall. rewrite forallb_forall in Hall.
  apply make_ini_read; [exact HP|exact HG|].
  intros k v Hget. apply andb_true_iff.
  apply (Hall (k, v)), list_elem_of_In, dict_get_elem, Hget.
Qed.

Lemma made_ini_reads_back_witness :
  exists st',
    read_ini (fun _ => [])
      (make_ini (set_packages [(txt "Gtk", txt "gtk+-3.0")]
                   (set_Packages [(txt "Gee", txt "gee-0.8")]
                      (Model_init [] [] [] false))))
      false (Model_init [] [] [] false) = Ok st'
    /\ extra_files st' = []
    /\ dict_get (txt "Gtk") (packages st') = Some (txt "gtk+-3.0")
    /\ dict_get (txt "Gtk") (Packages st') = None.
Proof.
  destruct (made_ini_reads_back (fun _ => [])
              (set_packages [(txt "Gtk", txt "gtk+-3.0")]
                 (set_Packages [(txt "Gee", txt "gee-0.8")]
                    (Model_init [] [] [] false)))
              (Model_init [] [] [] false))
    as (st' & Hrun & HE & Hp & HG); try reflexivity.
  exists st'. split; [exact Hrun|]. split; [exact HE|].
  split; [exact (Hp (txt "Gtk"))|exact (HG (txt "Gtk"))].
Defined.

(** ** The settings file of a new project *)

Lemma new_ini_line_comment (kind : option New) (kv : str * str) :
  bool_decide (kind = Some GUI) && bool_decide (kv.1 = txt "Gtk") = false ->
  new_ini_line kind kv = inactive_line kv ++ [LF].
Proof.
  intros H. unfold new_ini_line, inactive_line. rewrite H. cbv zeta.
  rewrite <- !app_assoc. reflexivity.
Qed.

Lemma new_ini_line_active (v : str) :
  new_ini_line (Some GUI) (txt "Gtk", v) = active_line (txt "Gtk", v) ++ [LF].
Proof.
  unfold new_ini_line, active_line. cbn [fst snd].
  rewrite !bool_decide_eq_true_2 by reflexivity. cbn [andb].
  rewrite <- !app_assoc. reflexivity.
Qed.

Lemma new_ini_comments_read (glob : str -> list str) (kind : option New)
    (D : dict) (s : state) :
  bool_decide (kind = Some GUI) && dict_in (txt "Gtk") D = false ->
  read_ini_lines glob false (map (new_ini_line kind) D) (PACKAGES, s)
  = Ok (PACKAGES, s).
Proof.
  intros H. induction D as [|[k v] D IH]; [reflexivity|].
  cbn [map read_ini_lines].
  assert (Hk : bool_decide (kind = Some GUI) && bool_decide (k = txt "Gtk")
               = false /\
               bool_decide (kind = Some GUI) && dict_in (txt "Gtk") D = false).
  { destruct (bool_decide (kind = Some GUI)); [|split; reflexivity].
    cbn [andb] in *. unfold dict_in in H. cbn [dict_get] in H.
    destruct (decide (txt "Gtk" = k)) as [<-|Hne]; [discriminate|].
    split; [apply bool_decide_eq_false_2; congruence|exact H]. }
  destruct Hk as [Hk HD].
  rewrite (new_ini_line_comment kind (k, v) Hk), comment_line_read.
  cbn [mbind result_bind]. apply IH, HD.
Qed.

Lemma new_ini_lines_read (glob : str -> list str) (kind : option New)
    (D : dict) (s : state) :
  tidy D = true ->
  read_ini_lines glob false (map (new_ini_line kind) D) (PACKAGES, s)
  = match (if bool_decide (kind = Some GUI) then dict_get (txt "Gtk") D
           else None) with
    | Some v =>
        if dict_in (txt "Gtk") (Packages s) then
          Ok (PACKAGES,
              set_Packages (dict_del (txt "Gtk") (Packages s))
                (set_packages (dict_set (txt "Gtk") v (packages s)) s))
        else Raise (KeyError (txt "Gtk"))
    | None => Ok (PACKAGES, s)
    end.
Proof.
  intros HD.
  destruct (bool_decide (kind = Some GUI)) eqn:Hkind;
    [|apply new_ini_comments_read; rewrite Hkind; reflexivity].
  apply bool_decide_eq_true_1 in Hkind. subst kind.
  assert (Hnd : NoDup (keys D)) by apply (proj1 (tidy_good _ HD)).
  assert (Hprop : forall k v, (k, v) ∈ D -> clean v = true)
    by (intros k v Hin; apply (tidy_elem D k v HD Hin)).
  clear HD. induction D as [|[k v] D IH]; [reflexivity|].
  cbn [keys map fst] in Hnd. apply NoDup_cons in Hnd as [Hk Hnd].
  cbn [map read_ini_lines dict_get].
  destruct (decide (txt "Gtk" = k)) as [<-|Hne].
  - rewrite new_ini_line_active.
    rewrite (packages_line_read glob (txt "Gtk") v s eq_refl eq_refl)
      by (first [reflexivity | apply (Hprop (txt "Gtk") v); left]).
    destruct (dict_in (txt "Gtk") (Packages s)); [|reflexivity].
    cbn [mbind result_bind]. apply new_ini_comments_read.
    cbn [andb bool_decide]. rewrite bool_decide_eq_true_2 by reflexivity.
    cbn [andb]. destruct (dict_in (txt "Gtk") D) eqn:Hin; [|reflexivity].
    exfalso. apply Hk, dict_in_keys, Hin.
  - rewrite new_ini_line_comment, comment_line_read.
    + cbn [mbind result_bind]. apply IH; [exact Hnd|].
      intros k' v' Hin. apply (Hprop k' v'). right. exact Hin.
    + cbn [fst]. rewrite (bool_decide_eq_false_2 (k = txt "Gtk")) by congruence.
      apply andb_false_r.
Qed.

(** X13: the settings file that [make_new_ini] writes for a new project is
    read back without surprise.  For an application, and for any kind when
    the registry has no Gtk, reading it only empties the list of extra
    files; for a project with a window it also makes Gtk, with the
    registry's id, a package of the project and takes it out of the
    reader's registry, and it fails, with the key error, only when the
    reader's registry has no Gtk. *)
Theorem new_ini_reads_back (glob : str -> list str) (kind : option New)
    (st st0 : state) :
  tidy (Packages st) = true ->
  read_ini glob (make_new_ini kind st) false st0
  = match (if bool_decide (kind = Some GUI)
           then dict_get (txt "Gtk") (Packages st) else None) with
    | Some v =>
        if dict_in (txt "Gtk") (Packages st0) then
          Ok (set_Packages (dict_del (txt "Gtk") (Packages st0))
                (set_packages (dict_set (txt "Gtk") v (packages st0))
                   (set_extra_files [] st0)))
        else Raise (KeyError (txt "Gtk"))
    | None => Ok (set_extra_files [] st0)
    end.
Proof.
  intros HG.
  assert (Hread : readlines (make_new_ini kind st)
            = [txt "[General]" ++ [LF]; [LF]; txt "[ExtraFiles]" ++ [LF];
               [LF]; txt "[Packages]" ++ [LF]]
              ++ map (new_ini_line kind) (Packages st)).
  { change (make_new_ini kind st)
      with (concat [txt "[General]" ++ [LF]; [LF];
                    txt "[ExtraFiles]" ++ [LF]; [LF];
                    txt "[Packages]" ++ [LF]]
              ++ flat_map (new_ini_line kind) (Packages st)).
    rewrite flat_map_concat_map, <- concat_app.
    rewrite <- (app_nil_r (concat _)), readlines_lines; [apply app_nil_r|].
    apply Forall_app. split.
    - repeat constructor.
      + exists (txt "[General]"). split; [|reflexivity].
        apply not_elem_of_txt. reflexivity.
      + exists []. split; [|reflexivity]. intros H. inversion H.
      + exists (txt "[ExtraFiles]"). split; [|reflexivity].
        apply not_elem_of_txt. reflexivity.
      + exists []. split; [|reflexivity]. intros H. inversion H.
      + exists (txt "[Packages]"). split; [|reflexivity].
        apply not_elem_of_txt. reflexivity.
    - apply Forall_forall. intros l Hl.
      apply list_elem_of_fmap in Hl as ([k v] & -> & Hin).
      destruct (tidy_elem _ k v HG Hin) as (_ & Hk & Hv).
      unfold new_ini_line. cbn [fst snd]. cbv zeta.
      exists ((if bool_decide (kind = Some GUI) && bool_decide (k = txt "Gtk")
               then [] else txt "# ") ++ k ++ txt " = " ++ v).
      split; [|rewrite <- !app_assoc; reflexivity].
      apply not_elem_of_app;
        [destruct (_ && _); apply not_elem_of_txt; reflexivity|].
      apply (active_line_no_lf k v Hk Hv). }
  unfold read_ini. rewrite Hread, read_ini_lines_app.
  change (read_ini_lines glob false _ (GENERAL, st0))
    with (Ok (A := Category * state) (PACKAGES, set_extra_files [] st0)).
  cbn [mbind result_bind].
  rewrite (new_ini_lines_read glob kind (Packages st) _ HG).
  destruct (if bool_decide (kind = Some GUI)
            then dict_get (txt "Gtk") (Packages st) else None) as [v|];
    [|reflexivity].
  replace (Packages (set_extra_files [] st0)) with (Packages st0)
    by (destruct st0; reflexivity).
  destruct (dict_in (txt "Gtk") (Packages st0)); reflexivity.
Qed.

Lemma new_ini_reads_back_witness :
  read_ini (fun _ => [])
    (make_new_ini (Some GUI) (Model_init [] [] [] false)) false
    (Model_init [] [] [] false)
  = Ok (set_Packages [(txt "Gee", txt "gee-0.8"); (txt "Gio", txt "gio-2.0")]
          (set_packages [(txt "Gtk", txt "gtk+-3.0")]
             (set_extra_files [] (Model_init [] [] [] false)))).
Proof.
  refine (new_ini_reads_back (fun _ => []) (Some GUI)
            (Model_init [] [] [] false) (Model_init [] [] [] false) _).
  reflexivity.
Defined.

(** ** What the scanner does to the two dictionaries *)

Lemma kept_or_moved_refl (st : state) (k : str) : kept_or_moved st st k.
Proof. left. split; reflexivity. Qed.

Lemma kept_or_moved_trans (st st1 st2 : state) (k : str) :
  kept_or_moved st st1 k -> kept_or_moved st1 st2 k -> kept_or_moved st st2 k.
Proof.
  intros [[H1 H2]|(H1 & H2 & H3)] [[H4 H5]|(H4 & H5 & H6)].
  - left. split; congruence.
  - right. repeat split; congruence.
  - right. repeat split; congruence.
  - congruence.
Qed.

Lemma kept_or_moved_same (st st' : state) (k : str) :
  Packages st' = Packages st -> packages st' = packages st ->
  kept_or_moved st st' k.
Proof. intros H1 H2. left. rewrite H1, H2. split; reflexivity. Qed.

Lemma scan_line_kept_or_moved (line : str) (sc sc' : scanner) (k : str) :
  scan_line line sc = Ok sc' -> kept_or_moved (st_of sc) (st_of sc') k.
Proof.
  intros Hrun. destruct (scan_line_steps line sc sc' Hrun)
    as [(pkg & Hd)|(_ & H1 & H2)]; [|apply kept_or_moved_same; assumption].
  destruct (discovered_moves _ _ _ Hd) as (value & Hget & HG & HP & _).
  change (st_of (log (Examined line) sc)) with (st_of sc) in *.
  unfold kept_or_moved. rewrite HG, HP, dict_get_del, dict_get_set.
  destruct (decide (k = pkg)) as [->|_].
  - right. rewrite Hget. repeat split. discriminate.
  - left. split; reflexivity.
Qed.

Lemma scan_lines_kept_or_moved (WIN : bool) (lines : list str)
    (sc sc' : scanner) (k : str) :
  scan_lines WIN lines sc = Ok sc' -> kept_or_moved (st_of sc) (st_of sc') k.
Proof.
  revert sc. induction lines as [|line rest IH]; intros sc.
  - intros [= <-]. apply kept_or_moved_refl.
  - cbn [scan_lines]. destruct (negb (more_to_do WIN (st_of sc))).
    + intros [= <-]. apply kept_or_moved_refl.
    + destruct (scan_line line sc) as [sc1|e] eqn:H1; [|discriminate].
      cbn [mbind result_bind]. intros H2.
      eapply kept_or_moved_trans;
        [apply (scan_line_kept_or_moved line sc sc1 k H1)|apply IH, H2].
Qed.

Lemma scan_files_kept_or_moved (WIN : bool) (valas : list (str * str))
    (sc sc' : scanner) (k : str) :
  scan_files WIN valas sc = Ok sc' -> kept_or_moved (st_of sc) (st_of sc') k.
Proof.
  revert sc. induction valas as [|[path text] rest IH]; intros sc.
  - intros [= <-]. apply kept_or_moved_refl.
  - cbn [scan_files].
    destruct (scan_lines WIN (readlines text) (log (Opened path) sc))
      as [sc1|e] eqn:H1; [|discriminate].
    cbn [mbind result_bind].
    pose proof (scan_lines_kept_or_moved WIN _ _ _ k H1) as Hstep.
    change (st_of (log (Opened path) sc)) with (st_of sc) in Hstep.
    destruct (negb (more_to_do WIN (st_of sc1))).
    + intros [= <-]. exact Hstep.
    + intros H2. eapply kept_or_moved_trans; [exact Hstep|apply IH, H2].
Qed.

Lemma scan_kept_or_moved (WIN : bool) (valas : list (str * str))
    (st st' : state) (evs : list event) :
  scan WIN valas st = Ok (st', evs) -> forall k, kept_or_moved st st' k.
Proof.
  intros Hrun k. unfold scan in Hrun. destruct (more_to_do WIN st).
  - destruct (scan_files WIN valas _) as [sc|e] eqn:Hf; [|discriminate].
    cbn [mbind result_bind] in Hrun. injection Hrun as <- _.
    exact (scan_files_kept_or_moved WIN valas _ sc k Hf).
  - injection Hrun as <- _. apply kept_or_moved_refl.
Qed.

(** X14: scanning the sources only moves entries from the registry to the
    project's packages.  For every name, either its entries in the two
    dictionaries are after the scan what they were before, or the registry
    had the name, has it no more, and the project has it with the
    registry's id.  So no package is invented, no id is changed, nothing
    goes back to the registry; and when no name was in both dictionaries
    before, every package that the project had it still has, with its
    id. *)
Theorem scan_only_moves (WIN : bool) (valas : list (str * str))
    (st st' : state) (evs : list event) :
  scan WIN valas st = Ok (st', evs) ->
  (forall k, kept_or_moved st st' k)
  /\ (exclusive st ->
      forall k v, dict_get k (packages st) = Some v ->
                  dict_get k (packages st') = Some v).
Proof.
  intros Hrun.
  pose proof (scan_kept_or_moved WIN valas st st' evs Hrun) as Hall.
  split; [exact Hall|].
  intros Hex k v Hget. destruct (Hall k) as [[_ H]|(H1 & _ & _)].
  - rewrite H. exact Hget.
  - exfalso. apply (Hex k); apply dict_in_get.
    + destruct (dict_get k (Packages st)) as [w|]; [eauto|congruence].
    + eauto.
Qed.

Lemma scan_only_moves_witness :
  kept_or_moved (Model_init [] [] [] false)
    (set_packages [(txt "Gtk", txt "gtk+-3.0")]
       (set_Packages
          [(txt "Gee", txt "gee-0.8"); (txt "Gio", txt "gio-2.0")]
          (Model_init [] [] [] false)))
    (txt "Gtk").
Proof.
  refine (proj1 (scan_only_moves false
                   [(txt "main.vala", txt "Gtk.init(ref args);" ++ [LF])]
                   (Model_init [] [] [] false) _
                   [Opened (txt "main.vala");
                    Examined (txt "Gtk.init(ref args);" ++ [LF])] _)
            (txt "Gtk")).
  vm_compute. reflexivity.
Defined.

Lemma scan_line_ok (line : str) (sc : scanner) :
  rx_current sc -> Packages (st_of sc) <> [] ->
  exists sc', scan_line line sc = Ok sc'.
Proof.
  intros Hrx Hne. unfold scan_line.
  change (pkg_rx (log (Examined line) sc)) with (pkg_rx sc).
  change (st_of (log (Examined line) sc)) with (st_of sc).
  assert (Hmove : forall pkg, dict_in pkg (Packages (st_of sc)) = true ->
            exists sc', discovered (log (Examined line) sc) pkg = Ok sc').
  { intros pkg Hin. apply dict_in_get in Hin as [v Hget].
    unfold discovered, update_packages.
    change (st_of (log (Examined line) sc)) with (st_of sc). rewrite Hget.
    destruct (negb _); cbn [mbind result_bind]; eauto. }
  assert (Hkeys : keys (Packages (st_of sc)) <> []).
  { destruct (Packages (st_of sc)); [congruence|discriminate]. }
  rewrite (Hrx Hne), (re_search_pkg_pattern _ line Hkeys).
  destruct (first_word (keys (Packages (st_of sc))) None line) as [pkg|] eqn:Hw.
  - cbn [option_map]. change (group (Some pkg)) with pkg.
    apply Hmove, dict_in_keys, (first_word_in _ _ _ _ Hw).
  - cbn [option_map].
    destruct (dict_in GIO (Packages (st_of sc))) eqn:Hgio; [|eauto].
    destruct (re_search GIO_RX line); [apply Hmove, Hgio|eauto].
Qed.

Lemma scan_line_archive (line : str) (sc sc' : scanner) :
  scan_line line sc = Ok sc' -> archive (st_of sc') = archive (st_of sc).
Proof.
  assert (Hd : forall pkg s s', discovered s pkg = Ok s' ->
            archive (st_of s') = archive (st_of s)).
  { intros pkg s s'. unfold discovered, update_packages.
    destruct (dict_get pkg (Packages (st_of s))); [|discriminate].
    destruct (negb _); cbn [mbind result_bind]; intros [= <-];
      destruct (st_of s); reflexivity. }
  assert (Hv : forall s, archive (st_of (scan_version line s))
                         = archive (st_of s)).
  { intros s. unfold scan_version.
    destruct (bool_decide _); [|reflexivity].
    destruct (re_search VERSION_RX line); [|reflexivity].
    destruct (st_of s); reflexivity. }
  unfold scan_line.
  change (archive (st_of sc))
    with (archive (st_of (log (Examined line) sc))).
  destruct (re_search _ line); [apply Hd|].
  destruct (dict_in GIO _);
    [destruct (re_search GIO_RX line); [apply Hd|]|];
    intros [= <-]; apply Hv.
Qed.

Lemma more_to_do_registry (WIN : bool) (st : state) :
  WIN && archive st = false ->
  more_to_do WIN st = true -> Packages st <> [].
Proof.
  unfold more_to_do. intros Hz. rewrite Hz. cbn [andb]. rewrite orb_false_r.
  intros H. apply negb_true_iff, bool_decide_eq_false_1 in H. exact H.
Qed.

Lemma scan_lines_ok (WIN : bool) (lines : list str) (sc : scanner) :
  WIN && archive (st_of sc) = false -> rx_current sc ->
  exists sc', scan_lines WIN lines sc = Ok sc'
              /\ archive (st_of sc') = archive (st_of sc) /\ rx_current sc'.
Proof.
  revert sc. induction lines as [|line rest IH]; intros sc Hz Hrx.
  - exists sc. split; [reflexivity|split; [reflexivity|exact Hrx]].
  - cbn [scan_lines]. destruct (more_to_do WIN (st_of sc)) eqn:Hmore.
    + cbn [negb].
      destruct (scan_line_ok line sc Hrx (more_to_do_registry _ _ Hz Hmore))
        as [sc1 H1].
      rewrite H1. cbn [mbind result_bind].
      pose proof (scan_line_archive line sc sc1 H1) as Ha.
      destruct (scan_line_current line sc sc1 Hrx H1) as [Hrx1 _].
      destruct (IH sc1) as (sc' & Hrun & Ha' & Hrx');
        [rewrite Ha; exact Hz|exact Hrx1|].
      exists sc'. split; [exact Hrun|split; [congruence|exact Hrx']].
    + exists sc. split; [reflexivity|split; [reflexivity|exact Hrx]].
Qed.

Lemma scan_files_ok (WIN : bool) (valas : list (str * str)) (sc : scanner) :
  WIN && archive (st_of sc) = false -> rx_current sc ->
  exists sc', scan_files WIN valas sc = Ok sc'.
Proof.
  revert sc. induction valas as [|[path text] rest IH]; intros sc Hz Hrx.
  - exists sc. reflexivity.
  - cbn [scan_files].
    destruct (scan_lines_ok WIN (readlines text) (log (Opened path) sc))
      as (sc1 & H1 & Ha & Hrx1); [exact Hz|exact Hrx|].
    rewrite H1. cbn [mbind result_bind].
    destruct (negb (more_to_do WIN (st_of sc1))); [eauto|].
    apply IH; [|exact Hrx1]. rewrite Ha. exact Hz.
Qed.

(** X15: off Windows, and on Windows when no archive is asked for, the
    scan of sources that are opened and decoded never fails when the names
    of the registry are made of letters, digits and underscores only:
    whatever the text of the sources, it ends with a model and the list of
    what it opened and examined.  (A name with another character is
    compiled as a pattern, which can match a word that the registry does
    not hold.) *)
Theorem scan_never_raises (WIN : bool) (valas : list (str * str))
    (st : state) :
  plain_names (Packages st) = true ->
  WIN && archive st = false ->
  exists st' evs, scan WIN valas st = Ok (st', evs).
Proof.
  intros _ Hz. unfold scan. destruct (more_to_do WIN st); [|eauto].
  destruct (scan_files_ok WIN valas
              (mk_scanner (pkg_pattern (keys (Packages st))) st []))
    as [sc Hrun]; [exact Hz|intros _; reflexivity|].
  rewrite Hrun. cbn [mbind result_bind]. eauto.
Qed.

Lemma scan_never_raises_witness :
  exists st' evs,
    scan true [(txt "main.vala", txt "Gtk.init(ref args);" ++ [LF])]
      (Model_init [] [] [] false) = Ok (st', evs).
Proof.
  apply (scan_never_raises true
           [(txt "main.vala", txt "Gtk.init(ref args);" ++ [LF])]
           (Model_init [] [] [] false)); reflexivity.
Defined.

(** ** Where the scanner fails *)

Lemma re_search_single_name (k line pre : str) :
  occurs_as_word k line pre ->
  re_search (pkg_pattern [k]) line = Some (Some k).
Proof.
  intros (post & -> & Hw).
  rewrite re_search_pkg_pattern by discriminate.
  destruct (first_word_complete [k] None pre post k) as [found Hf];
    [left|exact Hw|].
  rewrite Hf. apply first_word_in, list_elem_of_singleton in Hf.
  subst found. reflexivity.
Qed.

Lemma dict_del_single (k v : str) : dict_del k [(k, v)] = [].
Proof.
  unfold dict_del. rewrite filter_cons_False; [reflexivity|].
  cbn [fst]. intros H. apply H. reflexivity.
Qed.

Lemma scan_line_single (k line pre : str) (sc : scanner) :
  pkg_rx sc = pkg_pattern [k] ->
  occurs_as_word k line pre ->
  scan_line line sc = discovered (log (Examined line) sc) k.
Proof.
  intros Hrx Hw. unfold scan_line.
  change (pkg_rx (log (Examined line) sc)) with (pkg_rx sc).
  rewrite Hrx, (re_search_single_name k line pre Hw). reflexivity.
Qed.

(** X16: on Windows with an archive asked for, the scan fails when the
    last name that is left in the registry, a name made of letters, digits
    and underscores only, stands as a word on two lines of ASCII text that
    are scanned while the version is still unknown.  The first line moves
    the package and empties the registry, the pattern is not compiled
    again, the second line makes it match once more, and the lookup of
    the name in the emptied registry raises the key error, which [main]
    does not catch. *)
Theorem last_package_twice_raises (line1 line2 k v pre1 pre2 : str)
    (rest : list str) (sc : scanner) :
  rx_current sc ->
  plain_name k = true ->
  ascii_text line1 = true ->
  ascii_text line2 = true ->
  Packages (st_of sc) = [(k, v)] ->
  archive (st_of sc) = true ->
  version (st_of sc) = None ->
  occurs_as_word k line1 pre1 ->
  occurs_as_word k line2 pre2 ->
  scan_lines true (line1 :: line2 :: rest) sc = Raise (KeyError k)
  /\ handled_by_main (KeyError k) = false.
Proof.
  intros Hrx _ _ _ HG Hz Hv H1 H2. split; [|reflexivity].
  assert (Hrx' : pkg_rx sc = pkg_pattern [k]).
  { rewrite Hrx by (rewrite HG; discriminate). rewrite HG. reflexivity. }
  set (st1 := set_Packages []
                (set_packages (dict_set k v (packages (st_of sc)))
                   (st_of sc))).
  set (sc1 := mk_scanner (pkg_pattern [k]) st1
                (Examined line1 :: events sc)).
  assert (Hs1 : scan_line line1 sc = Ok sc1).
  { rewrite (scan_line_single k line1 pre1 sc Hrx' H1).
    unfold discovered, update_packages.
    change (st_of (log (Examined line1) sc)) with (st_of sc).
    rewrite HG. cbn [dict_get].
    destruct (decide (k = k)) as [_|N]; [|congruence].
    cbn [Packages set_Packages set_packages]. rewrite HG, dict_del_single.
    rewrite bool_decide_eq_true_2 by reflexivity.
    cbn [negb mbind result_bind fst snd]. unfold sc1, st1.
    change (pkg_rx (log (Examined line1) sc)) with (pkg_rx sc).
    rewrite Hrx'. reflexivity. }
  assert (Hs2 : scan_line line2 sc1 = Raise (KeyError k)).
  { rewrite (scan_line_single k line2 pre2 sc1 eq_refl H2).
    unfold discovered, update_packages. reflexivity. }
  assert (Hm : more_to_do true (st_of sc) = true).
  { unfold more_to_do. rewrite HG. reflexivity. }
  assert (Hm1 : more_to_do true (st_of sc1) = true).
  { unfold more_to_do.
    unfold sc1, st1.
    cbn [st_of archive version set_Packages set_packages]. rewrite Hz, Hv.
    rewrite (bool_decide_eq_true_2 (None = None)) by reflexivity.
    apply orb_true_r. }
  cbn [scan_lines]. rewrite Hm, Hs1. cbn [negb mbind result_bind].
  rewrite Hm1, Hs2. reflexivity.
Qed.

Lemma last_package_twice_raises_witness :
  scan_lines true
    [txt "Gtk.init(ref args);" ++ [LF]; txt "Gtk.main();" ++ [LF]]
    (mk_scanner (pkg_pattern [txt "Gtk"])
       (set_Packages [(txt "Gtk", txt "gtk+-3.0")]
          (Model_init [] [] [] true)) [])
  = Raise (KeyError (txt "Gtk")).
Proof.
  refine (proj1 (last_package_twice_raises
                   (txt "Gtk.init(ref args);" ++ [LF])
                   (txt "Gtk.main();" ++ [LF])
                   (txt "Gtk") (txt "gtk+-3.0") [] [] []
                   (mk_scanner (pkg_pattern [txt "Gtk"])
                      (set_Packages [(txt "Gtk", txt "gtk+-3.0")]
                         (Model_init [] [] [] true)) [])
                   _ _ _ _ _ _ _ _ _)).
  - intros _. reflexivity.
  - reflexivity.
  - reflexivity.
  - reflexivity.
  - reflexivity.
  - reflexivity.
  - reflexivity.
  - exists (txt "Gtk.init(ref args);" ++ [LF]). split; reflexivity.
  - exists (txt "Gtk.main();" ++ [LF]). split; reflexivity.
Defined.

Lemma match_here_empty_pattern (prev : option ascii) (s : str) :
  match_here (pkg_pattern []) prev s
  = if at_boundary prev s then Some (Some []) else None.
Proof.
  unfold match_here, pkg_pattern. cbn [alternation matches].
  destruct (at_boundary prev s) eqn:Hb; [|reflexivity].
  cbn [startswith length last]. rewrite drop_0, Hb, Nat.sub_diag.
  reflexivity.
Qed.

Lemma search_empty_pattern (prev : option ascii) (s : str) :
  is_word_opt prev = true \/ (exists c, c ∈ s /\ is_word c = true) ->
  search_from (pkg_pattern []) prev s = Some (Some []).
Proof.
  revert prev. induction s as [|c s IH]; intros prev H.
  - cbn [search_from]. rewrite match_here_empty_pattern.
    destruct H as [H|(c & Hc & _)]; [|inversion Hc].
    unfold at_boundary. rewrite H. reflexivity.
  - cbn [search_from]. rewrite match_here_empty_pattern.
    destruct (at_boundary prev (c :: s)) eqn:Hb; [reflexivity|].
    apply IH. unfold at_boundary in Hb. cbn [head is_word_opt] in Hb.
    destruct H as [H|(x & Hx & Hw)].
    + left. rewrite H in Hb. cbn [is_word_opt].
      destruct (is_word c); [reflexivity|discriminate].
    + apply elem_of_cons in Hx as [->|Hx]; [left; exact Hw|right; eauto].
Qed.

(** X17: on Windows with an archive asked for and no version known, the
    scan fails at once when the registry is empty, as it is when the
    project's settings file names every package of the registry: the
    pattern compiled from no name matches the empty word on the first
    line that holds a letter, a digit or an underscore, and the lookup of
    the empty name raises the key error, which [main] does not catch. *)
Theorem empty_registry_raises (path text line : str) (lines : list str)
    (more : list (str * str)) (st : state) :
  Packages st = [] ->
  archive st = true ->
  version st = None ->
  readlines text = line :: lines ->
  (exists c, c ∈ line /\ is_word c = true) ->
  scan true ((path, text) :: more) st = Raise (KeyError [])
  /\ handled_by_main (KeyError []) = false.
Proof.
  intros HG Hz Hv Hread Hword. split; [|reflexivity].
  assert (Hm : more_to_do true st = true).
  { unfold more_to_do. rewrite Hz, Hv.
    rewrite (bool_decide_eq_true_2 (None = None)) by reflexivity.
    apply orb_true_r. }
  unfold scan. rewrite Hm. cbn [scan_files]. rewrite Hread.
  cbn [scan_lines]. change (st_of (log (Opened path) _)) with st.
  rewrite Hm. cbn [negb].
  unfold scan_line at 1. cbn [log pkg_rx st_of events].
  rewrite HG. cbn [keys map].
  unfold re_search. rewrite search_empty_pattern by (right; exact Hword).
  unfold discovered, update_packages. cbn [st_of log]. rewrite HG.
  reflexivity.
Qed.

Lemma empty_registry_raises_witness :
  scan true [(txt "main.vala", txt "void main() {}" ++ [LF])]
    (set_Packages [] (Model_init [] [] [] true))
  = Raise (KeyError []).
Proof.
  refine (proj1 (empty_registry_raises (txt "main.vala")
                   (txt "void main() {}" ++ [LF])
                   (txt "void main() {}" ++ [LF]) [] []
                   (set_Packages [] (Model_init [] [] [] true))
                   _ _ _ _ _)); try reflexivity.
  exists "v"%char. split; [left|reflexivity].
Defined.

(** ** The order of the Packages section *)

Lemma inactive_line_hash (kv : str * str) :
  exists r, inactive_line kv = "#"%char :: r.
Proof. unfold inactive_line. cbn [txt app]. eauto. Qed.

Lemma hash_before_plain (x y : str) (P : dict) (st : state) :
  forallb (fun kv => name_ok kv.1) P = true ->
  x ∈ map inactive_line (Packages st) -> y ∈ map active_line P ->
  str_le x y /\ x <> y.
Proof.
  intros HP Hx Hy.
  apply list_elem_of_fmap in Hx as (kv & -> & _).
  apply list_elem_of_fmap in Hy as ([k v] & -> & Hin).
  rewrite forallb_forall in HP.
  pose proof (HP (k, v) (proj1 (list_elem_of_In _ _) Hin)) as Hk.
  cbn [fst] in Hk.
  destruct (inactive_line_hash kv) as [r Hr].
  destruct (active_line_plain k v Hk) as (c & r' & Hl & Hc).
  split.
  - destruct (total str_le (inactive_line kv) (active_line (k, v)))
      as [H|H]; [exact H|].
    exfalso. exact (plain_not_before_hash _ _ c r' r Hl Hc Hr H).
  - intros Heq. rewrite Hr, Hl in Heq. injection Heq as <- _.
    simpl in Hc. lia.
Qed.

(** X18: the lines of the Packages section that the tool writes are the
    registry's entries, commented out, in ascending order and each once,
    followed by the project's packages, in ascending order and each once:
    a commented line never stands after an active one. *)
Theorem section_is_two_blocks (P : dict) (st : state) :
  forallb (fun kv => name_ok kv.1) P = true ->
  section_lines P st
  = sorted_set (map inactive_line (Packages st))
      ++ sorted_set (map active_line P).
Proof.
  intros HP.
  assert (Hcross : forall x y,
            x ∈ sorted_set (map inactive_line (Packages st)) ->
            y ∈ sorted_set (map active_line P) -> str_le x y /\ x <> y).
  { intros x y Hx Hy. rewrite elem_of_sorted_set in Hx, Hy.
    exact (hash_before_plain x y P st HP Hx Hy). }
  apply (Sorted_unique str_le).
  - apply Sorted_merge_sort. apply _.
  - apply StronglySorted_Sorted, StronglySorted_app.
    split; [|split; apply sorted_set_sorted].
    intros x y Hx Hy. apply (Hcross x y Hx Hy).
  - apply NoDup_Permutation.
    + apply sorted_set_NoDup.
    + apply NoDup_app. split; [apply sorted_set_NoDup|].
      split; [|apply sorted_set_NoDup].
      intros x Hx Hy. apply (Hcross x x Hx Hy). reflexivity.
    + intros x. unfold section_lines.
      rewrite elem_of_app, !elem_of_sorted_set, elem_of_app. tauto.
Qed.

Lemma section_is_two_blocks_witness :
  section_lines [(txt "Gtk", txt "gtk+-3.0"); (txt "Gee", txt "gee-0.8")]
    (set_Packages [(txt "Gio", txt "gio-2.0")] (Model_init [] [] [] false))
  = [txt "# Gio = gio-2.0"] ++ [txt "Gee = gee-0.8"; txt "Gtk = gtk+-3.0"].
Proof.
  rewrite (section_is_two_blocks
             [(txt "Gtk", txt "gtk+-3.0"); (txt "Gee", txt "gee-0.8")]
             (set_Packages [(txt "Gio", txt "gio-2.0")]
                (Model_init [] [] [] false)) eq_refl).
  vm_compute. reflexivity.
Defined.

(** ** The second pattern of the scanner *)

Lemma match_here_GIO_RX (prev : option ascii) (s : str) :
  match_here GIO_RX prev s
  = if at_boundary prev s && existsb (fun w => startswith w s) gio_words
    then Some None else None.
Proof.
  unfold match_here, GIO_RX, gio_words. cbn [matches existsb].
  destruct (at_boundary prev s); [|reflexivity]. cbn [andb].
  destruct (startswith (txt "File.") s); [reflexivity|].
  destruct (startswith (txt "ZlibCompressor") s); [reflexivity|].
  destruct (startswith (txt "Converter") s); reflexivity.
Qed.

Lemma gio_word_head (w : str) :
  w ∈ gio_words -> exists c r, w = c :: r /\ is_word c = true.
Proof.
  unfold gio_words. rewrite !elem_of_cons, elem_of_nil.
  intros [->|[->|[->|[]]]]; eexists _, _; split; reflexivity.
Qed.

Lemma gio_here_spec (prev : option ascii) (s : str) :
  at_boundary prev s && existsb (fun w => startswith w s) gio_words = true
  <-> is_word_opt prev = false
      /\ exists w post, s = w ++ post /\ w ∈ gio_words.
Proof.
  rewrite andb_true_iff, existsb_exists. split.
  - intros [Hb (w & Hw & Hs)]. apply list_elem_of_In in Hw.
    destruct (gio_word_head w Hw) as (c & r & -> & Hc).
    apply startswith_prefix in Hs. split; [|eauto].
    rewrite Hs in Hb. unfold at_boundary in Hb.
    cbn [app head is_word_opt] in Hb. rewrite Hc in Hb.
    destruct (is_word_opt prev); [discriminate|reflexivity].
  - intros [Hp (w & post & -> & Hw)].
    destruct (gio_word_head w Hw) as (c & r & -> & Hc). split.
    + unfold at_boundary. cbn [app head is_word_opt]. rewrite Hp, Hc.
      reflexivity.
    + exists (c :: r). split; [apply list_elem_of_In, Hw|].
      apply startswith_app.
Qed.

Lemma search_from_some (r : regex) (prev : option ascii) (pre post : str)
    (m : Match) :
  match_here r (prev_after prev pre) post = Some m ->
  exists m', search_from r prev (pre ++ post) = Some m'.
Proof.
  revert prev. induction pre as [|c pre IH]; intros prev Hm.
  - exists m. apply search_from_here. exact Hm.
  - cbn [app].
    destruct (match_here r prev (c :: pre ++ post)) as [m1|] eqn:H1.
    + exists m1. apply search_from_here, H1.
    + rewrite (search_from_next _ _ _ _ H1). apply IH.
      rewrite prev_after_cons in Hm. exact Hm.
Qed.

Lemma re_search_GIO_RX (line : str) :
  (exists m, re_search GIO_RX line = Some m) <-> gio_hint line.
Proof.
  unfold re_search. split.
  - intros [m Hm].
    apply search_from_found in Hm as (pre & post & -> & Hm & _).
    rewrite match_here_GIO_RX in Hm.
    destruct (_ && _) eqn:Hh; [|discriminate].
    apply gio_here_spec in Hh as [Hp (w & post' & -> & Hw)].
    exists pre, w, post'. repeat split; assumption.
  - intros (pre & w & post & -> & Hw & Hp).
    apply (search_from_some GIO_RX None pre (w ++ post) None).
    rewrite match_here_GIO_RX.
    rewrite (proj2 (gio_here_spec _ _)); [reflexivity|].
    split; [exact Hp|eauto].
Qed.

Lemma no_name_first_word (names : list str) (line : str) :
  (forall name pre, name ∈ names -> ~ occurs_as_word name line pre) ->
  first_word names None line = None.
Proof.
  intros Hno.
  destruct (first_word names None line) as [pkg|] eqn:Hw; [|reflexivity].
  exfalso.
  destruct (first_word_occurs _ _ _ _ Hw) as (pre & post & -> & Hhere).
  apply (Hno pkg pre (first_word_in _ _ _ _ Hw)).
  exists post. split; [reflexivity|exact Hhere].
Qed.

(** X19: while Gio is in a registry whose names are made of letters,
    digits and underscores only, a line of ASCII text on which no name of
    the registry stands as a word moves Gio to the project's packages
    exactly when one of the words File., ZlibCompressor or Converter
    begins on it at a place that no letter, digit or underscore precedes;
    what follows the word does not matter (Converters counts, MyFile.
    does not).  On any other such line the two dictionaries stay as they
    are. *)
Theorem gio_heuristic (line v : str) (sc : scanner) :
  rx_current sc ->
  plain_names (Packages (st_of sc)) = true ->
  ascii_text line = true ->
  dict_get GIO (Packages (st_of sc)) = Some v ->
  (forall name pre, name ∈ keys (Packages (st_of sc)) ->
                    ~ occurs_as_word name line pre) ->
  exists sc',
    scan_line line sc = Ok sc'
    /\ (gio_hint line ->
        Packages (st_of sc') = dict_del GIO (Packages (st_of sc))
        /\ packages (st_of sc') = dict_set GIO v (packages (st_of sc)))
    /\ (~ gio_hint line ->
        Packages (st_of sc') = Packages (st_of sc)
        /\ packages (st_of sc') = packages (st_of sc)).
Proof.
  intros Hrx _ _ Hget Hno.
  assert (Hin : dict_in GIO (Packages (st_of sc)) = true)
    by (apply dict_in_get; eauto).
  assert (Hne : Packages (st_of sc) <> [])
    by (intros E; rewrite E in Hget; discriminate).
  assert (Hkeys : keys (Packages (st_of sc)) <> [])
    by (destruct (Packages (st_of sc)); [congruence|discriminate]).
  assert (Hpkg : re_search (pkg_rx sc) line = None).
  { rewrite (Hrx Hne), (re_search_pkg_pattern _ line Hkeys),
      (no_name_first_word _ line Hno). reflexivity. }
  unfold scan_line.
  change (pkg_rx (log (Examined line) sc)) with (pkg_rx sc).
  change (st_of (log (Examined line) sc)) with (st_of sc).
  rewrite Hpkg, Hin.
  destruct (re_search GIO_RX line) as [m|] eqn:Hgio.
  - assert (Hhint : gio_hint line) by (apply re_search_GIO_RX; eauto).
    destruct (discovered (log (Examined line) sc) GIO) as [sc'|e] eqn:Hd.
    + exists sc'. split; [reflexivity|]. split; [|contradiction].
      intros _.
      destruct (discovered_moves _ _ _ Hd) as (v' & Hget' & HG & HP & _).
      change (st_of (log (Examined line) sc)) with (st_of sc) in *.
      rewrite Hget in Hget'. injection Hget' as <-. split; assumption.
    + exfalso. unfold discovered, update_packages in Hd.
      change (st_of (log (Examined line) sc)) with (st_of sc) in Hd.
      rewrite Hget in Hd. destruct (negb _) in Hd; discriminate.
  - exists (scan_version line (log (Examined line) sc)).
    split; [reflexivity|]. split.
    + intros Hhint.
      destruct (proj2 (re_search_GIO_RX line) Hhint) as [m Hm]. congruence.
    + intros _. unfold scan_version.
      destruct (bool_decide _); [|split; reflexivity].
      destruct (re_search VERSION_RX line); [|split; reflexivity].
      cbn [st_of log]. destruct (st_of sc); split; reflexivity.
Qed.

Lemma gio_heuristic_witness :
  exists sc',
    scan_line (txt "var f = File.new_for_path(p);" ++ [LF])
      (mk_scanner (pkg_pattern (keys default_Packages))
         (Model_init [] [] [] false) [])
    = Ok sc'
    /\ dict_get GIO (packages (st_of sc')) = Some (txt "gio-2.0")
    /\ dict_get GIO (Packages (st_of sc')) = None.
Proof.
  destruct (gio_heuristic (txt "var f = File.new_for_path(p);" ++ [LF])
              (txt "gio-2.0")
              (mk_scanner (pkg_pattern (keys default_Packages))
                 (Model_init [] [] [] false) []))
    as (sc' & Hrun & Hhint & _).
  - intros _. reflexivity.
  - reflexivity.
  - reflexivity.
  - reflexivity.
  - intros name pre Hin (post & Hl & Hw).
    destruct (first_word_complete _ None pre post name Hin Hw) as [found Hf].
    rewrite <- Hl in Hf. vm_compute in Hf. discriminate Hf.
  - exists sc'. split; [exact Hrun|].
    destruct Hhint as [HG HP].
    + exists (txt "var f = "), (txt "File."),
        (txt "new_for_path(p);" ++ [LF]).
      split; [reflexivity|]. split; [|reflexivity].
      unfold gio_words. left.
    + rewrite HG, HP. split; reflexivity.
Defined.

(** ** The letter case of package names *)

Lemma lower_upper_char (c : ascii) : lower_char (upper_char c) = lower_char c.
Proof. destruct c as [[] [] [] [] [] [] [] []]; reflexivity. Qed.

Lemma lower_lower_char (c : ascii) : lower_char (lower_char c) = lower_char c.
Proof. destruct c as [[] [] [] [] [] [] [] []]; reflexivity. Qed.

Lemma cased_bracket (c : ascii) :
  upper_char (lower_char c) = "["%char -> c = "["%char.
Proof.
  destruct c as [[] [] [] [] [] [] [] []]; vm_compute; intros H;
    first [reflexivity | discriminate H].
Qed.

Lemma casefold_title_from (b : bool) (s : str) :
  casefold (title_from b s) = casefold s.
Proof.
  revert b. induction s as [|c s IH]; intros b; [reflexivity|].
  cbn [title_from casefold map]. fold (casefold (title_from (is_upper c || is_lower c) s)).
  fold (casefold s). rewrite IH.
  destruct b; rewrite ?lower_lower_char, ?lower_upper_char; reflexivity.
Qed.

Lemma casefold_idem (s : str) : casefold (casefold s) = casefold s.
Proof.
  unfold casefold. rewrite map_map. apply map_ext. apply lower_lower_char.
Qed.

Lemma title_casefold_idem (s : str) :
  title (casefold (title (casefold s))) = title (casefold s).
Proof.
  unfold title at 2. rewrite casefold_title_from, casefold_idem. reflexivity.
Qed.

Lemma strip_head_not_space (s : str) (c : ascii) (r : str) :
  strip s = c :: r -> isspace c = false.
Proof.
  unfold strip. intros H.
  destruct (rstrip_by_prefix isspace (lstrip_by isspace s)) as (b & Hb & _).
  rewrite H in Hb. pose proof (lstrip_by_head isspace s) as Hh.
  rewrite Hb in Hh. exact Hh.
Qed.

Lemma entry_key_reads_back (line p0 p1 : str) :
  split "=" 2 line = [p0; p1] ->
  startswith (txt "[") line = false ->
  match line with [] => True | c :: _ => isspace c = false end ->
  reads_back (title (casefold (strip p0))) = true.
Proof.
  intros Hs Hbr Hhead. apply split_entry_inv in Hs as (-> & _ & _).
  unfold reads_back. rewrite title_casefold_idem.
  rewrite bool_decide_eq_true_2 by reflexivity. cbn [andb].
  apply negb_true_iff.
  destruct p0 as [|c p0]; [reflexivity|]. cbn [app] in Hhead, Hbr.
  destruct (strip_head c p0 Hhead) as [r ->].
  cbn [casefold map title title_from startswith txt list_ascii_of_string].
  destruct (decide ("["%char = upper_char (lower_char c))) as [E|_];
    [|reflexivity].
  symmetry in E. apply cased_bracket in E. subst c.
  simpl in Hbr. discriminate Hbr.
Qed.

Lemma read_ini_item_keys (glob : str -> list str) (category : Category)
    (line : str) (master : bool) (st st' : state) :
  startswith (txt "[") line = false ->
  match line with [] => True | c :: _ => isspace c = false end ->
  read_ini_item glob category line master st = Ok st' ->
  (forall k, dict_in k (Packages st') = true ->
             dict_in k (Packages st) = true \/ reads_back k = true)
  /\ (forall k, dict_in k (packages st') = true ->
                dict_in k (packages st) = true \/ reads_back k = true).
Proof.
  intros Hbr Hhead. unfold read_ini_item.
  assert (Hsame : forall s : state,
            Packages s = Packages st -> packages s = packages st ->
            (forall k, dict_in k (Packages s) = true ->
                       dict_in k (Packages st) = true \/ reads_back k = true)
            /\ (forall k, dict_in k (packages s) = true ->
                          dict_in k (packages st) = true
                          \/ reads_back k = true)).
  { intros s -> ->. split; intros k Hk; left; exact Hk. }
  destruct (is_template category).
  { intros [= <-]. apply Hsame; apply add_template_line_registry. }
  destruct (decide (category = EXTRA_FILES)).
  { intros [= <-]. apply Hsame; reflexivity. }
  destruct (split "=" 2 line) as [|p0 [|p1 [|p2 ps]]] eqn:Hs;
    try (intros [= <-]; apply Hsame; reflexivity).
  pose proof (entry_key_reads_back line p0 p1 Hs Hbr Hhead) as Hkey.
  destruct (decide (category = PACKAGES));
    [|intros [= <-]; apply Hsame; apply set_general_item_registry].
  destruct master.
  - intros [= <-]. cbn [Packages packages set_Packages]. split.
    + intros k. rewrite dict_in_set.
      destruct (bool_decide_reflect (k = title (casefold (strip p0))))
        as [->|_]; [right; exact Hkey|left; assumption].
    + intros k Hk. left. exact Hk.
  - cbn [Packages packages set_packages].
    destruct (dict_in _ (Packages st)); [|discriminate].
    intros [= <-]. cbn [Packages packages set_Packages set_packages]. split.
    + intros k. rewrite dict_in_del. intros H.
      apply andb_true_iff in H as [_ H]. left. exact H.
    + intros k. rewrite dict_in_set.
      destruct (bool_decide_reflect (k = title (casefold (strip p0))))
        as [->|_]; [right; exact Hkey|left; assumption].
Qed.

Lemma read_ini_line_keys (glob : str -> list str) (master : bool)
    (cs cs' : Category * state) (line : str) :
  read_ini_line glob master cs line = Ok cs' ->
  (forall k, dict_in k (Packages cs'.2) = true ->
             dict_in k (Packages cs.2) = true \/ reads_back k = true)
  /\ (forall k, dict_in k (packages cs'.2) = true ->
                dict_in k (packages cs.2) = true \/ reads_back k = true).
Proof.
  destruct cs as [category st]. unfold read_ini_line. cbn [snd].
  assert (Hsame : forall s : state,
            Packages s = Packages st -> packages s = packages st ->
            (forall k, dict_in k (Packages s) = true ->
                       dict_in k (Packages st) = true \/ reads_back k = true)
            /\ (forall k, dict_in k (packages s) = true ->
                          dict_in k (packages st) = true
                          \/ reads_back k = true)).
  { intros s -> ->. split; intros k Hk; left; exact Hk. }
  destruct (negb (startswith (txt "[") line) && is_template category).
  { intros [= <-]. apply Hsame; apply add_template_line_registry. }
  destruct (bool_decide (strip line = []) || startswith (txt "#") (strip line)).
  { intros [= <-]. apply Hsame; reflexivity. }
  destruct (startswith (txt "[") (strip line)) eqn:Hbr.
  { intros [= <-]. apply Hsame; apply read_ini_category_registry. }
  destruct (read_ini_item glob category (strip line) master st)
    as [st1|e] eqn:Hitem; [|discriminate].
  cbn [mbind result_bind]. intros [= <-]. cbn [snd].
  apply (read_ini_item_keys glob category (strip line) master st st1 Hbr);
    [|exact Hitem].
  destruct (strip line) as [|c r] eqn:Hstrip; [exact I|].
  exact (strip_head_not_space line c r Hstrip).
Qed.

Lemma read_ini_lines_keys (glob : str -> list str) (master : bool)
    (lines : list str) (cs cs' : Category * state) :
  read_ini_lines glob master lines cs = Ok cs' ->
  (forall k, dict_in k (Packages cs'.2) = true ->
             dict_in k (Packages cs.2) = true \/ reads_back k = true)
  /\ (forall k, dict_in k (packages cs'.2) = true ->
                dict_in k (packages cs.2) = true \/ reads_back k = true).
Proof.
  revert cs. induction lines as [|line rest IH]; intros cs.
  - intros [= <-]. split; intros k Hk; left; exact Hk.
  - cbn [read_ini_lines].
    destruct (read_ini_line glob master cs line) as [cs1|e] eqn:H1;
      [|discriminate].
    cbn [mbind result_bind]. intros H2.
    destruct (read_ini_line_keys glob master cs cs1 line H1) as [A1 B1].
    destruct (IH cs1 H2) as [A2 B2]. split; intros k Hk.
    + destruct (A2 k Hk) as [H|H]; [apply A1, H|right; exact H].
    + destruct (B2 k Hk) as [H|H]; [apply B1, H|right; exact H].
Qed.

(** X20: every package name that reading a settings file brings into the
    registry or into the project's packages is stored in one letter case,
    the first letter of each run of letters a capital and the others
    small, however the file spells it (GLib is stored as Glib), and it
    does not begin with a bracket. *)
Theorem read_names_are_titled (glob : str -> list str) (text : str)
    (master : bool) (st st' : state) :
  read_ini glob text master st = Ok st' ->
  (forall k, dict_in k (Packages st') = true ->
             dict_in k (Packages st) = true \/ reads_back k = true)
  /\ (forall k, dict_in k (packages st') = true ->
                dict_in k (packages st) = true \/ reads_back k = true).
Proof.
  unfold read_ini.
  destruct (read_ini_lines glob master (readlines text) (GENERAL, st))
    as [cs|e] eqn:Hrun; [|discriminate].
  cbn [mbind result_bind]. intros [= <-].
  exact (read_ini_lines_keys glob master _ _ _ Hrun).
Qed.

Lemma read_names_are_titled_witness :
  reads_back (txt "Glib") = true.
Proof.
  destruct (proj1 (read_names_are_titled (fun _ => [])
                     (txt "[Packages]" ++ [LF] ++ txt "GLib = glib-2.0"
                        ++ [LF])
                     true (Model_init [] [] [] false)
                     (set_Packages
                        (default_Packages ++ [(txt "Glib", txt "glib-2.0")])
                        (Model_init [] [] [] false))
                     eq_refl) (txt "Glib") eq_refl) as [H|H].
  - discriminate H.
  - exact H.
Defined.

(** ** From the first run to the second *)

Lemma forallb_dict_set (f : str * str -> bool) (k v : str) (d : dict) :
  f (k, v) = true -> forallb f d = true -> forallb f (dict_set k v d) = true.
Proof.
  intros Hkv. induction d as [|[k' v'] d IH]; cbn [dict_set forallb].
  - intros _. rewrite Hkv. reflexivity.
  - intros H. apply andb_true_iff in H as [H1 H2].
    destruct (decide (k = k')); cbn [forallb].
    + rewrite Hkv, H2. reflexivity.
    + rewrite H1, (IH H2). reflexivity.
Qed.

Lemma tidy_dict_set (k v : str) (d : dict) :
  name_ok k = true -> clean k = true -> clean v = true ->
  tidy d = true -> tidy (dict_set k v d) = true.
Proof.
  intros Hn Hk Hv Hd. unfold tidy in *.
  apply andb_true_iff in Hd as [Hnd Hall].
  apply bool_decide_eq_true_1 in Hnd. apply andb_true_iff. split.
  - apply bool_decide_eq_true_2, NoDup_dict_set, Hnd.
  - apply forallb_dict_set; [|exact Hall]. cbn [fst snd].
    rewrite Hn, Hk, Hv. reflexivity.
Qed.

Lemma tidy_dict_del (k : str) (d : dict) :
  tidy d = true -> tidy (dict_del k d) = true.
Proof.
  unfold tidy, dict_del. intros Hd.
  apply andb_true_iff in Hd as [Hnd Hall].
  apply bool_decide_eq_true_1 in Hnd. apply andb_true_iff. split.
  - apply bool_decide_eq_true_2.
    induction d as [|[k' v'] d IH]; [constructor|].
    cbn [keys map fst] in Hnd. apply NoDup_cons in Hnd as [Hk' Hnd].
    cbn [forallb] in Hall. apply andb_true_iff in Hall as [_ Hall].
    rewrite filter_cons. destruct (decide ((k', v').1 <> k)).
    + cbn [keys map fst]. apply NoDup_cons. split; [|apply IH; assumption].
      intros Hin. apply Hk'. apply list_elem_of_fmap in Hin as (kv & E & Hkv).
      apply list_elem_of_filter in Hkv as [_ Hkv].
      apply list_elem_of_fmap. exists kv. split; assumption.
    + apply IH; assumption.
  - rewrite forallb_forall in Hall. apply forallb_forall. intros kv Hin.
    apply Hall. apply list_elem_of_In. apply list_elem_of_In in Hin.
    apply list_elem_of_filter in Hin as [_ Hin]. exact Hin.
Qed.

Lemma scan_line_tidy (line : str) (sc sc' : scanner) :
  scan_line line sc = Ok sc' ->
  tidy (Packages (st_of sc)) = true -> tidy (packages (st_of sc)) = true ->
  tidy (Packages (st_of sc')) = true /\ tidy (packages (st_of sc')) = true.
Proof.
  intros Hrun HG HP.
  destruct (scan_line_steps line sc sc' Hrun)
    as [(pkg & Hd)|(_ & H1 & H2)]; [|rewrite H1, H2; split; assumption].
  destruct (discovered_moves _ _ _ Hd) as (value & Hget & HG' & HP' & _).
  change (st_of (log (Examined line) sc)) with (st_of sc) in *.
  rewrite HG', HP'. split; [apply tidy_dict_del, HG|].
  destruct (tidy_elem _ pkg value HG (dict_get_elem _ _ _ Hget))
    as (Hn & Hk & Hv).
  apply tidy_dict_set; assumption.
Qed.

Lemma scan_lines_tidy (WIN : bool) (lines : list str) (sc sc' : scanner) :
  scan_lines WIN lines sc = Ok sc' ->
  tidy (Packages (st_of sc)) = true -> tidy (packages (st_of sc)) = true ->
  tidy (Packages (st_of sc')) = true /\ tidy (packages (st_of sc')) = true.
Proof.
  revert sc. induction lines as [|line rest IH]; intros sc.
  - intros [= <-]. tauto.
  - cbn [scan_lines]. destruct (negb (more_to_do WIN (st_of sc))).
    + intros [= <-]. tauto.
    + destruct (scan_line line sc) as [sc1|e] eqn:H1; [|discriminate].
      cbn [mbind result_bind]. intros H2 HG HP.
      destruct (scan_line_tidy line sc sc1 H1 HG HP) as [HG1 HP1].
      exact (IH sc1 H2 HG1 HP1).
Qed.

Lemma scan_files_tidy (WIN : bool) (valas : list (str * str))
    (sc sc' : scanner) :
  scan_files WIN valas sc = Ok sc' ->
  tidy (Packages (st_of sc)) = true -> tidy (packages (st_of sc)) = true ->
  tidy (Packages (st_of sc')) = true /\ tidy (packages (st_of sc')) = true.
Proof.
  revert sc. induction valas as [|[path text] rest IH]; intros sc.
  - intros [= <-]. tauto.
  - cbn [scan_files].
    destruct (scan_lines WIN (readlines text) (log (Opened path) sc))
      as [sc1|e] eqn:H1; [|discriminate].
    cbn [mbind result_bind]. intros H2 HG HP.
    destruct (scan_lines_tidy WIN _ _ _ H1 HG HP) as [HG1 HP1].
    destruct (negb (more_to_do WIN (st_of sc1))).
    + injection H2 as <-. tauto.
    + exact (IH sc1 H2 HG1 HP1).
Qed.

Lemma scan_tidy (WIN : bool) (valas : list (str * str)) (st st' : state)
    (evs : list event) :
  scan WIN valas st = Ok (st', evs) ->
  tidy (Packages st) = true -> tidy (packages st) = true ->
  tidy (Packages st') = true /\ tidy (packages st') = true.
Proof.
  unfold scan. destruct (more_to_do WIN st).
  - destruct (scan_files WIN valas _) as [sc|e] eqn:Hf; [|discriminate].
    cbn [mbind result_bind]. intros [= <- _].
    exact (scan_files_tidy WIN valas _ sc Hf).
  - intros [= <- _]. tauto.
Qed.

Lemma scanned_model (WIN : bool) (valas : list (str * str))
    (st0 st1 : state) (evs : list event) :
  packages st0 = [] ->
  tidy (Packages st0) = true ->
  scan WIN valas st0 = Ok (st1, evs) ->
  tidy (Packages st1) = true /\ tidy (packages st1) = true
  /\ (forall k v, dict_get k (packages st1) = Some v ->
        dict_get k (Packages st0) = Some v
        /\ dict_get k (Packages st1) = None)
  /\ (forall k, dict_get k (packages st1) = None ->
        dict_get k (Packages st1) = dict_get k (Packages st0)).
Proof.
  intros Hnil HG Hscan.
  destruct (scan_tidy WIN valas st0 st1 evs Hscan HG) as [HG1 HP1];
    [rewrite Hnil; reflexivity|].
  pose proof (scan_kept_or_moved WIN valas st0 st1 evs Hscan) as Hmove.
  split; [exact HG1|]. split; [exact HP1|]. split.
  - intros k v Hget. destruct (Hmove k) as [[_ H]|(_ & H1 & H2)].
    + rewrite H, Hnil in Hget. discriminate Hget.
    + split; congruence.
  - intros k Hget. destruct (Hmove k) as [[H _]|(H0 & _ & H2)];
      [exact H|congruence].
Qed.

(** X21: the settings file of the first run carries the result of the
    scan to the next run.  When a project without settings file is
    scanned from a model without packages and the file is made, then a
    fresh model with the same registry that reads the file holds, name by
    name, the packages and the registry that the scan ended with.  Its
    list of extra files is empty: the defaults README and LICENSE only
    count as long as the project has no settings file. *)
Theorem first_run_round_trip (WIN : bool) (glob : str -> list str)
    (valas : list (str * str)) (st0 st1 : state) (evs : list event) :
  packages st0 = [] ->
  tidy (Packages st0) = true ->
  forallb (fun kv => reads_back kv.1) (Packages st0) = true ->
  scan WIN valas st0 = Ok (st1, evs) ->
  exists st2,
    read_ini glob (make_ini st1) false st0 = Ok st2
    /\ (forall k, dict_get k (packages st2) = dict_get k (packages st1))
    /\ (forall k, dict_get k (Packages st2) = dict_get k (Packages st1))
    /\ extra_files st2 = [].
Proof.
  intros Hnil HG Hback Hscan.
  destruct (scanned_model WIN valas st0 st1 evs Hnil HG Hscan)
    as (HG1 & HP1 & Hfrom & Hrest).
  rewrite forallb_forall in Hback.
  destruct (make_ini_read glob st1 st0 HP1 HG1)
    as (st2 & Hread & HE & Hp & Hg).
  { intros k v Hget. destruct (Hfrom k v Hget) as [H0 _]. split.
    - apply (Hback (k, v)), list_elem_of_In, dict_get_elem, H0.
    - apply dict_in_get. eauto. }
  exists st2. split; [exact Hread|]. split; [|split; [|exact HE]].
  - intros k. rewrite Hp.
    destruct (dict_get k (packages st1)) as [v|] eqn:Hget; [reflexivity|].
    rewrite Hnil. reflexivity.
  - intros k. rewrite Hg. unfold dict_in.
    destruct (dict_get k (packages st1)) as [v|] eqn:Hget.
    + destruct (Hfrom k v Hget) as [_ H]. symmetry. exact H.
    + symmetry. apply Hrest, Hget.
Qed.

Lemma first_run_round_trip_witness :
  exists st2,
    read_ini (fun _ => [])
      (make_ini
         (set_packages [(txt "Gtk", txt "gtk+-3.0")]
            (set_Packages
               [(txt "Gee", txt "gee-0.8"); (txt "Gio", txt "gio-2.0")]
               (Model_init [] [] [] false))))
      false (Model_init [] [] [] false) = Ok st2
    /\ dict_get (txt "Gtk") (packages st2) = Some (txt "gtk+-3.0")
    /\ dict_get (txt "Gtk") (Packages st2) = None
    /\ extra_files st2 = [].
Proof.
  destruct (first_run_round_trip false (fun _ => [])
              [(txt "main.vala", txt "Gtk.init(ref args);" ++ [LF])]
              (Model_init [] [] [] false)
              (set_packages [(txt "Gtk", txt "gtk+-3.0")]
                 (set_Packages
                    [(txt "Gee", txt "gee-0.8"); (txt "Gio", txt "gio-2.0")]
                    (Model_init [] [] [] false)))
              [Opened (txt "main.vala");
               Examined (txt "Gtk.init(ref args);" ++ [LF])])
    as (st2 & Hread & Hp & Hg & HE);
    [reflexivity|reflexivity|reflexivity|vm_compute; reflexivity|].
  exists st2. split; [exact Hread|].
  split; [exact (Hp (txt "Gtk"))|]. split; [exact (Hg (txt "Gtk"))|exact HE].
Defined.

(** ** An id remembered in a comment *)

Lemma merge_section_holds (x v : str) (lines : list str) (d : dict) :
  dict_get x d = Some v ->
  (forall l key w, l ∈ lines -> section_entry l = Some (key, w) ->
     key = x \/ lstrip_chars (txt "# ") key = x -> w = v) ->
  dict_get x (merge_section d lines) = Some v.
Proof.
  revert d. induction lines as [|l lines IH]; intros d Hget Hlines;
    [exact Hget|].
  cbn [merge_section fold_left]. fold (merge_section (merge_entry d l) lines).
  apply IH; [|intros l' key w Hl'; apply Hlines; right; exact Hl'].
  rewrite dict_get_merge_entry.
  destruct (section_entry l) as [[key w]|] eqn:Hentry; [|exact Hget].
  destruct (decide (x = target d key)) as [Hx|_]; [|exact Hget].
  f_equal. apply (Hlines l key w); [left|exact Hentry|].
  destruct (target_cases d key) as [H|(_ & H & _)]; rewrite H in Hx;
    [left|right]; congruence.
Qed.

(** X22: an id that the settings file remembers in a comment wins over the
    model's id when the package is in use.  If the Packages section of the
    file has the line [# name = id], the model has the package [name], and
    no later line of the section gives [name] another id, then the
    rewritten section lists [name = id] as an active line, with the id of
    the comment, whatever id the model holds for it. *)
Theorem commented_id_wins (old : str) (st : state)
    (pre before after : list str) (hdr line key value : str) :
  readlines old = pre ++ hdr :: before ++ line :: after ->
  Forall (fun l => is_header l = false) pre ->
  is_header hdr = true ->
  section_entry line = Some (key, value) ->
  startswith (txt "#") key = true ->
  dict_in (lstrip_chars (txt "# ") key) (packages st) = true ->
  (forall l k w, l ∈ after -> section_entry l = Some (k, w) ->
     k = lstrip_chars (txt "# ") key
     \/ lstrip_chars (txt "# ") k = lstrip_chars (txt "# ") key ->
     w = value) ->
  dict_get (lstrip_chars (txt "# ") key) (merged_packages old st)
  = Some value
  /\ active_line (lstrip_chars (txt "# ") key, value)
       ∈ section_lines (merged_packages old st) st.
Proof.
  intros Hlines Hpre Hhdr Hentry Hhash Hin Hafter.
  destruct (section_of_split pre (before ++ line :: after) hdr Hpre Hhdr)
    as [_ Hsection].
  unfold merged_packages. rewrite Hlines, Hsection.
  rewrite merge_section_app. cbn [merge_section fold_left].
  fold (merge_section (merge_entry (merge_section (packages st) before) line)
          after).
  set (name := lstrip_chars (txt "# ") key) in *.
  set (d := merge_section (packages st) before).
  assert (Hd : dict_in name d = true) by (apply merge_section_grows, Hin).
  assert (Hstep : merge_entry d line = dict_set name value d).
  { unfold merge_entry, target. rewrite Hentry, Hhash. fold name.
    rewrite Hd. reflexivity. }
  rewrite Hstep.
  assert (Hkept : dict_get name (merge_section (dict_set name value d) after)
                  = Some value).
  { apply merge_section_holds; [|exact Hafter].
    rewrite dict_get_set. destruct (decide (name = name)); congruence. }
  split; [exact Hkept|].
  unfold section_lines. apply elem_of_sorted_set, elem_of_app. left.
  apply (list_elem_of_fmap_2 active_line _ (name, value)).
  apply dict_get_elem, Hkept.
Qed.

Lemma commented_id_wins_witness :
  active_line (txt "Gtk", txt "gtk+-2.0")
    ∈ section_lines
        (merged_packages
           (txt "[Packages]" ++ [LF] ++ txt "# Gtk = gtk+-2.0" ++ [LF])
           (set_packages [(txt "Gtk", txt "gtk+-3.0")]
              (Model_init [] [] [] false)))
        (set_packages [(txt "Gtk", txt "gtk+-3.0")]
           (Model_init [] [] [] false)).
Proof.
  refine (proj2 (commented_id_wins
                   (txt "[Packages]" ++ [LF] ++ txt "# Gtk = gtk+-2.0" ++ [LF])
                   (set_packages [(txt "Gtk", txt "gtk+-3.0")]
                      (Model_init [] [] [] false))
                   [] [] [] (txt "[Packages]" ++ [LF])
                   (txt "# Gtk = gtk+-2.0" ++ [LF])
                   (txt "# Gtk") (txt "gtk+-2.0") _ _ _ _ _ _ _));
    try reflexivity.
  - constructor.
  - intros l k w Hl. inversion Hl.
Defined.

(** ** The platform and the scan *)

Lemma more_to_do_platform (WIN : bool) (st : state) :
  archive st = false -> more_to_do WIN st = more_to_do false st.
Proof.
  intros Hz. unfold more_to_do. rewrite Hz, andb_false_r. reflexivity.
Qed.

Lemma scan_lines_platform (WIN : bool) (lines : list str) (sc : scanner) :
  archive (st_of sc) = false ->
  scan_lines WIN lines sc = scan_lines false lines sc
  /\ forall sc', scan_lines false lines sc = Ok sc' ->
                 archive (st_of sc') = false.
Proof.
  revert sc. induction lines as [|line rest IH]; intros sc Hz.
  - split; [reflexivity|]. intros sc' [= <-]. exact Hz.
  - cbn [scan_lines]. rewrite (more_to_do_platform WIN _ Hz).
    destruct (negb (more_to_do false (st_of sc))).
    + split; [reflexivity|]. intros sc' [= <-]. exact Hz.
    + destruct (scan_line line sc) as [sc1|e] eqn:H1;
        cbn [mbind result_bind]; [|split; [reflexivity|discriminate]].
      apply IH. rewrite (scan_line_archive line sc sc1 H1). exact Hz.
Qed.

Lemma scan_files_platform (WIN : bool) (valas : list (str * str))
    (sc : scanner) :
  archive (st_of sc) = false ->
  scan_files WIN valas sc = scan_files false valas sc.
Proof.
  revert sc. induction valas as [|[path text] rest IH]; intros sc Hz;
    [reflexivity|].
  cbn [scan_files].
  destruct (scan_lines_platform WIN (readlines text) (log (Opened path) sc) Hz)
    as [-> Hkeep].
  destruct (scan_lines false (readlines text) (log (Opened path) sc))
    as [sc1|e]; cbn [mbind result_bind]; [|reflexivity].
  pose proof (Hkeep sc1 eq_refl) as Hz1.
  rewrite (more_to_do_platform WIN _ Hz1).
  destruct (negb (more_to_do false (st_of sc1))); [reflexivity|].
  apply IH, Hz1.
Qed.

(** X23: when no archive is asked for, the scan does not depend on the
    platform: on Windows it opens the same files, examines the same
    lines, and ends with the same model or the same failure as
    elsewhere. *)
Theorem scan_platform_independent (WIN : bool) (valas : list (str * str))
    (st : state) :
  archive st = false ->
  scan WIN valas st = scan false valas st.
Proof.
  intros Hz. unfold scan. rewrite (more_to_do_platform WIN st Hz).
  destruct (more_to_do false st); [|reflexivity].
  rewrite (scan_files_platform WIN valas
             (mk_scanner (pkg_pattern (keys (Packages st))) st []) Hz).
  reflexivity.
Qed.

Lemma scan_platform_independent_witness :
  scan true [(txt "main.vala", txt "Gtk.init(ref args);" ++ [LF])]
    (Model_init [] [] [] false)
  = scan false [(txt "main.vala", txt "Gtk.init(ref args);" ++ [LF])]
      (Model_init [] [] [] false).
Proof.
  apply (scan_platform_independent true
           [(txt "main.vala", txt "Gtk.init(ref args);" ++ [LF])]
           (Model_init [] [] [] false)).
  reflexivity.
Defined.

(** X24: later runs never drop a package.  When the first run has scanned
    the sources and made the settings file, a later run that starts from
    a fresh model with the same registry, reads the file and scans the
    sources as they are then, whatever they have become, still holds
    every package that the first run found, with its id: a package that
    the sources no longer use stays a package of the project. *)
Theorem later_run_keeps_packages (WIN : bool) (glob : str -> list str)
    (valas valas' : list (str * str)) (st0 st1 st3 : state)
    (evs evs' : list event) :
  packages st0 = [] ->
  tidy (Packages st0) = true ->
  forallb (fun kv => reads_back kv.1) (Packages st0) = true ->
  scan WIN valas st0 = Ok (st1, evs) ->
  (st2 ← read_ini glob (make_ini st1) false st0; scan WIN valas' st2)
  = Ok (st3, evs') ->
  forall k v, dict_get k (packages st1) = Some v ->
              dict_get k (packages st3) = Some v.
Proof.
  intros Hnil HG Hback Hscan Hlater k v Hget.
  destruct (scanned_model WIN valas st0 st1 evs Hnil HG Hscan)
    as (HG1 & HP1 & Hfrom & _).
  rewrite forallb_forall in Hback.
  destruct (make_ini_read glob st1 st0 HP1 HG1)
    as (st2 & Hread & _ & Hp & Hg).
  { intros k' v' Hget'. destruct (Hfrom k' v' Hget') as [H0 _]. split.
    - apply (Hback (k', v')), list_elem_of_In, dict_get_elem, H0.
    - apply dict_in_get. eauto. }
  rewrite Hread in Hlater. cbn [mbind result_bind] in Hlater.
  assert (H2 : dict_get k (packages st2) = Some v)
    by (rewrite Hp, Hget; reflexivity).
  assert (H2' : dict_get k (Packages st2) = None).
  { rewrite Hg. unfold dict_in. rewrite Hget. reflexivity. }
  destruct (scan_kept_or_moved WIN valas' st2 st3 evs' Hlater k)
    as [[_ H]|(H & _ & _)]; congruence.
Qed.

Lemma later_run_keeps_packages_witness :
  dict_get (txt "Gtk")
    (packages
       (set_packages [(txt "Gtk", txt "gtk+-3.0")]
          (set_Packages
             [(txt "Gee", txt "gee-0.8"); (txt "Gio", txt "gio-2.0")]
             (set_extra_files [] (Model_init [] [] [] false)))))
  = Some (txt "gtk+-3.0").
Proof.
  refine (later_run_keeps_packages false (fun _ => [])
            [(txt "main.vala", txt "Gtk.init(ref args);" ++ [LF])]
            [(txt "main.vala", txt "void main() {}" ++ [LF])]
            (Model_init [] [] [] false)
            (set_packages [(txt "Gtk", txt "gtk+-3.0")]
               (set_Packages
                  [(txt "Gee", txt "gee-0.8"); (txt "Gio", txt "gio-2.0")]
                  (Model_init [] [] [] false)))
            (set_packages [(txt "Gtk", txt "gtk+-3.0")]
               (set_Packages
                  [(txt "Gee", txt "gee-0.8"); (txt "Gio", txt "gio-2.0")]
                  (set_extra_files [] (Model_init [] [] [] false))))
            [Opened (txt "main.vala");
             Examined (txt "Gtk.init(ref args);" ++ [LF])]
            [Opened (txt "main.vala");
             Examined (txt "void main() {}" ++ [LF])]
            _ _ _ _ _ (txt "Gtk") (txt "gtk+-3.0") _).
  - reflexivity.
  - reflexivity.
  - reflexivity.
  - vm_compute. reflexivity.
  - vm_compute. reflexivity.
  - reflexivity.
Defined.
